(** * Production scheduler: product-task instance model

    A shallow embedding of [src/scheduler.py] (class [ProductionScheduler])
    and the properties of its scheduling engine.

    Conventions of the embedding.
    - A Python [str] is a Rocq [string]; a character is a code point in
      the range 0..255.
    - A [datetime] is a number of minutes ([Z]) counted from Monday
      2025-08-18 00:00, so that the schedule epoch 2025-08-22 06:00 (a
      Friday) is minute [4 * 1440 + 360].  Every datetime the scheduler
      builds is minute aligned: the epoch, the shift boundaries, the late
      part start ([replace(hour=6, minute=0, second=0, microsecond=0)]) and
      sums of those with whole minutes.
    - A [dict] whose iteration order is observed is an association list in
      insertion order; a [dict] that is only looked up is a [gmap]; a
      [set] is a [gset], iterated through the parameter [set_order].
    - An exception is an explicit error result.
    - A [float] is a binary64 value, the kernel's [float], with the
      correctly rounded operations of [PrimFloat]. *)

From Stdlib Require Import Floats ZArith Lia Ascii String List DecimalString DecimalZ.
From stdpp Require Import base option list gmap strings fin_maps.

Local Open Scope Z_scope.

(** ** Python strings *)

Module PyStr.

(** [lstrip], [rstrip] and [strip] of the characters that satisfy
    [blank]. *)
Fixpoint lstrip (blank : ascii → bool) (s : string) : string :=
  match s with
  | EmptyString => EmptyString
  | String c s' => if blank c then lstrip blank s' else s
  end.

Fixpoint rstrip (blank : ascii → bool) (s : string) : string :=
  match s with
  | EmptyString => EmptyString
  | String c s' =>
      match rstrip blank s' with
      | EmptyString => if blank c then EmptyString else String c EmptyString
      | r => String c r
      end
  end.

Definition strip (blank : ascii → bool) (s : string) : string :=
  rstrip blank (lstrip blank s).

(** The characters that [int()] skips around a number, among the code
    points 0..255: the ASCII blanks (tab, line feed, vertical tab, form
    feed, carriage return, space) and, read as a space before the number
    is parsed, next line (133) and no-break space (160).  The separators
    28..31 are [str.isspace] characters, but [int()] does not skip
    them. *)
Definition is_int_blank (c : ascii) : bool :=
  let n := nat_of_ascii c in
  ((9 <=? n)%nat && (n <=? 13)%nat) || (n =? 32)%nat
  || (n =? 133)%nat || (n =? 160)%nat.

(** [str(n)] for an [int]. *)
Definition str_of_int (n : Z) : string := NilZero.string_of_int (Z.to_int n).

(** Decimal digits without sign; [None] is [ValueError]. *)
Definition digits_to_Z (s : string) : option Z :=
  match NilZero.uint_of_string s with
  | Some d => Some (Z.of_uint d)
  | None => None
  end.

(** [int(s)] for a [str] argument: surrounding blanks are skipped, one
    sign is accepted, then decimal digits.  [None] is [ValueError].  (An
    underscore between digits is a grouping character for [int()]; the only
    caller passes a piece of [split('_')], which has none.) *)
Definition int_of_str (s : string) : option Z :=
  match strip is_int_blank s with
  | EmptyString => None
  | String c r =>
      if Ascii.eqb c "+" then digits_to_Z r
      else if Ascii.eqb c "-" then
        match digits_to_Z r with Some z => Some (- z) | None => None end
      else digits_to_Z (String c r)
  end.

(** [s.split(sep)] for a one-character separator. *)
Fixpoint split (sep : ascii) (s : string) : list string :=
  match s with
  | EmptyString => [EmptyString]
  | String c s' =>
      if Ascii.eqb c sep then EmptyString :: split sep s'
      else match split sep s' with
           | h :: t => String c h :: t
           | [] => [String c EmptyString]
           end
  end.

(** [s.replace(old, new)] for a non-empty [old]: occurrences are found
    from the left and do not overlap.  [skip] counts the characters of the
    occurrence being consumed. *)
Fixpoint replace_go (old new : string) (skip : nat) (s : string) : string :=
  match s with
  | EmptyString => EmptyString
  | String c s' =>
      match skip with
      | S k => replace_go old new k s'
      | O =>
          if String.prefix old s
          then new +:+ replace_go old new (String.length old - 1) s'
          else String c (replace_go old new 0 s')
      end
  end.

Definition replace (old new s : string) : string := replace_go old new 0 s.

(** [old in s] *)
Fixpoint contains (old s : string) : bool :=
  String.prefix old s ||
  match s with
  | EmptyString => false
  | String _ s' => contains old s'
  end.

Fixpoint has_char (c : ascii) (s : string) : bool :=
  match s with
  | EmptyString => false
  | String a s' => Ascii.eqb a c || has_char c s'
  end.

(** [c.isdigit()] on the code points 0..255 *)
Definition is_digit (c : ascii) : bool :=
  let n := nat_of_ascii c in (48 <=? n)%nat && (n <=? 57)%nat.

(** [all(P(c) for c in s)] *)
Fixpoint all_chars (P : ascii → bool) (s : string) : bool :=
  match s with
  | EmptyString => true
  | String c s' => P c && all_chars P s'
  end.

(** [s.count(c)] *)
Fixpoint count_char (c : ascii) (s : string) : nat :=
  match s with
  | EmptyString => O
  | String a s' => ((if Ascii.eqb a c then 1 else 0) + count_char c s')%nat
  end.

End PyStr.

(** ** Task identifiers *)

(** [create_product_task_id] *)
Definition create_product_task_id (product : string) (task_num : Z) : string :=
  let product_initial := PyStr.replace "Product " "" product in
  product_initial +:+ "_" +:+ PyStr.str_of_int task_num.

(** The argument of [parse_product_task_id] is any Python value. *)
Inductive pyvalue : Type :=
| PyString (s : string)
| PyInt (n : Z)
| PyNone.

(** [parse_product_task_id]; the pair [(None, None)] is [None]. *)
Definition parse_product_task_id_str (product_task_id : string) : option (string * Z) :=
  match PyStr.split "_" product_task_id with
  | [p0; p1] =>
      match PyStr.int_of_str p1 with
      | Some task_num => Some ("Product " +:+ p0, task_num)
      | None => None
      end
  | _ => None
  end.

Definition parse_product_task_id (product_task_id : pyvalue) : option (string * Z) :=
  match product_task_id with
  | PyString s => parse_product_task_id_str s
  | _ => None
  end.


(** ** Exceptions *)

Inductive exn : Type :=
| DagValidationFailed   (* ValueError("DAG validation failed! Cannot proceed with scheduling.") *)
| KeyError (key : string)
| RecursionError
| ZeroDivisionError
| OverflowError
| EmptySequence.        (* ValueError: min() arg is an empty sequence *)

Inductive result (A : Type) : Type :=
| Ok (a : A)
| Raise (e : exn).

Arguments Ok {A} a.
Arguments Raise {A} e.

#[global] Instance result_bind : MBind result :=
  λ A B f r, match r with Ok a => f a | Raise e => Raise e end.

#[global] Instance result_ret : MRet result := λ A a, Ok a.

(** ** Dictionaries in insertion order *)

Section Dict.
Context {V : Type}.

Definition dict_get (k : string) (d : list (string * V)) : option V :=
  match find (λ kv, String.eqb (fst kv) k) d with
  | Some kv => Some (snd kv)
  | None => None
  end.

(** [d[k] = v]: an existing key keeps its place. *)
Fixpoint dict_set (k : string) (v : V) (d : list (string * V)) : list (string * V) :=
  match d with
  | [] => [(k, v)]
  | (k', v') :: d' =>
      if String.eqb k' k then (k, v) :: d' else (k', v') :: dict_set k v d'
  end.

Definition dict_mem (k : string) (d : list (string * V)) : bool :=
  existsb (λ kv, String.eqb (fst kv) k) d.

Definition dict_keys (d : list (string * V)) : list string := map fst d.

End Dict.

(** ** Calendar *)

(** [datetime.date()], as a day number. *)
Definition date_of (t : Z) : Z := t / 1440.

(** [hour * 60 + minute] *)
Definition minute_of_day (t : Z) : Z := t mod 1440.

(** [datetime.weekday()]: Monday is 0. *)
Definition weekday (t : Z) : Z := (t / 1440) mod 7.

(** [t.replace(hour=h, minute=m, second=0)] *)
Definition replace_time (t : Z) (h m : Z) : Z := t / 1440 * 1440 + h * 60 + m.

(** [datetime(2025, 8, 22, 6, 0)] *)
Definition start_date : Z := 4 * 1440 + 360.

(** ** The scheduler object *)

Inductive task_type : Type :=
| Production
| LatePart
| Rework
| QualityInspection.

#[global] Instance task_type_eq_dec : EqDecision task_type.
Proof. solve_decision. Defined.

(** An entry of [self.tasks].  The ['team'] of a quality inspection is
    [None] in the source and is never read (a quality team is assigned when
    the inspection is placed); it is the empty string here. *)
Module Task.
Record t : Type := mk {
  duration : Z;
  team : string;
  mechanics_required : Z;
  is_quality : bool;
  task_type : task_type;
  product_line : string;
}.
End Task.

(** An entry of a constraint list. *)
Record constraint : Type := mk_constraint {
  First : string;
  Second : string;
  Relationship : string;
}.

(** An entry of [self.task_schedule]. *)
Module Sched.
Record t : Type := mk {
  start_time : Z;
  end_time : Z;
  team : string;
  product_line : string;
  duration : Z;
  mechanics_required : Z;
  is_quality : bool;
  task_type : task_type;
  shift : string;
}.
End Sched.

(** [float('inf')], or a number of hours kept as minutes (hours are
    minutes / 60). *)
Inductive slack : Type :=
| SlackInf
| SlackMinutes (m : Z).

(** An entry of [self.global_priority_list]. *)
Module Entry.
Record t : Type := mk {
  task_id : string;
  task_num : option Z;
  task_type : task_type;
  display_name : string;
  product_line : string;
  team : string;
  scheduled_start : Z;
  scheduled_end : Z;
  duration_minutes : Z;
  mechanics_required : Z;
  slack_hours : slack;
  priority_score : float;
  shift : string;
  global_priority : nat;
}.
End Entry.

(** The fields of [ProductionScheduler] read or written by the engine.
    [late_part_delay] is [timedelta(days=self.late_part_delay_days)] in
    minutes; [holidays] holds the [.date()] of each holiday; a date of
    [delivery_dates] and of [on_dock_dates] is in minutes. *)
Record scheduler : Type := mk_scheduler {
  tasks : gmap string Task.t;
  precedence_constraints : list constraint;
  late_part_constraints : list constraint;
  rework_constraints : list constraint;
  late_part_tasks : gset string;
  rework_tasks : gset string;
  on_dock_dates : gmap string Z;
  task_to_product : gmap string string;
  quality_inspections : gmap string (string * Z);
  quality_requirements : list (string * string);
  team_shifts : gmap string (list string);
  team_capacity : list (string * Z);
  quality_team_shifts : list (string * list string);
  quality_team_capacity : list (string * Z);
  delivery_dates : list (string * Z);
  holidays : gmap string (gset Z);
  product_tasks : list (string * list string);
  task_schedule : list (string * Sched.t);
  global_priority_list : list Entry.t;
  _dynamic_constraints_cache : option (list constraint);
  late_part_delay : Z;
  _original_team_capacity : list (string * Z);
  _original_quality_capacity : list (string * Z);
}.

Definition set_task_schedule (v : list (string * Sched.t)) (s : scheduler) : scheduler :=
  mk_scheduler (tasks s) (precedence_constraints s) (late_part_constraints s)
    (rework_constraints s) (late_part_tasks s) (rework_tasks s) (on_dock_dates s)
    (task_to_product s) (quality_inspections s) (quality_requirements s)
    (team_shifts s) (team_capacity s) (quality_team_shifts s)
    (quality_team_capacity s) (delivery_dates s) (holidays s) (product_tasks s)
    v (global_priority_list s) (_dynamic_constraints_cache s)
    (late_part_delay s) (_original_team_capacity s) (_original_quality_capacity s).

Definition set_global_priority_list (v : list Entry.t) (s : scheduler) : scheduler :=
  mk_scheduler (tasks s) (precedence_constraints s) (late_part_constraints s)
    (rework_constraints s) (late_part_tasks s) (rework_tasks s) (on_dock_dates s)
    (task_to_product s) (quality_inspections s) (quality_requirements s)
    (team_shifts s) (team_capacity s) (quality_team_shifts s)
    (quality_team_capacity s) (delivery_dates s) (holidays s) (product_tasks s)
    (task_schedule s) v (_dynamic_constraints_cache s)
    (late_part_delay s) (_original_team_capacity s) (_original_quality_capacity s).

Definition set_team_capacity (v : list (string * Z)) (s : scheduler) : scheduler :=
  mk_scheduler (tasks s) (precedence_constraints s) (late_part_constraints s)
    (rework_constraints s) (late_part_tasks s) (rework_tasks s) (on_dock_dates s)
    (task_to_product s) (quality_inspections s) (quality_requirements s)
    (team_shifts s) v (quality_team_shifts s)
    (quality_team_capacity s) (delivery_dates s) (holidays s) (product_tasks s)
    (task_schedule s) (global_priority_list s) (_dynamic_constraints_cache s)
    (late_part_delay s) (_original_team_capacity s) (_original_quality_capacity s).

Definition set_quality_team_capacity (v : list (string * Z)) (s : scheduler) : scheduler :=
  mk_scheduler (tasks s) (precedence_constraints s) (late_part_constraints s)
    (rework_constraints s) (late_part_tasks s) (rework_tasks s) (on_dock_dates s)
    (task_to_product s) (quality_inspections s) (quality_requirements s)
    (team_shifts s) (team_capacity s) (quality_team_shifts s)
    v (delivery_dates s) (holidays s) (product_tasks s)
    (task_schedule s) (global_priority_list s) (_dynamic_constraints_cache s)
    (late_part_delay s) (_original_team_capacity s) (_original_quality_capacity s).

(** ** Dynamic dependencies *)

Definition FinishLeStart : string := "Finish <= Start".
Definition FinishEqStart : string := "Finish = Start".
Definition StartLeStart : string := "Start <= Start".

(** [any(c['First'] == first and c['Second'] == second for c in cs)] *)
Definition has_edge (first second : string) (cs : list constraint) : bool :=
  existsb (λ c, String.eqb (First c) first && String.eqb (Second c) second) cs.

(** One constraint routed through the quality inspection of its first
    task, when it has one (steps 1 and 3 of [build_dynamic_dependencies]). *)
Definition add_redirected (s : scheduler) (dynamic_constraints : list constraint)
    (c : constraint) : list constraint :=
  match dict_get (First c) (quality_requirements s) with
  | Some qi_task =>
      let dc :=
        if has_edge (First c) qi_task dynamic_constraints then dynamic_constraints
        else dynamic_constraints ++ [mk_constraint (First c) qi_task FinishEqStart] in
      dc ++ [mk_constraint qi_task (Second c) (Relationship c)]
  | None =>
      dynamic_constraints ++ [mk_constraint (First c) (Second c) (Relationship c)]
  end.

Definition in_tasks (s : scheduler) (task_id : string) : bool :=
  bool_decide (is_Some (tasks s !! task_id)).

Definition add_baseline (s : scheduler) (dc : list constraint) (c : constraint)
    : list constraint :=
  if negb (in_tasks s (First c)) || negb (in_tasks s (Second c)) then dc
  else add_redirected s dc c.

Definition add_late_part (s : scheduler) (dc : list constraint) (c : constraint)
    : list constraint :=
  if negb (in_tasks s (Second c)) then dc
  else dc ++ [mk_constraint (First c) (Second c) FinishLeStart].

Definition add_rework (s : scheduler) (dc : list constraint) (c : constraint)
    : list constraint :=
  if negb (in_tasks s (Second c)) && negb (bool_decide (Second c ∈ rework_tasks s))
  then dc
  else add_redirected s dc c.

Definition add_quality (dc : list constraint) (pq : string * string)
    : list constraint :=
  if has_edge (fst pq) (snd pq) dc then dc
  else dc ++ [mk_constraint (fst pq) (snd pq) FinishEqStart].

(** [build_dynamic_dependencies].  The list is cached by the source after
    the first call; the fields it is computed from do not change while a
    schedule is built, so the cache is read here and never written. *)
Definition build_dynamic_dependencies (s : scheduler) : list constraint :=
  match _dynamic_constraints_cache s with
  | Some cached => cached
  | None =>
      let dc1 := fold_left (add_baseline s) (precedence_constraints s) [] in
      let dc2 := fold_left (add_late_part s) (late_part_constraints s) dc1 in
      let dc3 := fold_left (add_rework s) (rework_constraints s) dc2 in
      fold_left add_quality (quality_requirements s) dc3
  end.

(** The relationships that [schedule_tasks] turns into a dependency. *)
Definition is_dependency (relationship : string) : bool :=
  String.eqb relationship FinishLeStart || String.eqb relationship FinishEqStart
  || String.eqb relationship StartLeStart.

(** [graph[k].add(v)] on a [defaultdict(set)] *)
Definition graph_add (k v : string) (g : gmap string (gset string))
    : gmap string (gset string) :=
  <[k := default ∅ (g !! k) ∪ {[v]}]> g.

(** [dependencies] and [dependents] of [schedule_tasks]. *)
Definition build_dependencies (dynamic_constraints : list constraint)
    : gmap string (gset string) :=
  fold_left (λ g c, if is_dependency (Relationship c)
                    then graph_add (Second c) (First c) g else g)
            dynamic_constraints ∅.

Definition build_dependents (dynamic_constraints : list constraint)
    : gmap string (gset string) :=
  fold_left (λ g c, if is_dependency (Relationship c)
                    then graph_add (First c) (Second c) g else g)
            dynamic_constraints ∅.

(** [g.get(k, set())] *)
Definition graph_get (k : string) (g : gmap string (gset string)) : gset string :=
  default ∅ (g !! k).

(** ** Working days and capacity *)

(** [is_working_day] *)
Definition is_working_day (s : scheduler) (date : Z) (product_line : string) : bool :=
  if 5 <=? weekday date then false
  else if bool_decide (date_of date ∈ default ∅ (holidays s !! product_line)) then false
  else true.

(** [self.team_capacity.get(team, 0) or self.quality_team_capacity.get(team, 0)] *)
Definition capacity_of (s : scheduler) (team : string) : Z :=
  let c := default 0 (dict_get team (team_capacity s)) in
  if c =? 0 then default 0 (dict_get team (quality_team_capacity s)) else c.

(** The headcount of [team] in use at minute [current]. *)
Definition usage_at (schedule : list (string * Sched.t)) (team : string) (current : Z) : Z :=
  fold_left
    (λ usage kv,
       let sched := snd kv in
       if String.eqb (Sched.team sched) team
          && (Sched.start_time sched <=? current) && (current <? Sched.end_time sched)
       then usage + Sched.mechanics_required sched else usage)
    schedule 0.

Fixpoint check_minutes (schedule : list (string * Sched.t)) (team : string)
    (capacity mechanics_needed : Z) (n : nat) (current : Z) : bool :=
  match n with
  | O => true
  | S n' =>
      if usage_at schedule team current + mechanics_needed >? capacity then false
      else check_minutes schedule team capacity mechanics_needed n' (current + 1)
  end.

(** [check_team_capacity_at_time]: the loop [while current < end_time]
    runs once per minute of the interval. *)
Definition check_team_capacity_at_time (s : scheduler) (team : string)
    (start_time end_time mechanics_needed : Z) : bool :=
  check_minutes (task_schedule s) team (capacity_of s team) mechanics_needed
    (Z.to_nat (end_time - start_time)) start_time.

(** The shift window that holds a minute of the day. *)
Definition in_shift (shift : string) (current_minutes : Z) : bool :=
  (String.eqb shift "1st" && (360 <=? current_minutes) && (current_minutes <? 870))
  || (String.eqb shift "2nd" && (870 <=? current_minutes) && (current_minutes <? 1380))
  || (String.eqb shift "3rd" && ((1380 <=? current_minutes) || (current_minutes <? 360))).

(** [any(t for t, shifts in self.quality_team_shifts.items() if shift in shifts)]:
    the truth value of a team name is that it is not empty. *)
Definition any_quality_team (s : scheduler) (shift : string) : bool :=
  existsb (λ ts, negb (String.eqb (fst ts) "") && existsb (String.eqb shift) (snd ts))
          (quality_team_shifts s).

(** The [for shift in ...] loops of [get_next_working_time_with_capacity]. *)
Fixpoint find_quality_shift (s : scheduler) (shifts : list string) (current_minutes : Z)
    : option string :=
  match shifts with
  | [] => None
  | shift :: rest =>
      if in_shift shift current_minutes && any_quality_team s shift then Some shift
      else find_quality_shift s rest current_minutes
  end.

Fixpoint find_team_shift (shifts : list string) (current_minutes : Z) : option string :=
  match shifts with
  | [] => None
  | shift :: rest =>
      if in_shift shift current_minutes then Some shift
      else find_team_shift rest current_minutes
  end.

Definition available_shift (s : scheduler) (team : string) (is_quality : bool)
    (current_minutes : Z) : option string :=
  if is_quality then find_quality_shift s ["1st"; "2nd"; "3rd"]%string current_minutes
  else find_team_shift (default [] (team_shifts s !! team)) current_minutes.

(** "Move to next available shift" *)
Definition next_shift_start (current_time : Z) : Z :=
  let current_minutes := minute_of_day current_time in
  if current_minutes <? 360 then replace_time current_time 6 0
  else if current_minutes <? 870 then replace_time current_time 14 30
  else if current_minutes <? 1380 then replace_time current_time 23 0
  else replace_time current_time 6 0 + 1440.

(** [get_next_working_time_with_capacity]; [fuel] is what is left of
    [max_iterations], and [None] is the [RuntimeError] raised when it is
    used up. *)
Fixpoint next_working_time (s : scheduler) (fuel : nat) (current_time : Z)
    (product_line team : string) (mechanics_needed duration : Z) (is_quality : bool)
    : option (Z * string) :=
  match fuel with
  | O => None
  | S fuel' =>
      if negb (is_working_day s current_time product_line) then
        next_working_time s fuel' (replace_time current_time 6 0 + 1440)
          product_line team mechanics_needed duration is_quality
      else
        match available_shift s team is_quality (minute_of_day current_time) with
        | Some shift =>
            let end_time := current_time + duration in
            if check_team_capacity_at_time s team current_time end_time mechanics_needed
            then Some (current_time, shift)
            else next_working_time s fuel' (current_time + 1)
                   product_line team mechanics_needed duration is_quality
        | None =>
            next_working_time s fuel' (next_shift_start current_time)
              product_line team mechanics_needed duration is_quality
        end
  end.

Definition get_next_working_time_with_capacity (s : scheduler) (current_time : Z)
    (product_line team : string) (mechanics_needed duration : Z) (is_quality : bool)
    : option (Z * string) :=
  next_working_time s 5000 current_time product_line team mechanics_needed duration
    is_quality.

(** The load of a team: [sum(sched['duration'] * sched['mechanics_required'] ...)] *)
Definition scheduled_minutes (schedule : list (string * Sched.t)) (team : string) : Z :=
  fold_left
    (λ acc kv, if String.eqb (Sched.team (snd kv)) team
               then acc + Sched.duration (snd kv) * Sched.mechanics_required (snd kv)
               else acc)
    schedule 0.

(** [min(team_loads.items(), key=lambda x: x[1])]: the first entry of
    least load. *)
Fixpoint min_load (best : string * Z) (rest : list (string * Z)) : string * Z :=
  match rest with
  | [] => best
  | x :: rest' => min_load (if snd x <? snd best then x else best) rest'
  end.

(** [assign_quality_team_balanced] *)
Definition assign_quality_team_balanced (s : scheduler) (shift : string)
    (mechanics_needed : Z) : option string :=
  let available_teams :=
    map fst (List.filter (λ ts, existsb (String.eqb shift) (snd ts))
                         (quality_team_shifts s)) in
  let team_loads :=
    map (λ team, (team, scheduled_minutes (task_schedule s) team))
        (List.filter
           (λ team, negb (default 0 (dict_get team (quality_team_capacity s))
                          <? mechanics_needed))
           available_teams) in
  match team_loads with
  | [] => None
  | x :: rest => Some (fst (min_load x rest))
  end.

(** ** Floats *)

Module PyFloat.

(** The float nearest to [m * 2^e], ties to even; [OverflowError] when it
    is beyond the largest float. *)
Definition nearest (m e : Z) : result float :=
  let f := SF2Prim (binary_normalize prec emax m e false) in
  if is_infinity f then Raise OverflowError else Ok f.

(** The conversion of an [int] that meets a [float] in an operation. *)
Definition of_int (n : Z) : result float := nearest n 0.

(** [a / b] for two [int]s: the exact quotient, rounded once.  The
    quotient is cut after at least 56 bits and a last bit records whether
    anything was cut off, which rounds as the exact quotient does. *)
Definition truediv (a b : Z) : result float :=
  if b =? 0 then Raise ZeroDivisionError
  else
    let sign := Z.sgn a * Z.sgn b in
    let a := Z.abs a in
    let b := Z.abs b in
    let k := Z.max 0 (57 + Z.log2 b - Z.log2 a) in
    let q := (a * 2 ^ k) / b in
    let sticky := if (a * 2 ^ k) mod b =? 0 then 0 else 1 in
    nearest (sign * (2 * q + sticky)) (- (k + 1)).

(** The literal [0.1]: the float nearest to one tenth. *)
Definition tenth : float := 0x1.999999999999ap-4%float.

End PyFloat.

(** ** Priority *)

(** [get_path_length] inside [calculate_critical_path_length].  The
    recursion follows successors that are tasks, and stores a length in
    the cache only after its successors returned: on a graph without a
    cycle it nests at most [size tasks] deep and the lengths it caches are
    the ones it would compute again, so the cache is left out; on a cycle
    it never returns and Python raises [RecursionError], which is what
    running out of [fuel] stands for. *)
Fixpoint get_path_length (s : scheduler) (dynamic_constraints : list constraint)
    (fuel : nat) (task : string) : result Z :=
  match fuel with
  | O => Raise RecursionError
  | S fuel' =>
      match tasks s !! task with
      | None => Raise (KeyError task)
      | Some info =>
          max_successor_path ←
            fold_left
              (λ acc c,
                 m ← acc;
                 if String.eqb (First c) task && in_tasks s (Second c) then
                   successor_path ← get_path_length s dynamic_constraints fuel' (Second c);
                   Ok (Z.max m successor_path)
                 else Ok m)
              dynamic_constraints (Ok 0);
          Ok (Task.duration info + max_successor_path)
      end
  end.

Definition calculate_critical_path_length (s : scheduler) (task_id : string) : result Z :=
  get_path_length s (build_dynamic_dependencies s) (S (size (tasks s))) task_id.

(** The truth value of a [str]. *)
Definition truthy (x : string) : option string :=
  if String.eqb x "" then None else Some x.

(** [product, _ = self.parse_product_task_id(task_id)] *)
Definition parsed_product (task_id : string) : option string :=
  match parse_product_task_id (PyString task_id) with
  | Some (product, _) => truthy product
  | None => None
  end.

(** [(delivery_date - datetime.now()).days]: [now] is the clock in
    microseconds, the resolution of [datetime]. *)
Definition days_to_delivery (delivery_date : Z) (now : Z) : Z :=
  (delivery_date * 60000000 - now) / 86400000000.

(** [calculate_task_priority].  The first three terms of the score are
    [int]s and their sum is exact; the fourth is a [float], so the sum is
    converted and the score is a [float].  The constant scores are
    [int]s, written here as the floats they compare equal to. *)
Definition calculate_task_priority (s : scheduler) (now : Z) (task_id : string)
    : result float :=
  if bool_decide (task_id ∈ late_part_tasks s) then Ok (-2000)%float
  else if bool_decide (is_Some (quality_inspections s !! task_id)) then Ok (-1000)%float
  else if bool_decide (task_id ∈ rework_tasks s) then Ok (-500)%float
  else
    let product_line :=
      match task_to_product s !! task_id with
      | Some p => truthy p
      | None =>
          match tasks s !! task_id with
          | Some info => truthy (Task.product_line info)
          | None => None
          end
      end in
    let product_line :=
      match product_line with Some p => Some p | None => parsed_product task_id end in
    match product_line with
    | None => Ok 999999%float
    | Some product_line =>
        match dict_get product_line (delivery_dates s) with
        | None => Ok 999999%float
        | Some delivery_date =>
            let days := days_to_delivery delivery_date now in
            critical_path_length ← calculate_critical_path_length s task_id;
            let dependent_count :=
              Z.of_nat (length (List.filter (λ c, String.eqb (First c) task_id)
                                            (build_dynamic_dependencies s))) in
            match tasks s !! task_id with
            | None => Raise (KeyError task_id)
            | Some info =>
                let duration := Task.duration info in
                tenth_of_duration ← PyFloat.truediv duration 10;
                whole ←
                  PyFloat.of_int
                    ((100 - days) * 10 + (10000 - critical_path_length) * 5
                     + (100 - dependent_count) * 3);
                Ok (whole + (100 - tenth_of_duration) * 2)%float
            end
        end
    end.

(** ** The heap of ready tasks *)

(** [a < b] for tuples [(priority, task_id)]: the first components that
    are not [==] decide. *)
Definition entry_ltb (a b : float * string) : bool :=
  if PrimFloat.eqb (fst a) (fst b) then String.ltb (snd a) (snd b)
  else PrimFloat.ltb (fst a) (fst b).

(** The least tuple of [x :: h], and the other tuples in their order. *)
Fixpoint pop_least (x : float * string) (h : list (float * string))
    : (float * string) * list (float * string) :=
  match h with
  | [] => (x, [])
  | y :: h' =>
      let '(least, rest) := pop_least y h' in
      if entry_ltb least x then (least, x :: rest) else (x, h)
  end.

(** [heapq.heappush] and [heapq.heappop].  A binary heap returns a least
    tuple, and tuples of different tasks are never equal, so what is
    popped depends only on what the heap holds: the model keeps the
    tuples in a list. *)
Definition heappush (h : list (float * string)) (x : float * string)
    : list (float * string) :=
  h ++ [x].

Definition heappop (h : list (float * string))
    : option ((float * string) * list (float * string)) :=
  match h with
  | [] => None
  | x :: h' => Some (pop_least x h')
  end.

(** ** The scheduling loop *)

Record loop_state : Type := mk_loop_state {
  schedule : list (string * Sched.t);
  ready_tasks : list (float * string);
  failed_tasks : gset string;
  task_retry_counts : gmap string nat;
  scheduled_count : nat;
}.

Inductive step_result : Type :=
| Continue (st : loop_state)
| Break (st : loop_state)
| Raised (e : exn).

(** [get_earliest_start_for_late_part] *)
Definition get_earliest_start_for_late_part (s : scheduler) (task_id : string) : Z :=
  match on_dock_dates s !! task_id with
  | None => start_date
  | Some on_dock_date => replace_time (on_dock_date + late_part_delay s) 6 0
  end.

(** The loop over [constraint in dynamic_constraints] that looks for a
    'Finish = Start' edge from [dep] to [task_id]. *)
Definition is_finish_equals_start (dynamic_constraints : list constraint)
    (dep task_id : string) : bool :=
  existsb (λ c, String.eqb (First c) dep && String.eqb (Second c) task_id
                && String.eqb (Relationship c) FinishEqStart)
          dynamic_constraints.

(** "Check dependency constraints": one pass over the dependencies of the
    task, in the order the set yields them. *)
Definition dependency_scan (schedule : list (string * Sched.t))
    (dynamic_constraints : list constraint) (task_id : string)
    (deps : list string) (earliest_start : Z) : Z :=
  fold_left
    (λ earliest dep,
       match dict_get dep schedule with
       | Some sched =>
           let dep_end := Sched.end_time sched in
           if is_finish_equals_start dynamic_constraints dep task_id then dep_end
           else Z.max earliest dep_end
       | None => earliest
       end)
    deps earliest_start.

Definition is_done (st : loop_state) (task_id : string) : bool :=
  dict_mem task_id (schedule st) || bool_decide (task_id ∈ failed_tasks st).

Section Engine.

(** The order in which a [set] of strings is iterated. *)
Variable set_order : gset string → list string.

(** The priority of a task, or the exception its computation raises. *)
Variable priority_of : string → result float.

Variable s : scheduler.

Let dynamic_constraints := build_dynamic_dependencies s.
Let dependencies := build_dependencies dynamic_constraints.
Let dependents := build_dependents dynamic_constraints.
Let total_tasks := size (tasks s).

(** [priority = self.calculate_task_priority(task); heapq.heappush(...)]
    for the tasks of [candidates] that are ready. *)
Definition push_ready (st : loop_state) (candidates : list string)
    (ready : string → bool) : result (list (float * string)) :=
  fold_left
    (λ acc task,
       h ← acc;
       if ready task then
         priority ← priority_of task;
         Ok (heappush h (priority, task))
       else Ok h)
    candidates (Ok (ready_tasks st)).

(** The tasks without dependencies, pushed before the loop. *)
Definition initial_state : result loop_state :=
  let st := mk_loop_state [] [] ∅ ∅ 0 in
  h ← push_ready st (set_order (dom (tasks s)))
       (λ task, bool_decide (graph_get task dependencies = ∅));
  Ok (mk_loop_state [] h ∅ ∅ 0).

(** "No ready tasks but tasks remain unscheduled" *)
Definition refill (st : loop_state) : result loop_state :=
  let unscheduled :=
    List.filter (λ t, negb (is_done st t)) (set_order (dom (tasks s))) in
  h ← push_ready st unscheduled
       (λ task, forallb (is_done st) (set_order (graph_get task dependencies)));
  Ok (mk_loop_state (schedule st) h (failed_tasks st) (task_retry_counts st)
        (scheduled_count st)).

(** A failed search: count it, then requeue the task with a penalty of
    0.1, or give the task up at the third failure. *)
Definition retry_or_fail (st : loop_state) (rest : list (float * string))
    (priority : float) (task_id : string) : loop_state :=
  let count := S (default O (task_retry_counts st !! task_id)) in
  let counts := <[task_id := count]> (task_retry_counts st) in
  if (count <? 3)%nat then
    mk_loop_state (schedule st) (heappush rest ((priority + PyFloat.tenth)%float, task_id))
      (failed_tasks st) counts (scheduled_count st)
  else
    mk_loop_state (schedule st) rest (failed_tasks st ∪ {[task_id]}) counts
      (scheduled_count st).

(** The loop over [try_shift] for a quality inspection: the team, start
    and shift chosen so far are [acc]. *)
Definition try_quality_shifts (sch : scheduler) (earliest_start : Z)
    (product_line : string) (mechanics_needed duration : Z)
    : option (Z * string * string) :=
  fold_left
    (λ acc try_shift,
       match assign_quality_team_balanced sch try_shift mechanics_needed with
       | Some temp_team =>
           if String.eqb temp_team "" then acc
           else
             match get_next_working_time_with_capacity sch earliest_start product_line
                     temp_team mechanics_needed duration true with
             | Some (temp_start, _) =>
                 match acc with
                 | Some (scheduled_start, _, _) =>
                     if temp_start <? scheduled_start
                     then Some (temp_start, temp_team, try_shift) else acc
                 | None => Some (temp_start, temp_team, try_shift)
                 end
             | None => acc
             end
       | None => acc
       end)
    ["1st"; "2nd"; "3rd"]%string None.

(** "Find next available working time with capacity": the start, team and
    shift of the task, or [None] when the search failed. *)
Definition find_slot (sch : scheduler) (info : Task.t) (earliest_start : Z)
    (product_line : string) : option (Z * string * string) :=
  if Task.is_quality info then
    try_quality_shifts sch earliest_start product_line
      (Task.mechanics_required info) (Task.duration info)
  else
    match get_next_working_time_with_capacity sch earliest_start product_line
            (Task.team info) (Task.mechanics_required info) (Task.duration info) false with
    | Some (scheduled_start, shift) => Some (scheduled_start, Task.team info, shift)
    | None => None
    end.

(** The earliest start of a popped task: the epoch, the on-dock date of a
    late part, then the dependencies. *)
Definition earliest_start_of (st : loop_state) (task_id : string) : Z :=
  let earliest_start := start_date in
  let earliest_start :=
    if bool_decide (task_id ∈ late_part_tasks s)
    then Z.max earliest_start (get_earliest_start_for_late_part s task_id)
    else earliest_start in
  dependency_scan (schedule st) dynamic_constraints task_id
    (set_order (graph_get task_id dependencies)) earliest_start.

(** One pass through the body of the [while] loop of [schedule_tasks].
    Silent mode changes what is printed; the [break] taken outside silent
    mode when nothing is newly ready is followed, in silent mode, by the
    [break] on the empty queue. *)
Definition step (st : loop_state) : step_result :=
  let refilled :=
    if bool_decide (ready_tasks st = [])
       && (scheduled_count st + size (failed_tasks st) <? total_tasks)%nat
    then refill st else Ok st in
  match refilled with
  | Raise e => Raised e
  | Ok st =>
      match heappop (ready_tasks st) with
      | None => Break st
      | Some ((priority, task_id), rest) =>
          if (3 <=? default O (task_retry_counts st !! task_id))%nat then
            Continue (mk_loop_state (schedule st) rest (failed_tasks st ∪ {[task_id]})
                        (task_retry_counts st) (scheduled_count st))
          else
            match tasks s !! task_id with
            | None => Raised (KeyError task_id)
            | Some info =>
                let product_line :=
                  match truthy (Task.product_line info) with
                  | Some p => Some p
                  | None => parsed_product task_id
                  end in
                match product_line with
                | None =>
                    Continue (mk_loop_state (schedule st) rest (failed_tasks st)
                                (task_retry_counts st) (scheduled_count st))
                | Some product_line =>
                    let earliest_start := earliest_start_of st task_id in
                    match find_slot (set_task_schedule (schedule st) s) info
                            earliest_start product_line with
                    | None => Continue (retry_or_fail st rest priority task_id)
                    | Some (scheduled_start, team, shift) =>
                        let scheduled_end := scheduled_start + Task.duration info in
                        let sched :=
                          Sched.mk scheduled_start scheduled_end team product_line
                            (Task.duration info) (Task.mechanics_required info)
                            (Task.is_quality info) (Task.task_type info) shift in
                        let st' :=
                          mk_loop_state (dict_set task_id sched (schedule st)) rest
                            (failed_tasks st) (task_retry_counts st)
                            (S (scheduled_count st)) in
                        match push_ready st' (set_order (graph_get task_id dependents))
                                (λ dependent,
                                   negb (is_done st' dependent)
                                   && forallb (is_done st')
                                        (set_order (graph_get dependent dependencies))) with
                        | Raise e => Raised e
                        | Ok h =>
                            Continue (mk_loop_state (schedule st') h (failed_tasks st')
                                        (task_retry_counts st') (scheduled_count st'))
                        end
                    end
                end
            end
      end
  end.

(** The [while] loop: [fuel] is what is left of [max_iterations]
    ([retry_count] stays 0, so [retry_count < max_retries] holds). *)
Fixpoint run_loop (fuel : nat) (st : loop_state) : result loop_state :=
  match fuel with
  | O => Ok st
  | S fuel' =>
      if negb (bool_decide (ready_tasks st = []))
         || (scheduled_count st <? total_tasks)%nat
      then
        match step st with
        | Continue st' => run_loop fuel' st'
        | Break st' => Ok st'
        | Raised e => Raise e
        end
      else Ok st
  end.

(** What [schedule_tasks] does after DAG validation. *)
Definition place_tasks : result loop_state :=
  st ← initial_state;
  run_loop (total_tasks * 10) st.

End Engine.

(** ** DAG validation *)

Section Validation.

Variable set_order : gset string → list string.

(** [has_cycle_dfs]: [None] is the answer [True] (a cycle was found),
    [Some visited] is [False] with the nodes visited so far.  The set
    [rec_stack] is passed down instead of being undone on return.  Every
    nested call visits a node not visited before, so the recursion nests at
    most as deep as there are nodes in the constraints; [fuel] is one more
    than that. *)
Fixpoint has_cycle_dfs (graph : gmap string (gset string)) (fuel : nat)
    (node : string) (visited rec_stack : gset string) : option (gset string) :=
  match fuel with
  | O => None
  | S fuel' =>
      let visited := visited ∪ {[node]} in
      let rec_stack := rec_stack ∪ {[node]} in
      fold_left
        (λ acc neighbor,
           match acc with
           | None => None
           | Some visited =>
               if negb (bool_decide (neighbor ∈ visited)) then
                 has_cycle_dfs graph fuel' neighbor visited rec_stack
               else if bool_decide (neighbor ∈ rec_stack) then None
               else Some visited
           end)
        (set_order (graph_get node graph)) (Some visited)
  end.

(** The adjacency sets of [validate_dag]: every constraint is an edge,
    whatever its relationship. *)
Definition validation_graph (dynamic_constraints : list constraint)
    : gmap string (gset string) :=
  fold_left (λ g c, graph_add (First c) (Second c) g) dynamic_constraints ∅.

Definition all_tasks_in_constraints (dynamic_constraints : list constraint)
    : gset string :=
  fold_left (λ acc c, acc ∪ {[First c]} ∪ {[Second c]}) dynamic_constraints ∅.

(** [validate_dag]: [False] when a constraint names a task that does not
    exist or when the depth-first search finds a cycle.  The checks that
    only print (orphans, unreachable tasks, the summary) are left out. *)
Definition validate_dag (s : scheduler) : bool :=
  let dynamic_constraints := build_dynamic_dependencies s in
  let graph := validation_graph dynamic_constraints in
  let nodes := all_tasks_in_constraints dynamic_constraints in
  if negb (bool_decide (nodes ∖ dom (tasks s) = ∅)) then false
  else
    match
      fold_left
        (λ acc node,
           match acc with
           | None => None
           | Some visited =>
               if negb (bool_decide (node ∈ visited))
               then has_cycle_dfs graph (S (size nodes)) node visited ∅
               else Some visited
           end)
        (set_order nodes) (Some ∅)
    with
    | None => false
    | Some _ => true
    end.

(** ** [schedule_tasks] *)

(** The report printed outside silent mode divides by
    [len(self.product_tasks[product])] for the product parsed from each
    scheduled identifier. *)
Definition report (s : scheduler) (schedule : list (string * Sched.t)) : result unit :=
  if existsb
       (λ kv, match parsed_product (fst kv) with
              | Some product =>
                  (length (default [] (dict_get product (product_tasks s))) =? 0)%nat
              | None => false
              end)
       schedule
  then Raise ZeroDivisionError
  else Ok tt.

(** [schedule_tasks]: the object after the call, or the exception that
    leaves it.  (When an exception is raised the part of the schedule
    built so far is dropped: every caller that goes on after an exception
    clears the schedule before it reads it.) *)
Definition schedule_tasks (s : scheduler) (now : Z) (silent_mode : bool)
    : result scheduler :=
  let s := set_task_schedule [] s in
  if negb silent_mode && negb (validate_dag s) then Raise DagValidationFailed
  else
    st ← place_tasks set_order (calculate_task_priority s now) s;
    _ ← (if silent_mode then Ok tt else report s (schedule st));
    Ok (set_task_schedule (schedule st) s).

(** ** Slack *)

(** The [while stack] loop of [calculate_slack_time]: each pass pops one
    task and pushes the successors not seen before, so there are at most
    as many passes as constraints, plus one. *)
Fixpoint all_successors (dynamic_constraints : list constraint) (fuel : nat)
    (stack : list string) (seen : gset string) : gset string :=
  match fuel with
  | O => seen
  | S fuel' =>
      match stack with
      | [] => seen
      | current :: stack =>
          let '(stack, seen) :=
            fold_left
              (λ '(stack, seen) c,
                 if String.eqb (First c) current
                    && negb (bool_decide (Second c ∈ seen))
                 then (Second c :: stack, seen ∪ {[Second c]})
                 else (stack, seen))
              dynamic_constraints (stack, seen) in
          all_successors dynamic_constraints fuel' stack seen
      end
  end.

(** The product line of [calculate_slack_time]. *)
Definition slack_product_line (s : scheduler) (task_id : string) : option string :=
  let product_line :=
    match task_to_product s !! task_id with
    | Some p => truthy p
    | None =>
        match tasks s !! task_id with
        | Some info => truthy (Task.product_line info)
        | None =>
            match quality_inspections s !! task_id with
            | Some (primary_task, _) =>
                match task_to_product s !! primary_task with
                | Some p => truthy p
                | None =>
                    match tasks s !! primary_task with
                    | Some info => truthy (Task.product_line info)
                    | None => None
                    end
                end
            | None => None
            end
        end
    end in
  match product_line with
  | Some p => Some p
  | None => parsed_product task_id
  end.

(** [calculate_slack_time].  [buffer_days] is the successors' minutes
    divided by 480, so [timedelta(days=buffer_days + 2)] is three minutes
    per successor minute plus two days. *)
Definition calculate_slack_time (s : scheduler) (task_id : string) : slack :=
  match slack_product_line s task_id with
  | None => SlackInf
  | Some product_line =>
      match dict_get product_line (delivery_dates s) with
      | None => SlackInf
      | Some delivery_date =>
          let latest_finish := delivery_date in
          let dynamic_constraints := build_dynamic_dependencies s in
          let successors :=
            all_successors dynamic_constraints (S (length dynamic_constraints))
              [task_id] ∅ in
          let total_successor_duration :=
            fold_left
              (λ acc succ, match tasks s !! succ with
                           | Some info => acc + Task.duration info
                           | None => acc
                           end)
              (set_order successors) 0 in
          let latest_start := latest_finish - (total_successor_duration * 3 + 2 * 1440) in
          match dict_get task_id (task_schedule s) with
          | Some sched => SlackMinutes (latest_start - Sched.start_time sched)
          | None => SlackMinutes 0
          end
      end
  end.

(** ** The global priority list *)

Definition slack_leb (a b : slack) : bool :=
  match a, b with
  | _, SlackInf => true
  | SlackInf, SlackMinutes _ => false
  | SlackMinutes x, SlackMinutes y => x <=? y
  end.

Definition slack_eqb (a b : slack) : bool := slack_leb a b && slack_leb b a.

(** The order of the keys [(x['scheduled_start'], x['slack_hours'])]. *)
Definition key_leb (a b : Entry.t) : bool :=
  (Entry.scheduled_start a <? Entry.scheduled_start b)
  || ((Entry.scheduled_start a =? Entry.scheduled_start b)
      && slack_leb (Entry.slack_hours a) (Entry.slack_hours b)).

(** [list.sort] is stable: an entry goes before the first entry of the
    sorted rest that is not strictly below it. *)
Fixpoint insert_entry (x : Entry.t) (l : list Entry.t) : list Entry.t :=
  match l with
  | [] => [x]
  | y :: l' => if key_leb x y then x :: l else y :: insert_entry x l'
  end.

Definition sort_entries (l : list Entry.t) : list Entry.t :=
  fold_right insert_entry [] l.

(** [f"... {task_num if task_num else task_id}"] *)
Definition num_or_id (task_num : option Z) (task_id : string) : string :=
  match task_num with
  | Some n => if n =? 0 then task_id else PyStr.str_of_int n
  | None => task_id
  end.

Definition display_name_of (s : scheduler) (task_id : string) (task_type : task_type)
    (task_num : option Z) : string :=
  match task_type with
  | QualityInspection =>
      let primary_task :=
        match quality_inspections s !! task_id with
        | Some (primary_task, _) => primary_task
        | None => task_id
        end in
      let primary_num := option_map snd (parse_product_task_id (PyString primary_task)) in
      "QI for Task " +:+ num_or_id primary_num task_id
  | LatePart => "Late Part " +:+ num_or_id task_num task_id
  | Rework => "Rework " +:+ num_or_id task_num task_id
  | Production => "Task " +:+ num_or_id task_num task_id
  end.

Fixpoint assign_ranks (i : nat) (l : list Entry.t) : list Entry.t :=
  match l with
  | [] => []
  | x :: l' =>
      Entry.mk (Entry.task_id x) (Entry.task_num x) (Entry.task_type x)
        (Entry.display_name x) (Entry.product_line x) (Entry.team x)
        (Entry.scheduled_start x) (Entry.scheduled_end x) (Entry.duration_minutes x)
        (Entry.mechanics_required x) (Entry.slack_hours x) (Entry.priority_score x)
        (Entry.shift x) i
      :: assign_ranks (S i) l'
  end.

(** The entry of one scheduled task, before it is ranked. *)
Definition priority_entry (s : scheduler) (now : Z) (kv : string * Sched.t)
    : result Entry.t :=
  let '(task_id, sched) := kv in
  let slack := calculate_slack_time s task_id in
  let task_num := option_map snd (parse_product_task_id (PyString task_id)) in
  priority_score ← calculate_task_priority s now task_id;
  Ok (Entry.mk task_id task_num (Sched.task_type sched)
        (display_name_of s task_id (Sched.task_type sched) task_num)
        (Sched.product_line sched) (Sched.team sched) (Sched.start_time sched)
        (Sched.end_time sched) (Sched.duration sched) (Sched.mechanics_required sched)
        slack priority_score (Sched.shift sched) 0).

(** [generate_global_priority_list]: the object after the call (the list
    it returns is its [global_priority_list]).  [check_resource_conflicts]
    only feeds a warning and is left out. *)
Definition generate_global_priority_list (s : scheduler) (now : Z) (silent_mode : bool)
    : result scheduler :=
  s ← schedule_tasks s now silent_mode;
  priority_data ←
    fold_left
      (λ acc kv, l ← acc; e ← priority_entry s now kv; Ok (l ++ [e]))
      (task_schedule s) (Ok []);
  Ok (set_global_priority_list (assign_ranks 1 (sort_entries priority_data)) s).

End Validation.

(** ** Metrics *)

(** The loop of [calculate_makespan] over the days from [current] on:
    a day counts when it is a working day of some product of
    [self.product_tasks]. *)
Fixpoint count_working_days (s : scheduler) (n : nat) (current : Z) : Z :=
  match n with
  | O => 0
  | S n' =>
      (if existsb (λ product, is_working_day s (current * 1440) product)
                  (dict_keys (product_tasks s))
       then 1 else 0)
      + count_working_days s n' (current + 1)
  end.

Definition min_start (schedule : list (string * Sched.t)) : Z :=
  match schedule with
  | [] => 0
  | kv :: rest =>
      fold_left (λ m kv, Z.min m (Sched.start_time (snd kv))) rest
        (Sched.start_time (snd kv))
  end.

Definition max_end (schedule : list (string * Sched.t)) : Z :=
  match schedule with
  | [] => 0
  | kv :: rest =>
      fold_left (λ m kv, Z.max m (Sched.end_time (snd kv))) rest
        (Sched.end_time (snd kv))
  end.

(** [calculate_makespan] *)
Definition calculate_makespan (s : scheduler) : Z :=
  match task_schedule s with
  | [] => 0
  | _ =>
      let scheduled_count := length (task_schedule s) in
      let total_tasks := size (tasks s) in
      if (scheduled_count <? total_tasks)%nat then 999999
      else
        let current := date_of (min_start (task_schedule s)) in
        let end_date := date_of (max_end (task_schedule s)) in
        count_working_days s (Z.to_nat (end_date - current + 1)) current
  end.

(** An entry of the result of [calculate_lateness_metrics]. *)
Record metric : Type := mk_metric {
  delivery_date : Z;
  projected_completion : option Z;
  lateness_days : Z;
  on_time : bool;
  total_tasks : nat;
}.

(** [calculate_lateness_metrics]: [.days] of a difference is its floor in
    days. *)
Definition calculate_lateness_metrics (s : scheduler) : list (string * metric) :=
  map
    (λ '(product, delivery_date),
       let product_tasks :=
         List.filter (λ t, String.eqb (Entry.product_line t) product)
                     (global_priority_list s) in
       match product_tasks with
       | [] => (product, mk_metric delivery_date None 999999 false 0)
       | t :: rest =>
           let last_task_end :=
             fold_left (λ m t, Z.max m (Entry.scheduled_end t)) rest
                       (Entry.scheduled_end t) in
           let lateness_days := (last_task_end - delivery_date) / 1440 in
           (product, mk_metric delivery_date (Some last_task_end) lateness_days
                       (lateness_days <=? 0) (length product_tasks))
       end)
    (delivery_dates s).

(** * Optimizers *)

(** A Python [float] that is the ratio of two integers, the second one
    positive: utilizations, [tolerance * 1.5], [best_total_lateness * 1.1].
    Comparisons are exact. *)
Module Ratio.
Record t : Type := mk { num : Z; den : Z }.
Definition of_int (z : Z) : t := mk z 1.
Definition ltb (a b : t) : bool := num a * den b <? num b * den a.
Definition leb (a b : t) : bool := num a * den b <=? num b * den a.
End Ratio.

(** Comparisons with a bound that starts as [float('inf')] ([None]). *)
Definition lt_inf (x : Z) (bound : option Z) : bool :=
  match bound with
  | None => true
  | Some b => x <? b
  end.

Definition le_inf (x : Z) (bound : option Z) : bool :=
  match bound with
  | None => true
  | Some b => x <=? b
  end.

Definition eq_inf (x : Z) (bound : option Z) : bool :=
  match bound with
  | None => false
  | Some b => x =? b
  end.

(** [{'mechanic': {...}, 'quality': {...}}] *)
Record config : Type := mk_config {
  mechanic : list (string * Z);
  quality : list (string * Z);
}.

Inductive team_kind : Type := Mechanic | Quality.

(** The two loops that copy a configuration into [self.team_capacity] and
    [self.quality_team_capacity]. *)
Definition write_capacities (mechanic quality : list (string * Z)) (s : scheduler)
    : scheduler :=
  let s :=
    fold_left
      (λ s kv, set_team_capacity (dict_set (fst kv) (snd kv) (team_capacity s)) s)
      mechanic s in
  fold_left
    (λ s kv,
       set_quality_team_capacity (dict_set (fst kv) (snd kv) (quality_team_capacity s)) s)
    quality s.

(** [{team: level for team in original}] *)
Definition uniform (level : Z) (original : list (string * Z)) : list (string * Z) :=
  map (λ kv, (fst kv, level)) original.

(** [sum(cfg.values())] *)
Definition sum_values (cfg : list (string * Z)) : Z :=
  fold_left (λ acc kv, acc + snd kv) cfg 0.

(** [min(cfg.values())] *)
Definition min_value (cfg : list (string * Z)) : result Z :=
  match cfg with
  | [] => Raise EmptySequence
  | kv :: rest => Ok (fold_left (λ m kv, Z.min m (snd kv)) rest (snd kv))
  end.

(** [cfg[team] -= 1] *)
Definition decrease (team : string) (cfg : list (string * Z)) : result (list (string * Z)) :=
  match dict_get team cfg with
  | None => Raise (KeyError team)
  | Some capacity => Ok (dict_set team (capacity - 1) cfg)
  end.

(** [for team in teams: if cfg[team] < limit: cfg[team] += 1;
    capacity_increased = True] -- the configuration and the flag when the
    loop ends, and the exception that ended it, if any. *)
Fixpoint increase_all (teams : list string) (limit : Z) (cfg : list (string * Z))
    (capacity_increased : bool) : list (string * Z) * bool * option exn :=
  match teams with
  | [] => (cfg, capacity_increased, None)
  | team :: rest =>
      match dict_get team cfg with
      | None => (cfg, capacity_increased, Some (KeyError team))
      | Some capacity =>
          if capacity <? limit
          then increase_all rest limit (dict_set team (capacity + 1) cfg) true
          else increase_all rest limit cfg capacity_increased
      end
  end.

(** [for team in teams: if cfg[team] < limit: cfg[team] += step; break] --
    [None] when no team was increased. *)
Fixpoint increase_first (teams : list string) (limit step : Z) (cfg : list (string * Z))
    : result (option (list (string * Z))) :=
  match teams with
  | [] => Ok None
  | team :: rest =>
      match dict_get team cfg with
      | None => Raise (KeyError team)
      | Some capacity =>
          if capacity <? limit then Ok (Some (dict_set team (capacity + step) cfg))
          else increase_first rest limit step cfg
      end
  end.

(** [for team, cap in cfg.items(): if cap == least and cap < limit:
    cfg[team] += 1; break] -- [None] when no team was increased; a limit
    of [None] is no limit. *)
Fixpoint increase_least (least : Z) (limit : option Z) (cfg : list (string * Z))
    : option (list (string * Z)) :=
  match cfg with
  | [] => None
  | (team, cap) :: rest =>
      if (cap =? least) && lt_inf cap limit then Some ((team, cap + 1) :: rest)
      else option_map (cons (team, cap)) (increase_least least limit rest)
  end.

(** The handler of the two optimization loops: [min()] of the mechanic
    configuration, then the first team at that level gets one more. *)
Definition increase_minimum (limit : option Z) (cfg : list (string * Z))
    : result (list (string * Z)) :=
  min_mech ← min_value cfg;
  Ok (default cfg (increase_least min_mech limit cfg)).

(** [max((d['lateness_days'] for d in metrics.values() if d['lateness_days']
    < 999999), default=0)] and the matching sum of [max(0, lateness)]. *)
Definition finite_lateness (metrics : list (string * metric)) : list Z :=
  List.filter (λ l, l <? 999999) (map (λ kv, lateness_days (snd kv)) metrics).

Definition max_lateness_of (metrics : list (string * metric)) : Z :=
  match finite_lateness metrics with
  | [] => 0
  | l :: rest => fold_left Z.max rest l
  end.

Definition total_lateness_of (metrics : list (string * metric)) : Z :=
  fold_left (λ acc l, acc + Z.max 0 l) (finite_lateness metrics) 0.

(** [_identify_blocking_teams]: the sets ['mechanic'] and ['quality']. *)
Definition _identify_blocking_teams (s : scheduler) (unscheduled_tasks : list string)
    : gset string * gset string :=
  fold_left
    (λ blocking task_id,
       match tasks s !! task_id with
       | Some task_info =>
           if Task.is_quality task_info
           then (fst blocking,
                 snd blocking ∪ list_to_set (dict_keys (quality_team_capacity s)))
           else (fst blocking ∪ {[Task.team task_info]}, snd blocking)
       | None => blocking
       end)
    unscheduled_tasks (∅, ∅).

(** The largest headcount of [team] in use at the start of one of its
    tasks ([peak_concurrent], [max_concurrent]). *)
Definition max_concurrent_of (schedule : list (string * Sched.t)) (team : string) : Z :=
  fold_left
    (λ m kv,
       if String.eqb (Sched.team (snd kv)) team
       then Z.max m (usage_at schedule team (Sched.start_time (snd kv)))
       else m)
    schedule 0.

(** [_identify_bottleneck_teams]: a team of the schedule whose peak is at
    least [capacity * 0.9].  (The source first collects the peak of every
    team and then walks the teams; the sets are the same when the test is
    made at every task of the team.) *)
Definition _identify_bottleneck_teams (s : scheduler) : gset string * gset string :=
  fold_left
    (λ bottlenecks kv,
       let team := Sched.team (snd kv) in
       let peak_concurrent := max_concurrent_of (task_schedule s) team in
       if 9 * capacity_of s team <=? 10 * peak_concurrent
       then if dict_mem team (team_capacity s)
            then (fst bottlenecks ∪ {[team]}, snd bottlenecks)
            else (fst bottlenecks, snd bottlenecks ∪ {[team]})
       else bottlenecks)
    (task_schedule s) (∅, ∅).

(** An entry of the result of [_calculate_team_utilization]. *)
Record utilization : Type := mk_utilization {
  utilization_ratio : Ratio.t;
  max_concurrent : Z;
}.

Definition team_utilization (s : scheduler) (total_days : Z) (team : string)
    (capacity : Z) (shifts_per_day : nat) : utilization :=
  let scheduled := scheduled_minutes (task_schedule s) team in
  let available_minutes := capacity * Z.of_nat shifts_per_day * 510 * total_days in
  mk_utilization
    (if 0 <? available_minutes then Ratio.mk scheduled available_minutes
     else Ratio.of_int 0)
    (max_concurrent_of (task_schedule s) team).

(** [_calculate_team_utilization]: the dictionaries ['mechanic'] and
    ['quality']. *)
Definition _calculate_team_utilization (s : scheduler)
    : list (string * utilization) * list (string * utilization) :=
  let total_days := calculate_makespan s in
  (map (λ kv, (fst kv,
               team_utilization s total_days (fst kv) (snd kv)
                 (length (default [] (team_shifts s !! fst kv)))))
       (team_capacity s),
   map (λ kv, (fst kv,
               team_utilization s total_days (fst kv) (snd kv)
                 (length (default [] (dict_get (fst kv) (quality_team_shifts s))))))
       (quality_team_capacity s)).

(** [sorted(items, key=lambda x: x[1]['utilization'])]: a stable sort. *)
Fixpoint insert_by_utilization (x : string * utilization)
    (l : list (string * utilization)) : list (string * utilization) :=
  match l with
  | [] => [x]
  | y :: l' =>
      if Ratio.ltb (utilization_ratio (snd x)) (utilization_ratio (snd y))
      then x :: y :: l'
      else y :: insert_by_utilization x l'
  end.

Definition sorted_by_utilization (l : list (string * utilization))
    : list (string * utilization) :=
  fold_left (λ acc x, insert_by_utilization x acc) l [].

(** The first entry of largest [weight]: the head of a stable sort in
    descending order, and [max(items, key=...)]. *)
Definition first_largest {A : Type} (weight : A → Z) (l : list A) : option A :=
  match l with
  | [] => None
  | x :: rest =>
      Some (fold_left (λ best y, if weight best <? weight y then y else best) rest x)
  end.

(** [team_usage[task['team']] += task['duration_minutes']] over the tasks
    of a product. *)
Definition team_usage (product_tasks : list Entry.t) : list (string * Z) :=
  fold_left
    (λ usage t,
       dict_set (Entry.team t)
         (default 0 (dict_get (Entry.team t) usage) + Entry.duration_minutes t) usage)
    product_tasks [].

(** The local variables of the optimization loop of
    [scenario_2_just_in_time_optimization]. *)
Module JustInTime.
Record locals : Type := mk {
  current_config : config;
  best_config : option config;
  best_total_workforce : option Z;
  best_deviation : option Z;
  improved : bool;
  no_improvement_count : nat;
}.

Definition set_current (c : config) (l : locals) : locals :=
  mk c (best_config l) (best_total_workforce l) (best_deviation l) (improved l)
     (no_improvement_count l).

Definition set_improved (b : bool) (l : locals) : locals :=
  mk (current_config l) (best_config l) (best_total_workforce l) (best_deviation l) b
     (no_improvement_count l).

Definition set_best (total_workforce max_deviation : Z) (l : locals) : locals :=
  mk (current_config l) (Some (current_config l)) (Some total_workforce)
     (Some max_deviation) true (no_improvement_count l).

Definition set_no_improvement_count (n : nat) (l : locals) : locals :=
  mk (current_config l) (best_config l) (best_total_workforce l) (best_deviation l)
     (improved l) n.

(** The dictionary the optimizer returns. *)
Record outcome : Type := mk_outcome {
  config_of : config;
  total_workforce : Z;
  makespan : Z;
  max_deviation : option Z;
}.
End JustInTime.

(** The local variables of the first phase of
    [scenario_3_multidimensional_optimization]. *)
Module MinimumLateness.
Record locals : Type := mk {
  current_mech_config : list (string * Z);
  current_qual_config : list (string * Z);
  best_config : option config;
  best_total_workforce : option Z;
  best_max_lateness : option Z;
  best_total_lateness : option Z;
  iterations_without_improvement : nat;
  previous_max_lateness : option Z;
  previous_total_lateness : option Z;
  phase1_complete : bool;
}.

Definition set_mech (c : list (string * Z)) (l : locals) : locals :=
  mk c (current_qual_config l) (best_config l) (best_total_workforce l)
     (best_max_lateness l) (best_total_lateness l) (iterations_without_improvement l)
     (previous_max_lateness l) (previous_total_lateness l) (phase1_complete l).

Definition set_qual (c : list (string * Z)) (l : locals) : locals :=
  mk (current_mech_config l) c (best_config l) (best_total_workforce l)
     (best_max_lateness l) (best_total_lateness l) (iterations_without_improvement l)
     (previous_max_lateness l) (previous_total_lateness l) (phase1_complete l).

Definition set_complete (l : locals) : locals :=
  mk (current_mech_config l) (current_qual_config l) (best_config l)
     (best_total_workforce l) (best_max_lateness l) (best_total_lateness l)
     (iterations_without_improvement l) (previous_max_lateness l)
     (previous_total_lateness l) true.

Definition set_previous_max (max_lateness : Z) (l : locals) : locals :=
  mk (current_mech_config l) (current_qual_config l) (best_config l)
     (best_total_workforce l) (best_max_lateness l) (best_total_lateness l)
     (iterations_without_improvement l) (Some max_lateness)
     (previous_total_lateness l) (phase1_complete l).

Definition set_previous_total (total_lateness : Z) (l : locals) : locals :=
  mk (current_mech_config l) (current_qual_config l) (best_config l)
     (best_total_workforce l) (best_max_lateness l) (best_total_lateness l)
     (iterations_without_improvement l) (previous_max_lateness l)
     (Some total_lateness) (phase1_complete l).

Definition set_best (max_lateness total_lateness total_workforce : Z) (l : locals)
    : locals :=
  mk (current_mech_config l) (current_qual_config l)
     (Some (mk_config (current_mech_config l) (current_qual_config l)))
     (Some total_workforce) (Some max_lateness) (Some total_lateness) 0
     (previous_max_lateness l) (previous_total_lateness l)
     (if max_lateness =? 0 then true else phase1_complete l).

Definition count_no_improvement (l : locals) : locals :=
  mk (current_mech_config l) (current_qual_config l) (best_config l)
     (best_total_workforce l) (best_max_lateness l) (best_total_lateness l)
     (S (iterations_without_improvement l))
     (previous_max_lateness l) (previous_total_lateness l) (phase1_complete l).

(** The dictionary the optimizer returns. *)
Record outcome : Type := mk_outcome {
  config_of : config;
  total_workforce : Z;
  makespan : Z;
  max_lateness : Z;
  total_lateness : Z;
}.
End MinimumLateness.

(** The dictionary [scenario_1_csv_headcount] returns. *)
Record csv_outcome : Type := mk_csv_outcome {
  csv_makespan : Z;
  total_late_days : Z;
  team_capacities : list (string * Z);
  quality_capacities : list (string * Z);
}.

(** The end of the printed summary of scenarios 2 and 3: the new total, or
    the division by an original total of zero.  (The look-ups
    [original_team[team]] of the summary are left out: a best
    configuration has the teams of the original tables.) *)
Definition workforce_summary (original_team original_quality : list (string * Z))
    (best : config) : result Z :=
  let original_total := sum_values original_team + sum_values original_quality in
  let new_total := sum_values (mechanic best) + sum_values (quality best) in
  if (new_total <? original_total) || (original_total <? new_total)
  then if original_total =? 0 then Raise ZeroDivisionError else Ok new_total
  else Ok new_total.

Section Optimizers.

Variable set_order : gset string → list string.

(** The clock is read once: all the runs of one optimizer see the same
    [datetime.now()]. *)
Variable now : Z.

(** A call of an optimizer or of one of its helpers ends with a value or
    an exception, and with the object as it then is.  The files written by
    [export_results] stay outside. *)

(** [self.task_schedule = {}; self._critical_path_cache = {};
    self.generate_global_priority_list(allow_late_delivery=True,
    silent_mode=...)] *)
Definition run_schedule (s : scheduler) (silent_mode : bool) : result unit * scheduler :=
  let s := set_task_schedule [] s in
  match generate_global_priority_list set_order s now silent_mode with
  | Ok s' => (Ok tt, s')
  | Raise e => (Raise e, s)
  end.

(** [len(self.task_schedule) < len(self.tasks)] *)
Definition unscheduled (s : scheduler) : bool :=
  (length (task_schedule s) <? size (tasks s))%nat.

(** [scenario_1_csv_headcount] *)
Definition scenario_1_csv_headcount (s : scheduler) : result csv_outcome * scheduler :=
  match run_schedule s false with
  | (Raise e, s) => (Raise e, s)
  | (Ok _, s) =>
      let makespan := calculate_makespan s in
      let metrics := calculate_lateness_metrics s in
      let total_late_days :=
        fold_left
          (λ acc kv,
             let l := lateness_days (snd kv) in
             if (0 <? l) && (l <? 999999) then acc + l else acc)
          metrics 0 in
      (Ok (mk_csv_outcome makespan total_late_days (team_capacity s)
             (quality_team_capacity s)), s)
  end.

(** [_test_configuration_with_target] *)
Definition _test_configuration_with_target (s : scheduler) (cfg : config)
    (target_lateness : Z) (tolerance : Ratio.t) : bool * scheduler :=
  let s := write_capacities (mechanic cfg) (quality cfg) s in
  match run_schedule s true with
  | (Raise _, s) => (false, s)
  | (Ok _, s) =>
      if unscheduled s then (false, s)
      else
        (forallb
           (λ kv,
              let lateness := lateness_days (snd kv) in
              negb (999999 <=? lateness)
              && negb (Ratio.ltb tolerance
                         (Ratio.of_int (Z.abs (lateness - target_lateness)))))
           (calculate_lateness_metrics s), s)
  end.

(** [_test_configuration_with_lateness_target]; a target of [None] is
    [float('inf')]. *)
Definition _test_configuration_with_lateness_target (s : scheduler) (cfg : config)
    (target_max_lateness : option Z) (target_total_lateness : option Ratio.t)
    : bool * scheduler :=
  let s := write_capacities (mechanic cfg) (quality cfg) s in
  match run_schedule s true with
  | (Raise _, s) => (false, s)
  | (Ok _, s) =>
      if unscheduled s then (false, s)
      else
        let metrics := calculate_lateness_metrics s in
        (le_inf (max_lateness_of metrics) target_max_lateness
         && match target_total_lateness with
            | None => true
            | Some t => Ratio.leb (Ratio.of_int (total_lateness_of metrics)) t
            end, s)
  end.

(** ** Scenario 2 *)

Section JustInTimeOptimization.

Variables min_mechanics max_mechanics min_quality max_quality : Z.
Variables target_lateness tolerance max_iterations : Z.

(** Phase 1, [while uniform_level <= max_mechanics and not
    phase1_complete]: [best_config], [current_config] and the object when
    the loop ends. *)
Fixpoint uniform_search (fuel : nat) (uniform_level : Z) (current_config : config)
    (s : scheduler) : option config * config * scheduler :=
  match fuel with
  | O => (None, current_config, s)
  | S fuel' =>
      if max_mechanics <? uniform_level then (None, current_config, s)
      else
        let current_config :=
          mk_config (uniform uniform_level (mechanic current_config))
            (uniform (Z.min (uniform_level / 5 + 1) max_quality)
               (quality current_config)) in
        match _test_configuration_with_target s current_config target_lateness
                (Ratio.of_int tolerance) with
        | (true, s) => (Some current_config, current_config, s)
        | (false, s) => uniform_search fuel' (uniform_level + 1) current_config s
        end
  end.

(** The loop over [metrics.items()] that computes [max_deviation] and
    [within_tolerance]. *)
Fixpoint deviation_scan (metrics : list (string * metric)) (max_deviation : Z)
    (within_tolerance : bool) : Z * bool :=
  match metrics with
  | [] => (max_deviation, within_tolerance)
  | kv :: rest =>
      let lateness := lateness_days (snd kv) in
      if 999999 <=? lateness then (999999, false)
      else
        let deviation := Z.abs (lateness - target_lateness) in
        deviation_scan rest (Z.max max_deviation deviation)
          (if tolerance <? deviation then false else within_tolerance)
  end.

(** One of the two loops that look for the least utilized team above its
    minimum: [min_util] and [(min_team, min_type)]. *)
Fixpoint least_utilized (kind : team_kind) (cfg : list (string * Z)) (least : Z)
    (entries : list (string * utilization))
    (acc : Ratio.t * option (string * team_kind))
    : result (Ratio.t * option (string * team_kind)) :=
  match entries with
  | [] => Ok acc
  | (team, util) :: rest =>
      if Ratio.ltb (utilization_ratio util) (fst acc)
      then
        match dict_get team cfg with
        | None => Raise (KeyError team)
        | Some capacity =>
            if least <? capacity
            then least_utilized kind cfg least rest
                   (utilization_ratio util, Some (team, kind))
            else least_utilized kind cfg least rest acc
        end
      else least_utilized kind cfg least rest acc
  end.

(** [test_config[min_type][min_team] -= 1] on a copy. *)
Definition decreased (kind : team_kind) (team : string) (cfg : config) : result config :=
  match kind with
  | Mechanic => mech ← decrease team (mechanic cfg); Ok (mk_config mech (quality cfg))
  | Quality => qual ← decrease team (quality cfg); Ok (mk_config (mechanic cfg) qual)
  end.

(** The branch [if within_tolerance] of the loop body. *)
Definition reduce_workforce (l : JustInTime.locals) (s : scheduler)
    (total_workforce max_deviation : Z) : JustInTime.locals * scheduler * option exn :=
  let l :=
    if lt_inf total_workforce (JustInTime.best_total_workforce l)
       || lt_inf max_deviation (JustInTime.best_deviation l)
    then JustInTime.set_best total_workforce max_deviation l
    else l in
  let current_config := JustInTime.current_config l in
  let utilization := _calculate_team_utilization s in
  match
    acc ← least_utilized Mechanic (mechanic current_config) min_mechanics
            (fst utilization) (Ratio.of_int 100, None);
    least_utilized Quality (quality current_config) min_quality (snd utilization) acc
  with
  | Raise e => (l, s, Some e)
  | Ok (min_util, Some (min_team, min_type)) =>
      if negb (String.eqb min_team EmptyString) && Ratio.ltb min_util (Ratio.of_int 50)
      then
        match decreased min_type min_team current_config with
        | Raise e => (l, s, Some e)
        | Ok test_config =>
            match _test_configuration_with_target s test_config target_lateness
                    (Ratio.of_int tolerance) with
            | (true, s) =>
                (JustInTime.set_improved true (JustInTime.set_current test_config l),
                 s, None)
            | (false, s) => (l, s, None)
            end
        end
      else (l, s, None)
  | Ok (_, None) => (l, s, None)
  end.

(** [adjustments_needed] *)
Definition adjustments_needed (metrics : list (string * metric)) : list (string * Z) :=
  flat_map
    (λ kv,
       let lateness := lateness_days (snd kv) in
       if 999999 <=? lateness then []
       else
         let deviation := lateness - target_lateness in
         if tolerance <? Z.abs deviation then [(fst kv, deviation)] else [])
    metrics.

(** The loop over the mechanic teams in order of utilization that tries
    one head less, with the wider tolerance [tolerance * 1.5]. *)
Fixpoint reduce_by_utilization (entries : list (string * utilization))
    (current_config : config) (s : scheduler) : result (option config) * scheduler :=
  match entries with
  | [] => (Ok None, s)
  | (team, _) :: rest =>
      match dict_get team (mechanic current_config) with
      | None => (Raise (KeyError team), s)
      | Some capacity =>
          if min_mechanics <? capacity
          then
            let test_config :=
              mk_config (dict_set team (capacity - 1) (mechanic current_config))
                (quality current_config) in
            match _test_configuration_with_target s test_config target_lateness
                    (Ratio.mk (3 * tolerance) 2) with
            | (true, s) => (Ok (Some test_config), s)
            | (false, s) => reduce_by_utilization rest current_config s
            end
          else reduce_by_utilization rest current_config s
      end
  end.

(** The branch [else] of [if within_tolerance]. *)
Definition adjust_capacity (l : JustInTime.locals) (s : scheduler)
    (metrics : list (string * metric)) : JustInTime.locals * scheduler * option exn :=
  let current_config := JustInTime.current_config l in
  match first_largest (λ x, Z.abs (snd x)) (adjustments_needed metrics) with
  | None => (l, s, None)
  | Some (product, deviation) =>
      if 0 <? deviation
      then
        let product_tasks :=
          List.filter (λ t, String.eqb (Entry.product_line t) product)
                      (global_priority_list s) in
        match first_largest snd (team_usage product_tasks) with
        | None => (l, s, None)
        | Some (most_used_team, _) =>
            match dict_get most_used_team (mechanic current_config) with
            | Some capacity =>
                if capacity <? max_mechanics
                then (JustInTime.set_improved true
                        (JustInTime.set_current
                           (mk_config
                              (dict_set most_used_team (capacity + 1)
                                 (mechanic current_config))
                              (quality current_config)) l), s, None)
                else (l, s, None)
            | None =>
                match dict_get most_used_team (quality current_config) with
                | Some capacity =>
                    if capacity <? max_quality
                    then (JustInTime.set_improved true
                            (JustInTime.set_current
                               (mk_config (mechanic current_config)
                                  (dict_set most_used_team (capacity + 1)
                                     (quality current_config))) l), s, None)
                    else (l, s, None)
                | None => (l, s, None)
                end
            end
        end
      else if deviation <? - (tolerance * 2)
      then
        let utilization := _calculate_team_utilization s in
        match reduce_by_utilization (sorted_by_utilization (fst utilization))
                current_config s with
        | (Raise e, s) => (l, s, Some e)
        | (Ok (Some test_config), s) =>
            (JustInTime.set_improved true (JustInTime.set_current test_config l), s, None)
        | (Ok None, s) => (l, s, None)
        end
      else (l, s, None)
  end.

(** The body of the [try] of the optimization loop after the schedule has
    been generated: the local variables and the object when the body
    ends, and the exception that ended it, if any. *)
Definition optimize_step (l : JustInTime.locals) (s : scheduler)
    : JustInTime.locals * scheduler * option exn :=
  let current_config := JustInTime.current_config l in
  if unscheduled s
  then
    let bottlenecks := _identify_bottleneck_teams s in
    match increase_first (set_order (fst bottlenecks)) max_mechanics 1
            (mechanic current_config) with
    | Raise e => (l, s, Some e)
    | Ok (Some mech) =>
        (JustInTime.set_improved true
           (JustInTime.set_current (mk_config mech (quality current_config)) l), s, None)
    | Ok None =>
        match increase_first (set_order (snd bottlenecks)) max_quality 1
                (quality current_config) with
        | Raise e => (l, s, Some e)
        | Ok (Some qual) =>
            (JustInTime.set_improved true
               (JustInTime.set_current (mk_config (mechanic current_config) qual) l),
             s, None)
        | Ok None => (l, s, None)
        end
    end
  else
    let metrics := calculate_lateness_metrics s in
    let '(max_deviation, within_tolerance) := deviation_scan metrics 0 true in
    let total_workforce :=
      sum_values (mechanic current_config) + sum_values (quality current_config) in
    let '(l, s, raised) :=
      if within_tolerance then reduce_workforce l s total_workforce max_deviation
      else adjust_capacity l s metrics in
    match raised with
    | Some e => (l, s, Some e)
    | None =>
        (JustInTime.set_no_improvement_count
           (if JustInTime.improved l then O else S (JustInTime.no_improvement_count l)) l,
         s, None)
    end.

(** Phase 2, [while iteration < max_iterations and no_improvement_count <
    max_no_improvement]. *)
Fixpoint optimize (fuel : nat) (l : JustInTime.locals) (s : scheduler)
    : result JustInTime.locals * scheduler :=
  match fuel with
  | O => (Ok l, s)
  | S fuel' =>
      if (30 <=? JustInTime.no_improvement_count l)%nat then (Ok l, s)
      else
        let l := JustInTime.set_improved false l in
        let s :=
          write_capacities (mechanic (JustInTime.current_config l))
            (quality (JustInTime.current_config l)) s in
        let '(l, s, raised) :=
          match run_schedule s true with
          | (Raise e, s) => (l, s, Some e)
          | (Ok _, s) => optimize_step l s
          end in
        match raised with
        | None => optimize fuel' l s
        | Some _ =>
            match increase_minimum None (mechanic (JustInTime.current_config l)) with
            | Raise e => (Raise e, s)
            | Ok mech =>
                optimize fuel'
                  (JustInTime.set_current
                     (mk_config mech (quality (JustInTime.current_config l))) l) s
            end
        end
  end.

(** [scenario_2_just_in_time_optimization] *)
Definition scenario_2_just_in_time_optimization (s : scheduler)
    : result (option JustInTime.outcome) * scheduler :=
  let original_team := _original_team_capacity s in
  let original_quality := _original_quality_capacity s in
  let current_config :=
    mk_config (uniform min_mechanics original_team)
      (uniform min_quality original_quality) in
  let '(best_config, current_config, s) :=
    uniform_search (Z.to_nat (max_mechanics - min_mechanics + 1)) min_mechanics
      current_config s in
  let current_config :=
    match best_config with
    | Some _ => current_config
    | None =>
        mk_config (uniform ((min_mechanics + max_mechanics) / 2) original_team)
          (uniform ((min_quality + max_quality) / 2) original_quality)
    end in
  match optimize (Z.to_nat max_iterations)
          (JustInTime.mk current_config best_config None None false 0) s with
  | (Raise e, s) => (Raise e, s)
  | (Ok l, s) =>
      match JustInTime.best_config l with
      | None => (Ok None, write_capacities original_team original_quality s)
      | Some best_config =>
          let s := write_capacities (mechanic best_config) (quality best_config) s in
          match run_schedule s true with
          | (Raise e, s) => (Raise e, s)
          | (Ok _, s) =>
              let makespan := calculate_makespan s in
              match workforce_summary original_team original_quality best_config with
              | Raise e => (Raise e, s)
              | Ok new_total =>
                  (Ok (Some (JustInTime.mk_outcome best_config new_total makespan
                               (JustInTime.best_deviation l))),
                   write_capacities original_team original_quality s)
              end
          end
      end
  end.

End JustInTimeOptimization.

(** ** Scenario 3 *)

Section MinimumLatenessOptimization.

Variables min_mechanics max_mechanics min_quality max_quality max_iterations : Z.

(** The branch [if scheduled_count < total_tasks] of the first phase. *)
Definition unblock (l : MinimumLateness.locals) (s : scheduler)
    : MinimumLateness.locals * option exn :=
  let unscheduled_tasks :=
    List.filter (λ t, negb (dict_mem t (task_schedule s)))
                (map fst (map_to_list (tasks s))) in
  let blocking_teams := _identify_blocking_teams s unscheduled_tasks in
  match increase_all (set_order (fst blocking_teams)) max_mechanics
          (MinimumLateness.current_mech_config l) false with
  | (mech, _, Some e) => (MinimumLateness.set_mech mech l, Some e)
  | (mech, capacity_increased, None) =>
      let l := MinimumLateness.set_mech mech l in
      match increase_all (set_order (snd blocking_teams)) max_quality
              (MinimumLateness.current_qual_config l) capacity_increased with
      | (qual, _, Some e) => (MinimumLateness.set_qual qual l, Some e)
      | (qual, capacity_increased, None) =>
          let l := MinimumLateness.set_qual qual l in
          (if capacity_increased then l else MinimumLateness.set_complete l, None)
      end
  end.

(** The branch [if not improved] of the first phase. *)
Definition widen (l : MinimumLateness.locals) (s : scheduler)
    : MinimumLateness.locals * option exn :=
  let bottlenecks := _identify_bottleneck_teams s in
  let mech := MinimumLateness.current_mech_config l in
  let qual := MinimumLateness.current_qual_config l in
  match increase_first (set_order (fst bottlenecks)) max_mechanics 2 mech with
  | Raise e => (l, Some e)
  | Ok (Some mech) => (MinimumLateness.set_mech mech l, None)
  | Ok None =>
      match increase_first (set_order (snd bottlenecks)) max_quality 1 qual with
      | Raise e => (l, Some e)
      | Ok (Some qual) => (MinimumLateness.set_qual qual l, None)
      | Ok None =>
          match min_value mech with
          | Raise e => (l, Some e)
          | Ok min_mech_cap =>
              match increase_least min_mech_cap (Some max_mechanics) mech with
              | Some mech => (MinimumLateness.set_mech mech l, None)
              | None =>
                  match min_value qual with
                  | Raise e => (l, Some e)
                  | Ok min_qual_cap =>
                      match increase_least min_qual_cap (Some max_quality) qual with
                      | Some qual => (MinimumLateness.set_qual qual l, None)
                      | None => (MinimumLateness.set_complete l, None)
                      end
                  end
              end
          end
      end
  end.

(** The body of the [try] of the first phase after the schedule has been
    generated: the local variables when the body ends, and the exception
    that ended it, if any. *)
Definition improve_step (l : MinimumLateness.locals) (s : scheduler)
    : MinimumLateness.locals * option exn :=
  if unscheduled s then unblock l s
  else
    let metrics := calculate_lateness_metrics s in
    let max_lateness := max_lateness_of metrics in
    let total_lateness := total_lateness_of metrics in
    let total_workforce :=
      sum_values (MinimumLateness.current_mech_config l)
      + sum_values (MinimumLateness.current_qual_config l) in
    let '(improved, l) :=
      if lt_inf max_lateness (MinimumLateness.previous_max_lateness l)
      then (true, MinimumLateness.set_previous_max max_lateness l)
      else if eq_inf max_lateness (MinimumLateness.previous_max_lateness l)
              && lt_inf total_lateness (MinimumLateness.previous_total_lateness l)
      then (true, MinimumLateness.set_previous_total total_lateness l)
      else (false, l) in
    let l :=
      if lt_inf max_lateness (MinimumLateness.best_max_lateness l)
         || (eq_inf max_lateness (MinimumLateness.best_max_lateness l)
             && lt_inf total_lateness (MinimumLateness.best_total_lateness l))
      then MinimumLateness.set_best max_lateness total_lateness total_workforce l
      else MinimumLateness.count_no_improvement l in
    if (20 <=? MinimumLateness.iterations_without_improvement l)%nat
    then (MinimumLateness.set_complete l, None)
    else if improved then (l, None)
    else widen l s.

(** Phase 1, [while iteration < max_iterations and not phase1_complete]. *)
Fixpoint find_minimum_lateness (fuel : nat) (l : MinimumLateness.locals)
    (s : scheduler) : result MinimumLateness.locals * scheduler :=
  match fuel with
  | O => (Ok l, s)
  | S fuel' =>
      if MinimumLateness.phase1_complete l then (Ok l, s)
      else
        let s :=
          write_capacities (MinimumLateness.current_mech_config l)
            (MinimumLateness.current_qual_config l) s in
        let '(l, s, raised) :=
          match run_schedule s true with
          | (Raise e, s) => (l, s, Some e)
          | (Ok _, s) => let '(l, raised) := improve_step l s in (l, s, raised)
          end in
        match raised with
        | None => find_minimum_lateness fuel' l s
        | Some _ =>
            match increase_minimum (Some max_mechanics)
                    (MinimumLateness.current_mech_config l) with
            | Raise e => (Raise e, s)
            | Ok mech => find_minimum_lateness fuel' (MinimumLateness.set_mech mech l) s
            end
        end
  end.

(** The loop of the second phase over the mechanic teams in order of
    utilization: the configuration that passed the test, if any. *)
Fixpoint reduce_mechanic (entries : list (string * utilization)) (best_config : config)
    (target_max_lateness : option Z) (target_total_lateness : option Ratio.t)
    (s : scheduler) : result (option config) * scheduler :=
  match entries with
  | [] => (Ok None, s)
  | (team, util_data) :: rest =>
      if Ratio.ltb (utilization_ratio util_data) (Ratio.mk 7 10)
      then
        match dict_get team (mechanic best_config) with
        | None => (Raise (KeyError team), s)
        | Some capacity =>
            if min_mechanics <? capacity
            then
              let test_config :=
                mk_config (dict_set team (capacity - 1) (mechanic best_config))
                  (quality best_config) in
              match _test_configuration_with_lateness_target s test_config
                      target_max_lateness target_total_lateness with
              | (true, s) => (Ok (Some test_config), s)
              | (false, s) =>
                  reduce_mechanic rest best_config target_max_lateness
                    target_total_lateness s
              end
            else
              reduce_mechanic rest best_config target_max_lateness
                target_total_lateness s
        end
      else
        reduce_mechanic rest best_config target_max_lateness target_total_lateness s
  end.

(** The same loop over the quality teams, which also keeps a team at
    its [max_concurrent]. *)
Fixpoint reduce_quality (entries : list (string * utilization)) (best_config : config)
    (target_max_lateness : option Z) (target_total_lateness : option Ratio.t)
    (s : scheduler) : result (option config) * scheduler :=
  match entries with
  | [] => (Ok None, s)
  | (team, util_data) :: rest =>
      if Ratio.ltb (utilization_ratio util_data) (Ratio.mk 7 10)
      then
        match dict_get team (quality best_config) with
        | None => (Raise (KeyError team), s)
        | Some capacity =>
            if (min_quality <? capacity) && (max_concurrent util_data <? capacity)
            then
              let test_config :=
                mk_config (mechanic best_config)
                  (dict_set team (capacity - 1) (quality best_config)) in
              match _test_configuration_with_lateness_target s test_config
                      target_max_lateness target_total_lateness with
              | (true, s) => (Ok (Some test_config), s)
              | (false, s) =>
                  reduce_quality rest best_config target_max_lateness
                    target_total_lateness s
              end
            else
              reduce_quality rest best_config target_max_lateness
                target_total_lateness s
        end
      else
        reduce_quality rest best_config target_max_lateness target_total_lateness s
  end.

(** Phase 2, [while improved and optimization_iterations < 50]:
    [best_config] when the loop ends. *)
Fixpoint reduce_underutilized (fuel : nat) (best_config : config)
    (target_max_lateness : option Z) (target_total_lateness : option Ratio.t)
    (s : scheduler) : result config * scheduler :=
  match fuel with
  | O => (Ok best_config, s)
  | S fuel' =>
      let s := write_capacities (mechanic best_config) (quality best_config) s in
      match run_schedule s true with
      | (Raise e, s) => (Raise e, s)
      | (Ok _, s) =>
          let team_utilization := _calculate_team_utilization s in
          match reduce_mechanic (sorted_by_utilization (fst team_utilization))
                  best_config target_max_lateness target_total_lateness s with
          | (Raise e, s) => (Raise e, s)
          | (Ok (Some test_config), s) =>
              reduce_underutilized fuel' test_config target_max_lateness
                target_total_lateness s
          | (Ok None, s) =>
              match reduce_quality (sorted_by_utilization (snd team_utilization))
                      best_config target_max_lateness target_total_lateness s with
              | (Raise e, s) => (Raise e, s)
              | (Ok (Some test_config), s) =>
                  reduce_underutilized fuel' test_config target_max_lateness
                    target_total_lateness s
              | (Ok None, s) => (Ok best_config, s)
              end
          end
      end
  end.

(** [scenario_3_multidimensional_optimization] *)
Definition scenario_3_multidimensional_optimization (s : scheduler)
    : result (option MinimumLateness.outcome) * scheduler :=
  let original_team := _original_team_capacity s in
  let original_quality := _original_quality_capacity s in
  match find_minimum_lateness (Z.to_nat max_iterations)
          (MinimumLateness.mk (uniform min_mechanics original_team)
             (uniform min_quality original_quality) None None None None 0 None None
             false) s with
  | (Raise e, s) => (Raise e, s)
  | (Ok l, s) =>
      match MinimumLateness.best_config l with
      | None => (Ok None, write_capacities original_team original_quality s)
      | Some best_config =>
          let target_max_lateness := MinimumLateness.best_max_lateness l in
          let target_total_lateness :=
            option_map (λ t, Ratio.mk (11 * t) 10)
                       (MinimumLateness.best_total_lateness l) in
          match reduce_underutilized 50 best_config target_max_lateness
                  target_total_lateness s with
          | (Raise e, s) => (Raise e, s)
          | (Ok best_config, s) =>
              let s := write_capacities (mechanic best_config) (quality best_config) s in
              match run_schedule s true with
              | (Raise e, s) => (Raise e, s)
              | (Ok _, s) =>
                  let makespan := calculate_makespan s in
                  let metrics := calculate_lateness_metrics s in
                  match workforce_summary original_team original_quality best_config with
                  | Raise e => (Raise e, s)
                  | Ok new_total =>
                      (Ok (Some (MinimumLateness.mk_outcome best_config new_total
                                   makespan (max_lateness_of metrics)
                                   (total_lateness_of metrics))),
                       write_capacities original_team original_quality s)
                  end
              end
          end
      end
  end.

End MinimumLatenessOptimization.

End Optimizers.

(** * Conflict report and views of the priority list *)


(** [list.sort(key=...)] and [sorted(..., key=...)]: a stable sort for the
    order [leb] of the keys; an element goes before the first element of
    the sorted rest that is not strictly below it. *)
Fixpoint insert_sorted {A : Type} (leb : A → A → bool) (x : A) (l : list A) : list A :=
  match l with
  | [] => [x]
  | y :: l' => if leb x y then x :: l else y :: insert_sorted leb x l'
  end.

Definition stable_sort {A : Type} (leb : A → A → bool) (l : list A) : list A :=
  fold_right (insert_sorted leb) [] l.

(** ** [check_resource_conflicts] *)

(** An entry of [events]: [(time, delta, 'start' or 'end', task_id)]. *)
Record event : Type := mk_event {
  event_time : Z;
  event_delta : Z;
  event_is_start : bool;
  event_task : string;
}.

(** An entry of the report. *)
Record conflict : Type := mk_conflict {
  conflict_team : string;
  conflict_time : Z;
  conflict_usage : Z;
  conflict_capacity : Z;
  conflict_task : string;
}.

(** [team_tasks[schedule['team']].append((task_id, schedule))] *)
Definition team_tasks (schedule : list (string * Sched.t))
    : list (string * list (string * Sched.t)) :=
  fold_left
    (λ groups kv,
       dict_set (Sched.team (snd kv))
         (default [] (dict_get (Sched.team (snd kv)) groups) ++ [kv]) groups)
    schedule [].

Definition events_of (tasks : list (string * Sched.t)) : list event :=
  flat_map
    (λ kv,
       [mk_event (Sched.start_time (snd kv)) (Sched.mechanics_required (snd kv)) true
          (fst kv);
        mk_event (Sched.end_time (snd kv)) (- Sched.mechanics_required (snd kv)) false
          (fst kv)])
    tasks.

(** The order of the keys [(x[0], x[1])]. *)
Definition event_leb (a b : event) : bool :=
  (event_time a <? event_time b)
  || ((event_time a =? event_time b) && (event_delta a <=? event_delta b)).

(** The loop over the sorted events of one team: the usage after the
    events, and the conflicts found. *)
Definition sweep (team : string) (capacity : Z) (events : list event)
    : Z * list conflict :=
  fold_left
    (λ acc ev,
       let current_usage := fst acc + event_delta ev in
       if event_is_start ev && (capacity <? current_usage)
       then (current_usage,
             snd acc ++ [mk_conflict team (event_time ev) current_usage capacity
                           (event_task ev)])
       else (current_usage, snd acc))
    events (0, []).

(** [check_resource_conflicts] *)
Definition check_resource_conflicts (s : scheduler) : list conflict :=
  match task_schedule s with
  | [] => []
  | _ =>
      flat_map
        (λ group,
           snd (sweep (fst group) (capacity_of s (fst group))
                  (stable_sort event_leb (events_of (snd group)))))
        (team_tasks (task_schedule s))
  end.

(** ** Views of the priority list *)

(** [filter_by_team] *)
Definition filter_by_team (s : scheduler) (team_name : string) : list Entry.t :=
  List.filter (λ task, String.eqb (Entry.team task) team_name) (global_priority_list s).

(** [get_daily_schedule]; [target_date] is the day that
    [pd.to_datetime(date).date()] gives, and a [team_name] of [None] is
    every team. *)
Definition get_daily_schedule (s : scheduler) (target_date : Z)
    (team_name : option string) : list Entry.t :=
  stable_sort (λ a b, Entry.scheduled_start a <=? Entry.scheduled_start b)
    (List.filter
       (λ task,
          (date_of (Entry.scheduled_start task) =? target_date)
          && match team_name with
             | None => true
             | Some name => String.eqb (Entry.team task) name
             end)
       (global_priority_list s)).


(** * Specifications *)

(** An identifier has the shape [<initial>_<integer>]: one underscore, and
    after it a text that [int()] accepts. *)
Definition well_shaped (v : pyvalue) : Prop :=
  ∃ p0 p1 n, v = PyString (p0 +:+ "_" +:+ p1)
             ∧ PyStr.has_char "_" p0 = false ∧ PyStr.has_char "_" p1 = false
             ∧ PyStr.int_of_str p1 = Some n.

(** A constraint of the dynamic list that [schedule_tasks] turns into a
    dependency of [b] on [a]. *)
Definition edge_of (cs : list constraint) (a b : string) : Prop :=
  ∃ c, c ∈ cs ∧ First c = a ∧ Second c = b ∧ is_dependency (Relationship c) = true.

(** The precedence that the dependency scan enforces on a schedule: the
    start of [b] is not before the end of a predecessor [a], provided no
    other scheduled predecessor of [b] is tied to [b] by a
    'Finish = Start' constraint. *)
Definition precedence_ok (cs : list constraint) (sched : list (string * Sched.t)) : Prop :=
  ∀ a b ea eb,
    dict_get a sched = Some ea → dict_get b sched = Some eb → edge_of cs a b →
    (∀ d ed, edge_of cs d b → dict_get d sched = Some ed →
       is_finish_equals_start cs d b = true → d = a) →
    Sched.end_time ea ≤ Sched.start_time eb.

(** Some assignment of [team] covers minute [m]. *)
Definition covered (sched : list (string * Sched.t)) (team : string) (m : Z) : Prop :=
  ∃ k e, (k, e) ∈ sched ∧ Sched.team e = team
         ∧ Sched.start_time e ≤ m < Sched.end_time e.

(** No team is used beyond its capacity at any minute. *)
Definition capacity_ok (s : scheduler) (sched : list (string * Sched.t)) : Prop :=
  ∀ team m, 0 ≤ capacity_of s team ∨ covered sched team m →
    usage_at sched team m ≤ capacity_of s team.

(** Every assignment starts on a working day of its product. *)
Definition start_days_ok (s : scheduler) (sched : list (string * Sched.t)) : Prop :=
  ∀ k e, (k, e) ∈ sched →
    is_working_day s (Sched.start_time e) (Sched.product_line e) = true.

(** Every dependency ends in a task that exists. *)
Definition edges_live (s : scheduler) : Prop :=
  ∀ a b, edge_of (build_dynamic_dependencies s) a b → is_Some (tasks s !! b).

(** What holds of the state of the scheduling loop at the head of every
    pass. *)
Record engine_inv (s : scheduler) (st : loop_state) : Prop := mk_engine_inv {
  inv_ready_nodup : NoDup (map snd (ready_tasks st));
  inv_ready_fresh : ∀ t, t ∈ map snd (ready_tasks st) → is_done st t = false;
  inv_ready_deps : ∀ t d, t ∈ map snd (ready_tasks st) →
    edge_of (build_dynamic_dependencies s) d t → is_done st d = true;
  inv_ready_live : edges_live s →
    ∀ t, t ∈ map snd (ready_tasks st) → is_Some (tasks s !! t);
  inv_failed : ∀ t, t ∈ failed_tasks st → dict_get t (schedule st) = None;
  inv_keys_nodup : NoDup (dict_keys (schedule st));
  inv_sched_deps : ∀ t d, t ∈ dict_keys (schedule st) →
    edge_of (build_dynamic_dependencies s) d t → is_done st d = true;
  inv_sched_tasks : ∀ t, t ∈ dict_keys (schedule st) → is_Some (tasks s !! t);
  inv_count : scheduled_count st = length (schedule st);
  inv_retry : ∀ t, (3 ≤ default O (task_retry_counts st !! t))%nat →
    t ∈ failed_tasks st;
  inv_precedence : precedence_ok (build_dynamic_dependencies s) (schedule st);
  inv_capacity : capacity_ok s (schedule st);
  inv_working : start_days_ok s (schedule st);
}.

(** An exception that the priority raises, or a [KeyError]. *)
Definition from_priority (priority_of : string → result float) (e : exn) : Prop :=
  (∃ t, priority_of t = Raise e) ∨ (∃ k, e = KeyError k).

(** The calendar days from [d0] to [d1], both included. *)
Definition days_between (d0 d1 : Z) : list Z :=
  map (λ i, d0 + Z.of_nat i) (seq 0 (Z.to_nat (d1 - d0 + 1))).

(** Day [d] is a working day of at least one product. *)
Definition working_for_some_product (s : scheduler) (d : Z) : bool :=
  existsb (λ product, is_working_day s (d * 1440) product)
          (dict_keys (product_tasks s)).

(** The count of calendar days between the day of the earliest start and
    the day of the latest end that are a working day of some product. *)
Definition working_day_count (s : scheduler) : Z :=
  Z.of_nat (length (List.filter (working_for_some_product s)
    (days_between (date_of (min_start (task_schedule s)))
                  (date_of (max_end (task_schedule s)))))).



(** The capacity tables have the teams of the original tables, in their
    order, and the original tables are [original_team] and
    [original_quality]. *)
Definition keeps_teams (original_team original_quality : list (string * Z))
    (s : scheduler) : Prop :=
  dict_keys (team_capacity s) = dict_keys original_team
  ∧ dict_keys (quality_team_capacity s) = dict_keys original_quality
  ∧ _original_team_capacity s = original_team
  ∧ _original_quality_capacity s = original_quality.

(** A configuration for the teams of the original tables. *)
Definition config_for (original_team original_quality : list (string * Z))
    (c : config) : Prop :=
  dict_keys (mechanic c) = dict_keys original_team
  ∧ dict_keys (quality c) = dict_keys original_quality.

(** The object as it is loaded from the input: the capacity tables are
    the original tables, and a table has one entry for a team. *)
Definition as_loaded (s : scheduler) : Prop :=
  team_capacity s = _original_team_capacity s
  ∧ quality_team_capacity s = _original_quality_capacity s
  ∧ NoDup (dict_keys (_original_team_capacity s))
  ∧ NoDup (dict_keys (_original_quality_capacity s)).

(** The configurations held by the local variables of an optimization
    loop are configurations for the teams of the original tables. *)
Definition just_in_time_ok (original_team original_quality : list (string * Z))
    (l : JustInTime.locals) : Prop :=
  config_for original_team original_quality (JustInTime.current_config l)
  ∧ ∀ b, JustInTime.best_config l = Some b → config_for original_team original_quality b.

Definition minimum_lateness_ok (original_team original_quality : list (string * Z))
    (l : MinimumLateness.locals) : Prop :=
  dict_keys (MinimumLateness.current_mech_config l) = dict_keys original_team
  ∧ dict_keys (MinimumLateness.current_qual_config l) = dict_keys original_quality
  ∧ ∀ b, MinimumLateness.best_config l = Some b →
         config_for original_team original_quality b.

(** The elements of [l] stand in the order [R]: an element is related to
    every later one. *)
Definition ordered_by {A : Type} (R : A → A → Prop) (l : list A) : Prop :=
  ∀ i j a b, l !! i = Some a → l !! j = Some b → (i < j)%nat → R a b.

(** Two entries of a priority list that differ at most in their rank. *)
Definition same_but_rank (a b : Entry.t) : Prop :=
  Entry.task_id a = Entry.task_id b
  ∧ Entry.task_num a = Entry.task_num b
  ∧ Entry.task_type a = Entry.task_type b
  ∧ Entry.display_name a = Entry.display_name b
  ∧ Entry.product_line a = Entry.product_line b
  ∧ Entry.team a = Entry.team b
  ∧ Entry.scheduled_start a = Entry.scheduled_start b
  ∧ Entry.scheduled_end a = Entry.scheduled_end b
  ∧ Entry.duration_minutes a = Entry.duration_minutes b
  ∧ Entry.mechanics_required a = Entry.mechanics_required b
  ∧ Entry.slack_hours a = Entry.slack_hours b
  ∧ Entry.priority_score a = Entry.priority_score b
  ∧ Entry.shift a = Entry.shift b.

(** * Example inputs *)

Local Open Scope string_scope.

(** A scheduler object with nothing loaded: one day of late part delay. *)
Definition empty_scheduler : scheduler :=
  mk_scheduler ∅ [] [] [] ∅ ∅ ∅ ∅ ∅ [] ∅ [] [] [] [] ∅ [] [] [] None 1440 [] [].

(** A production task of product P. *)
Definition production (duration : Z) (team : string) (mechanics : Z) : Task.t :=
  Task.mk duration team mechanics false Production "Product P".

(** Two tasks of one product in a chain, one mechanic on the first shift;
    delivery on 2025-09-17. *)
Definition ex_chain : scheduler :=
  mk_scheduler
    (list_to_map [("P_1", production 60 "M" 1); ("P_2", production 60 "M" 1)])
    [mk_constraint "P_1" "P_2" FinishLeStart] [] [] ∅ ∅ ∅ ∅ ∅ []
    (list_to_map [("M", ["1st"])]) [("M", 1)] [] [] [("Product P", 30 * 1440)] ∅
    [("Product P", ["P_1"; "P_2"])] [] [] None 1440 [("M", 1)] [].

(** Task 3 waits for task 1 ('Finish <= Start', two hours) and for task 2
    ('Finish = Start', half an hour); each task has its own team. *)
Definition ex_override : scheduler :=
  mk_scheduler
    (list_to_map [("P_1", production 120 "M1" 1); ("P_2", production 30 "M2" 1);
                  ("P_3", production 10 "M3" 1)])
    [mk_constraint "P_1" "P_3" FinishLeStart; mk_constraint "P_2" "P_3" FinishEqStart]
    [] [] ∅ ∅ ∅ ∅ ∅ []
    (list_to_map [("M1", ["1st"]); ("M2", ["1st"]); ("M3", ["1st"])])
    [("M1", 1); ("M2", 1); ("M3", 1)] [] [] [] ∅
    [("Product P", ["P_1"; "P_2"; "P_3"])] [] [] None 1440
    [("M1", 1); ("M2", 1); ("M3", 1)] [].

(** Task 1 and its quality inspection 10001; the only quality team works
    the second shift. *)
Definition ex_inspection : scheduler :=
  mk_scheduler
    (list_to_map [("P_1", production 60 "M" 1);
                  ("P_10001", Task.mk 30 "" 1 true QualityInspection "Product P")])
    [] [] [] ∅ ∅ ∅ ∅ (list_to_map [("P_10001", ("P_1", 1))]) [("P_1", "P_10001")]
    (list_to_map [("M", ["1st"])]) [("M", 1)] [("Q", ["2nd"])] [("Q", 1)] [] ∅
    [("Product P", ["P_1"; "P_10001"])] [] [] None 1440 [("M", 1)] [("Q", 1)].

(** One task of 2000 minutes. *)
Definition ex_long : scheduler :=
  mk_scheduler
    (list_to_map [("P_1", production 2000 "M" 1)])
    [] [] [] ∅ ∅ ∅ ∅ ∅ []
    (list_to_map [("M", ["1st"])]) [("M", 1)] [] [] [] ∅
    [("Product P", ["P_1"])] [] [] None 1440 [("M", 1)] [].

(** One task whose team works no shift. *)
Definition ex_no_shift : scheduler :=
  mk_scheduler
    (list_to_map [("P_1", production 60 "M" 1)])
    [] [] [] ∅ ∅ ∅ ∅ ∅ []
    ∅ [("M", 1)] [] [] [("Product P", 30 * 1440)] ∅
    [("Product P", ["P_1"])] [] [] None 1440 [("M", 1)] [].


(** Two tasks that wait for each other. *)
Definition ex_cycle : scheduler :=
  mk_scheduler
    (list_to_map [("P_1", production 60 "M" 1); ("P_2", production 60 "M" 1)])
    [mk_constraint "P_1" "P_2" FinishLeStart; mk_constraint "P_2" "P_1" FinishLeStart]
    [] [] ∅ ∅ ∅ ∅ ∅ []
    (list_to_map [("M", ["1st"])]) [("M", 1)] [] [] [("Product P", 30 * 1440)] ∅
    [("Product P", ["P_1"; "P_2"])] [] [] None 1440 [("M", 1)] [].

(** The iteration order of a set used in the examples. *)
Definition in_order (X : gset string) : list string := elements X.



(** One production task whose team has no entry in the capacity tables,
    and one quality team of three inspectors. *)
Definition ex_no_mechanics : scheduler :=
  mk_scheduler
    (list_to_map [("P_1", production 60 "M1" 1)])
    [] [] [] ∅ ∅ ∅ ∅ ∅ []
    ∅ [] [("Q1", ["1st"])] [("Q1", 3)] [("Product P", 30 * 1440)] ∅
    [("Product P", ["P_1"])] [] [] None 1440 [] [("Q1", 3)].

(** The chain of [ex_chain] with three mechanics on the team. *)
Definition ex_staffed : scheduler :=
  mk_scheduler
    (list_to_map [("P_1", production 60 "M" 1); ("P_2", production 60 "M" 1)])
    [mk_constraint "P_1" "P_2" FinishLeStart] [] [] ∅ ∅ ∅ ∅ ∅ []
    (list_to_map [("M", ["1st"])]) [("M", 3)] [("Q", ["1st"])] [("Q", 2)]
    [("Product P", 30 * 1440)] ∅
    [("Product P", ["P_1"; "P_2"])] [] [] None 1440 [("M", 3)] [("Q", 2)].

(** The same chain with nobody on the team. *)
Definition ex_unstaffed : scheduler :=
  mk_scheduler
    (list_to_map [("P_1", production 60 "M" 1); ("P_2", production 60 "M" 1)])
    [mk_constraint "P_1" "P_2" FinishLeStart] [] [] ∅ ∅ ∅ ∅ ∅ []
    (list_to_map [("M", ["1st"])]) [("M", 0)] [] []
    [("Product P", 30 * 1440)] ∅
    [("Product P", ["P_1"; "P_2"])] [] [] None 1440 [("M", 0)] [].

(** Task 1 has the inspection 10001 and is followed by task 2. *)
Definition ex_routed : scheduler :=
  mk_scheduler
    (list_to_map [("P_1", production 60 "M" 1); ("P_2", production 60 "M" 1);
                  ("P_10001", Task.mk 30 "" 1 true QualityInspection "Product P")])
    [mk_constraint "P_1" "P_2" FinishLeStart] [] [] ∅ ∅ ∅ ∅
    (list_to_map [("P_10001", ("P_1", 1))]) [("P_1", "P_10001")]
    (list_to_map [("M", ["1st"])]) [("M", 1)] [("Q", ["1st"])] [("Q", 1)]
    [("Product P", 30 * 1440)] ∅
    [("Product P", ["P_1"; "P_2"; "P_10001"])] [] [] None 1440 [("M", 1)] [("Q", 1)].


(** A late part that is on dock on Monday 2025-08-25 at 10:00 and feeds
    task 1. *)
Definition ex_late_part : scheduler :=
  mk_scheduler
    (list_to_map [("P_1", production 60 "M" 1);
                  ("LP_1", Task.mk 30 "M" 1 false LatePart "Product P")])
    [] [mk_constraint "LP_1" "P_1" FinishLeStart] [] {["LP_1"]} ∅
    (list_to_map [("LP_1", 7 * 1440 + 600)]) (list_to_map [("LP_1", "Product P")])
    ∅ []
    (list_to_map [("M", ["1st"])]) [("M", 1)] [] []
    [("Product P", 30 * 1440)] ∅
    [("Product P", ["P_1"])] [] [] None 1440 [("M", 1)] [].

Local Close Scope string_scope.

(** * Properties *)


(** * Properties *)

(** ** Task identifiers: [create_product_task_id] and [parse_product_task_id] *)

Module PyStrFacts.
Import PyStr.

Lemma append_nil s : "" +:+ s = s.
Proof. reflexivity. Qed.

Lemma append_cons c a s : String c a +:+ s = String c (a +:+ s).
Proof. reflexivity. Qed.

Lemma replace_go_absent old new s :
  contains old s = false → replace_go old new 0 s = s.
Proof.
  induction s as [|c s IH]; [done|].
  cbn [contains replace_go]. intros H.
  apply orb_false_iff in H as [Hp Hc]. rewrite Hp. f_equal. by apply IH.
Qed.

Lemma replace_go_skip old new k a s :
  String.length a = k → replace_go old new k (a +:+ s) = replace_go old new 0 s.
Proof.
  revert k. induction a as [|c a IH]; intros k Hk; cbn [String.length] in Hk.
  - subst. by rewrite append_nil.
  - destruct k as [|k]; [done|]. rewrite append_cons. cbn [replace_go].
    apply IH. lia.
Qed.

Lemma prefix_app a s : String.prefix a (a +:+ s) = true.
Proof.
  apply String.prefix_correct. induction a as [|c a IH].
  - rewrite append_nil. by destruct s.
  - rewrite append_cons. cbn [String.length String.substring]. by rewrite IH.
Qed.

(** Removing the leading occurrence of a non-empty [old] *)
Lemma replace_leading c old s :
  contains (String c old) s = false →
  replace (String c old) "" (String c old +:+ s) = s.
Proof.
  intros H. unfold replace.
  rewrite append_cons. cbn [replace_go]. rewrite <- append_cons.
  rewrite prefix_app.
  rewrite (replace_go_skip _ _ _ old s) by (cbn [String.length]; lia).
  rewrite append_nil. by apply replace_go_absent.
Qed.

Lemma split_absent sep s : has_char sep s = false → split sep s = [s].
Proof.
  induction s as [|c s IH]; [done|]. cbn [split has_char]. intros H.
  apply orb_false_iff in H as [Hc Hs]. rewrite Hc, (IH Hs). done.
Qed.

Lemma split_app sep a b :
  has_char sep a = false → split sep (a +:+ String sep b) = a :: split sep b.
Proof.
  induction a as [|c a IH]; cbn [has_char].
  - intros _. rewrite append_nil. cbn [split]. by rewrite Ascii.eqb_refl.
  - intros H. apply orb_false_iff in H as [Hc Ha].
    rewrite append_cons. cbn [split]. rewrite Hc, (IH Ha). done.
Qed.

Lemma split_length sep s : length (split sep s) = S (count_char sep s).
Proof.
  induction s as [|c s IH]; [done|]. cbn [split count_char].
  destruct (Ascii.eqb c sep); cbn [length].
  - by rewrite IH.
  - destruct (split sep s); cbn [length] in *; lia.
Qed.

(** A string split in two is its two pieces around one separator. *)
Lemma split_two sep s p0 p1 :
  split sep s = [p0; p1] →
  s = p0 +:+ String sep p1 ∧ has_char sep p0 = false ∧ has_char sep p1 = false.
Proof.
  revert p0. induction s as [|c s IH]; intros p0; [done|]. cbn [split].
  destruct (Ascii.eqb_spec c sep) as [->|Hne].
  - intros [= <- Hs]. rewrite append_nil. cbn [has_char].
    assert (Hc : count_char sep s = O).
    { pose proof (split_length sep s) as Hl. rewrite Hs in Hl. cbn in Hl. lia. }
    assert (Hh : ∀ t, count_char sep t = O → has_char sep t = false).
    { induction t as [|a t IHt]; [done|]. cbn [count_char has_char].
      destruct (Ascii.eqb a sep); cbn [orb]; [lia|]. done. }
    specialize (Hh s Hc). rewrite split_absent in Hs by done.
    injection Hs as ->. done.
  - destruct (split sep s) as [|h t] eqn:Hs; [intros [=]|].
    intros [= <- ->]. destruct (IH h eq_refl) as (-> & H0 & H1).
    rewrite append_cons. cbn [has_char]. split; [done|]. split; [|done].
    apply orb_false_iff. split; [|done]. by apply Ascii.eqb_neq.
Qed.

Lemma digits_of_uint d : all_chars is_digit (NilEmpty.string_of_uint d) = true.
Proof. induction d; cbn; try done; by rewrite IHd. Qed.

Lemma all_chars_impl (P Q : ascii → bool) s :
  (∀ c, P c = true → Q c = true) → all_chars P s = true → all_chars Q s = true.
Proof.
  intros HPQ. induction s as [|c s IH]; [done|]. cbn.
  intros H. apply andb_true_iff in H as [Hc Hs]. by rewrite (HPQ _ Hc), IH.
Qed.

Lemma digit_cases c :
  is_digit c = true →
  is_int_blank c = false ∧ Ascii.eqb c "_" = false ∧ Ascii.eqb c "+" = false
  ∧ Ascii.eqb c "-" = false.
Proof.
  destruct c as [[] [] [] [] [] [] [] []]; vm_compute; intros H;
    try discriminate H; done.
Qed.

Lemma lstrip_digits blank c s :
  blank c = false → lstrip blank (String c s) = String c s.
Proof. intros H. cbn. by rewrite H. Qed.

Lemma rstrip_no_space blank s :
  all_chars (λ c, negb (blank c)) s = true → rstrip blank s = s.
Proof.
  induction s as [|c s IH]; [done|]. cbn. intros H.
  apply andb_true_iff in H as [Hc Hs]. rewrite (IH Hs).
  destruct s; [|done]. apply negb_true_iff in Hc. by rewrite Hc.
Qed.

Lemma has_char_none c s :
  all_chars (λ a, negb (Ascii.eqb a c)) s = true → has_char c s = false.
Proof.
  induction s as [|a s IH]; [done|]. cbn. intros H.
  apply andb_true_iff in H as [Ha Hs]. apply negb_true_iff in Ha.
  by rewrite Ha, IH.
Qed.

Lemma uint_string_nonempty d :
  d ≠ Decimal.Nil → ∃ c r, NilEmpty.string_of_uint d = String c r ∧ is_digit c = true.
Proof. destruct d; try done; intros _; cbn; eauto. Qed.

Lemma digits_to_Z_uint d :
  d ≠ Decimal.Nil → digits_to_Z (NilEmpty.string_of_uint d) = Some (Z.of_uint d).
Proof.
  intros Hd. unfold digits_to_Z.
  replace (NilEmpty.string_of_uint d) with (NilZero.string_of_uint d)
    by (by destruct d).
  by rewrite NilZero.usu.
Qed.

Lemma to_uint_nonnil p : Pos.to_uint p ≠ Decimal.Nil.
Proof.
  intros H. pose proof (DecimalPos.Unsigned.of_to p) as Hp.
  rewrite H in Hp. discriminate Hp.
Qed.

Lemma strip_digits_like blank s :
  all_chars (λ c, negb (blank c)) s = true → strip blank s = s.
Proof.
  intros H. unfold strip. destruct s as [|c s]; [done|].
  cbn in H. apply andb_true_iff in H as [Hc Hs].
  rewrite lstrip_digits by (by apply negb_true_iff).
  apply rstrip_no_space. cbn. by rewrite Hc, Hs.
Qed.

Lemma no_space_of_digits s :
  all_chars is_digit s = true → all_chars (λ c, negb (is_int_blank c)) s = true.
Proof.
  apply all_chars_impl. intros c Hc.
  destruct (digit_cases c Hc) as (-> & _). done.
Qed.

(** [int(str(n)) == n] *)
Lemma int_of_str_of_int n : int_of_str (str_of_int n) = Some n.
Proof.
  unfold str_of_int. destruct n as [|p|p]; [done| |].
  - cbn [Z.to_int NilZero.string_of_int].
    pose proof (to_uint_nonnil p) as Hnil.
    replace (NilZero.string_of_uint (Pos.to_uint p))
      with (NilEmpty.string_of_uint (Pos.to_uint p))
      by (by destruct (Pos.to_uint p)).
    pose proof (digits_of_uint (Pos.to_uint p)) as Hd.
    destruct (uint_string_nonempty _ Hnil) as (c & r & Hs & Hc).
    unfold int_of_str. rewrite strip_digits_like by (by apply no_space_of_digits).
    rewrite Hs. destruct (digit_cases c Hc) as (_ & _ & -> & ->).
    rewrite <- Hs, digits_to_Z_uint by done.
    f_equal. unfold Z.of_uint. by rewrite DecimalPos.Unsigned.of_to.
  - cbn [Z.to_int NilZero.string_of_int].
    pose proof (to_uint_nonnil p) as Hnil.
    replace (NilZero.string_of_uint (Pos.to_uint p))
      with (NilEmpty.string_of_uint (Pos.to_uint p))
      by (by destruct (Pos.to_uint p)).
    pose proof (digits_of_uint (Pos.to_uint p)) as Hd.
    unfold int_of_str. rewrite strip_digits_like.
    2:{ cbn. by apply no_space_of_digits. }
    cbn [Ascii.eqb Bool.eqb]. cbn.
    rewrite digits_to_Z_uint by done.
    f_equal. unfold Z.of_uint. by rewrite DecimalPos.Unsigned.of_to.
Qed.

Lemma str_of_int_no_underscore n : has_char "_" (str_of_int n) = false.
Proof.
  unfold str_of_int. apply has_char_none.
  assert (H : ∀ d, all_chars (λ a, negb (Ascii.eqb a "_"))
                     (NilZero.string_of_uint d) = true).
  { intros d. destruct d; try done;
      (eapply all_chars_impl; [|apply (digits_of_uint)]);
      intros c Hc; destruct (digit_cases c Hc) as (_ & -> & _); done. }
  destruct (Z.to_int n); cbn [NilZero.string_of_int]; [apply H|].
  cbn. apply H.
Qed.

End PyStrFacts.

Lemma create_product_task_id_of_initial X n :
  PyStr.contains "Product " X = false →
  create_product_task_id ("Product " +:+ X) n = X +:+ "_" +:+ PyStr.str_of_int n.
Proof.
  intros H. unfold create_product_task_id.
  by rewrite (PyStrFacts.replace_leading "P" "roduct " X H).
Qed.

Lemma parse_well_shaped p0 p1 n :
  PyStr.has_char "_" p0 = false → PyStr.has_char "_" p1 = false →
  PyStr.int_of_str p1 = Some n →
  parse_product_task_id (PyString (p0 +:+ "_" +:+ p1)) = Some ("Product " +:+ p0, n).
Proof.
  intros H0 H1 Hn. unfold parse_product_task_id, parse_product_task_id_str.
  change ("_" +:+ p1) with (String "_" p1).
  rewrite PyStrFacts.split_app, PyStrFacts.split_absent by done.
  by rewrite Hn.
Qed.

(** C10, as the code has it: the round trip holds for a product name
    ["Product X"] whose [X] has no underscore and no further occurrence of
    ["Product "] (every occurrence is removed by [replace]); and every
    argument that is not a string, or a string without exactly one
    underscore, or one whose text after the underscore is refused by
    [int()], is answered with [(None, None)]. *)
Theorem parse_create_roundtrip :
  (∀ X n, PyStr.has_char "_" X = false → PyStr.contains "Product " X = false →
     parse_product_task_id (PyString (create_product_task_id ("Product " +:+ X) n))
     = Some ("Product " +:+ X, n))
  ∧ (∀ v, ¬ well_shaped v → parse_product_task_id v = None)
  ∧ (∀ s, PyStr.count_char "_" s ≠ 1%nat → parse_product_task_id (PyString s) = None).
Proof.
  split; [|split].
  - intros X n HX HP. rewrite create_product_task_id_of_initial by done.
    apply parse_well_shaped; [done| |].
    + apply PyStrFacts.str_of_int_no_underscore.
    + apply PyStrFacts.int_of_str_of_int.
  - intros v Hv. destruct v as [s| |]; [|done..].
    unfold parse_product_task_id, parse_product_task_id_str.
    destruct (PyStr.split "_" s) as [|p0 [|p1 [|? ?]]] eqn:Hs; try done.
    destruct (PyStr.int_of_str p1) as [n|] eqn:Hn; [|done].
    exfalso. apply Hv. apply PyStrFacts.split_two in Hs as (-> & H0 & H1).
    by exists p0, p1, n.
  - intros s Hc. unfold parse_product_task_id, parse_product_task_id_str.
    pose proof (PyStrFacts.split_length "_" s) as Hl.
    destruct (PyStr.split "_" s) as [|p0 [|p1 [|? ?]]]; try done.
    cbn in Hl. lia.
Qed.

(** The hypotheses of the round trip at product ["Product A"], task 80. *)
Lemma parse_create_roundtrip_witness :
  parse_product_task_id (PyString (create_product_task_id "Product A" 80))
  = Some ("Product A", 80)
  ∧ parse_product_task_id (PyString "A_80_1") = None.
Proof.
  split.
  - apply (proj1 parse_create_roundtrip "A" 80); reflexivity.
  - apply (proj2 (proj2 parse_create_roundtrip) "A_80_1"). vm_compute. lia.
Defined.

(** C10 as stated fails: ["Product Product Z"] is a product name of the
    form ["Product X"] whose [X] has no underscore, and the round trip
    loses one ["Product "]. *)
Lemma roundtrip_counterexample :
  PyStr.has_char "_" "Product Z" = false
  ∧ create_product_task_id ("Product " +:+ "Product Z") 5 = "Z_5"
  ∧ parse_product_task_id (PyString (create_product_task_id ("Product " +:+ "Product Z") 5))
    = Some ("Product Z", 5)
  ∧ parse_product_task_id (PyString (create_product_task_id ("Product " +:+ "Product Z") 5))
    ≠ Some ("Product " +:+ "Product Z", 5).
Proof. repeat split; vm_compute; congruence. Qed.

(** [int()] accepts more than the digits [create_product_task_id] writes:
    a sign, and blanks around the number, among them a no-break space. *)
Example parse_accepts_sign_and_space :
  parse_product_task_id (PyString "A_ +80 ") = Some ("Product A", 80)
  ∧ parse_product_task_id (PyString ("A_" +:+ String "160" "7")) = Some ("Product A", 7).
Proof. split; reflexivity. Qed.

(** The separators 28..31 are not skipped: [int("\x1c7")] raises
    [ValueError], and so does a blank inside the number. *)
Example parse_refuses_separators :
  parse_product_task_id (PyString ("A_" +:+ String "028" "7")) = None
  ∧ parse_product_task_id (PyString ("A_" +:+ String "031" "7")) = None
  ∧ parse_product_task_id (PyString "A_1 2") = None
  ∧ parse_product_task_id (PyString "A_") = None
  ∧ parse_product_task_id (PyString "A_-") = None.
Proof. repeat split; reflexivity. Qed.


(** ** Dictionaries, heaps and graphs *)

Section DictFacts.
Context {V : Type}.
Implicit Types (d : list (string * V)) (k : string) (v : V).

Lemma dict_get_nil k : dict_get k ([] : list (string * V)) = None.
Proof. done. Qed.

Lemma dict_get_cons k k' v d :
  dict_get k ((k', v) :: d) = if String.eqb k' k then Some v else dict_get k d.
Proof. unfold dict_get. cbn. by destruct (String.eqb k' k). Qed.

Lemma dict_get_Some_elem k v d : dict_get k d = Some v → (k, v) ∈ d.
Proof.
  induction d as [|[k' v'] d IH]; [done|]. rewrite dict_get_cons.
  destruct (String.eqb_spec k' k) as [->|Hne].
  - intros [= ->]. left.
  - intros H. right. by apply IH.
Qed.

Lemma dict_get_None_keys k d : dict_get k d = None ↔ k ∉ dict_keys d.
Proof.
  induction d as [|[k' v'] d IH]; cbn.
  - split; [intros _; apply not_elem_of_nil|done].
  - rewrite dict_get_cons, not_elem_of_cons.
    destruct (String.eqb_spec k' k) as [->|Hne]; [naive_solver|].
    rewrite IH. naive_solver.
Qed.

Lemma dict_get_Some_keys k d : is_Some (dict_get k d) ↔ k ∈ dict_keys d.
Proof.
  destruct (dict_get k d) eqn:H.
  - split; [intros _|by eauto].
    destruct (decide (k ∈ dict_keys d)) as [|Hn]; [done|].
    apply dict_get_None_keys in Hn. congruence.
  - split; [by intros [? ?]|]. intros Hin.
    by apply dict_get_None_keys in H.
Qed.

Lemma dict_mem_get k d : dict_mem k d = bool_decide (is_Some (dict_get k d)).
Proof.
  induction d as [|[k' v'] d IH]; [done|].
  unfold dict_mem in *. cbn [existsb fst]. rewrite dict_get_cons.
  destruct (String.eqb k' k); [done|]. by rewrite IH.
Qed.

Lemma dict_mem_true k d : dict_mem k d = true ↔ k ∈ dict_keys d.
Proof.
  rewrite dict_mem_get, bool_decide_eq_true. apply dict_get_Some_keys.
Qed.

Lemma dict_set_fresh k v d : dict_get k d = None → dict_set k v d = d ++ [(k, v)].
Proof.
  induction d as [|[k' v'] d IH]; [done|]. rewrite dict_get_cons. cbn.
  destruct (String.eqb k' k); [done|]. intros H. by rewrite IH.
Qed.

Lemma dict_get_app k d1 d2 :
  dict_get k (d1 ++ d2) = match dict_get k d1 with Some v => Some v | None => dict_get k d2 end.
Proof.
  induction d1 as [|[k' v'] d1 IH]; [done|].
  rewrite <- app_comm_cons, !dict_get_cons. by destruct (String.eqb k' k).
Qed.

Lemma dict_get_snoc k k' v d :
  dict_get k d = None →
  dict_get k' (d ++ [(k, v)]) = if String.eqb k k' then Some v else dict_get k' d.
Proof.
  intros Hk. rewrite dict_get_app, dict_get_cons, dict_get_nil.
  destruct (String.eqb_spec k k') as [->|Hne].
  - by rewrite Hk.
  - by destruct (dict_get k' d).
Qed.

Lemma dict_get_set_eq k v d : dict_get k (dict_set k v d) = Some v.
Proof.
  induction d as [|[k' v'] d IH]; cbn.
  - by rewrite dict_get_cons, String.eqb_refl.
  - destruct (String.eqb_spec k' k) as [->|Hne]; rewrite dict_get_cons.
    + by rewrite String.eqb_refl.
    + by apply String.eqb_neq in Hne as ->.
Qed.

Lemma dict_get_set_ne k k' v d : k ≠ k' → dict_get k' (dict_set k v d) = dict_get k' d.
Proof.
  intros Hne. induction d as [|[k0 v0] d IH]; cbn.
  - rewrite dict_get_cons. by apply String.eqb_neq in Hne as ->.
  - destruct (String.eqb_spec k0 k) as [->|Hne0]; rewrite !dict_get_cons.
    + by apply String.eqb_neq in Hne as ->.
    + by rewrite IH.
Qed.

Lemma dict_keys_set k v d : dict_keys (dict_set k v d) ≡ₚ
  if dict_mem k d then dict_keys d else dict_keys d ++ [k].
Proof.
  induction d as [|[k0 v0] d IH]; [done|]. unfold dict_mem in *. cbn in *.
  destruct (String.eqb_spec k0 k) as [->|Hne]; [done|]. cbn.
  destruct (existsb _ d); by rewrite IH.
Qed.

End DictFacts.

Lemma fold_left_raise {A B} (f : result A → B → result A) (l : list B) e :
  (∀ b, f (Raise e) b = Raise e) → fold_left f l (Raise e) = Raise e.
Proof. intros Hf. induction l as [|b l IH]; [done|]. cbn. by rewrite Hf. Qed.

Lemma graph_get_add a b k v g :
  a ∈ graph_get b (graph_add k v g) ↔ a ∈ graph_get b g ∨ (b = k ∧ a = v).
Proof.
  unfold graph_get, graph_add. destruct (decide (k = b)) as [->|Hne].
  - rewrite lookup_insert_eq. cbn. set_solver.
  - rewrite lookup_insert_ne by done. naive_solver.
Qed.

Lemma build_dependencies_spec cs a b :
  a ∈ graph_get b (build_dependencies cs) ↔ edge_of cs a b.
Proof.
  unfold build_dependencies, edge_of.
  assert (H : ∀ g, a ∈ graph_get b (fold_left (λ g c, if is_dependency (Relationship c)
                    then graph_add (Second c) (First c) g else g) cs g)
               ↔ a ∈ graph_get b g ∨ ∃ c, c ∈ cs ∧ First c = a ∧ Second c = b
                                       ∧ is_dependency (Relationship c) = true).
  { induction cs as [|c cs IH]; intros g; cbn.
    - split; [by left|]. intros [?|(c & Hc & _)]; [done|]. by apply elem_of_nil in Hc.
    - rewrite IH. destruct (is_dependency (Relationship c)) eqn:Hd.
      + rewrite graph_get_add. split.
        * intros [[?|[-> ->]]|(c' & Hc' & ?)]; [by left| |].
          -- right. exists c. split; [left|done].
          -- right. exists c'. split; [by right|done].
        * intros [?|(c' & Hc' & H1 & H2 & H3)]; [by left; left|].
          apply elem_of_cons in Hc' as [->|Hc']; [by left; right|].
          right. by exists c'.
      + split.
        * intros [?|(c' & Hc' & ?)]; [by left|]. right. exists c'. split; [by right|done].
        * intros [?|(c' & Hc' & H1 & H2 & H3)]; [by left|].
          apply elem_of_cons in Hc' as [->|Hc']; [congruence|].
          right. by exists c'. }
  rewrite H. unfold graph_get. rewrite lookup_empty. cbn. set_solver.
Qed.

Lemma build_dependents_spec cs a b :
  b ∈ graph_get a (build_dependents cs) ↔ edge_of cs a b.
Proof.
  unfold build_dependents, edge_of.
  assert (H : ∀ g, b ∈ graph_get a (fold_left (λ g c, if is_dependency (Relationship c)
                    then graph_add (First c) (Second c) g else g) cs g)
               ↔ b ∈ graph_get a g ∨ ∃ c, c ∈ cs ∧ First c = a ∧ Second c = b
                                       ∧ is_dependency (Relationship c) = true).
  { induction cs as [|c cs IH]; intros g; cbn.
    - split; [by left|]. intros [?|(c & Hc & _)]; [done|]. by apply elem_of_nil in Hc.
    - rewrite IH. destruct (is_dependency (Relationship c)) eqn:Hd.
      + rewrite graph_get_add. split.
        * intros [[?|[-> ->]]|(c' & Hc' & ?)]; [by left| |].
          -- right. exists c. split; [left|done].
          -- right. exists c'. split; [by right|done].
        * intros [?|(c' & Hc' & H1 & H2 & H3)]; [by left; left|].
          apply elem_of_cons in Hc' as [->|Hc']; [by left; right|].
          right. by exists c'.
      + split.
        * intros [?|(c' & Hc' & ?)]; [by left|]. right. exists c'. split; [by right|done].
        * intros [?|(c' & Hc' & H1 & H2 & H3)]; [by left|].
          apply elem_of_cons in Hc' as [->|Hc']; [congruence|].
          right. by exists c'. }
  rewrite H. unfold graph_get. rewrite lookup_empty. cbn. set_solver.
Qed.

Lemma dependents_dependencies cs a b :
  b ∈ graph_get a (build_dependents cs) ↔ a ∈ graph_get b (build_dependencies cs).
Proof. by rewrite build_dependents_spec, build_dependencies_spec. Qed.

(** *** The heap *)

Lemma pop_least_spec h x least rest :
  pop_least x h = (least, rest) → least ∈ x :: h ∧ x :: h ≡ₚ least :: rest.
Proof.
  revert x least rest. induction h as [|y h IH]; intros x least rest; cbn [pop_least].
  - intros [= <- <-]. split; [left|done].
  - destruct (pop_least y h) as [m r] eqn:E.
    destruct (IH _ _ _ E) as [Hin Hperm].
    destruct (entry_ltb m x); intros [= <- <-].
    + split; [by right|]. rewrite Hperm. apply Permutation_swap.
    + split; [left|done].
Qed.

Lemma heappop_spec h x rest :
  heappop h = Some (x, rest) → x ∈ h ∧ h ≡ₚ x :: rest.
Proof.
  destruct h as [|y h]; [done|]. unfold heappop. intros [= H].
  by apply pop_least_spec.
Qed.

Lemma heappop_none h : heappop h = None → h = [].
Proof. by destruct h. Qed.


(** ** The calendar and the capacity search *)

Lemma replace_time_next_day t : t < replace_time t 6 0 + 1440.
Proof.
  unfold replace_time. pose proof (Z.div_mod t 1440 ltac:(lia)).
  pose proof (Z.mod_pos_bound t 1440 ltac:(lia)). lia.
Qed.

Lemma next_shift_start_later t : t ≤ next_shift_start t.
Proof.
  unfold next_shift_start, replace_time, minute_of_day.
  pose proof (Z.div_mod t 1440 ltac:(lia)).
  pose proof (Z.mod_pos_bound t 1440 ltac:(lia)).
  repeat case_match; lia.
Qed.

Lemma usage_fold_shift (sch : list (string * Sched.t)) team m z :
  fold_left
    (λ usage kv,
       let sched := snd kv in
       if String.eqb (Sched.team sched) team
          && (Sched.start_time sched <=? m) && (m <? Sched.end_time sched)
       then usage + Sched.mechanics_required sched else usage)
    sch z = z + usage_at sch team m.
Proof.
  unfold usage_at. revert z. induction sch as [|kv sch IH]; intros z; cbn; [lia|].
  rewrite IH. symmetry. rewrite IH. destruct (_ && _); lia.
Qed.

Lemma usage_at_app sch1 sch2 team m :
  usage_at (sch1 ++ sch2) team m = usage_at sch1 team m + usage_at sch2 team m.
Proof.
  unfold usage_at at 1. rewrite fold_left_app. apply usage_fold_shift.
Qed.

Lemma usage_at_single k e team m :
  usage_at [(k, e)] team m =
  if String.eqb (Sched.team e) team && (Sched.start_time e <=? m) && (m <? Sched.end_time e)
  then Sched.mechanics_required e else 0.
Proof. unfold usage_at. cbn. by destruct (_ && _). Qed.

Lemma check_minutes_spec sch team cap need n start :
  check_minutes sch team cap need n start = true →
  ∀ m, start ≤ m < start + Z.of_nat n → usage_at sch team m + need ≤ cap.
Proof.
  revert start. induction n as [|n IH]; intros start H m Hm; [lia|].
  cbn [check_minutes] in H.
  destruct (usage_at sch team start + need >? cap) eqn:E; [done|].
  destruct (decide (m = start)) as [->|Hne]; [lia|].
  apply (IH (start + 1)); [done|lia].
Qed.

Lemma check_team_capacity_spec s team start_time end_time need :
  check_team_capacity_at_time s team start_time end_time need = true →
  ∀ m, start_time ≤ m < end_time →
    usage_at (task_schedule s) team m + need ≤ capacity_of s team.
Proof.
  intros H m Hm. unfold check_team_capacity_at_time in H.
  apply (check_minutes_spec _ _ _ _ _ _ H). lia.
Qed.

Lemma next_working_time_spec s fuel t p team need dur q start sh :
  next_working_time s fuel t p team need dur q = Some (start, sh) →
  t ≤ start ∧ is_working_day s start p = true
  ∧ check_team_capacity_at_time s team start (start + dur) need = true.
Proof.
  revert t. induction fuel as [|fuel IH]; intros t; [done|]. cbn [next_working_time].
  destruct (is_working_day s t p) eqn:Hw; cbn [negb].
  - destruct (available_shift s team q (minute_of_day t)) as [shift|].
    + destruct (check_team_capacity_at_time s team t (t + dur) need) eqn:Hc.
      * intros [= <- <-]. split; [lia|done].
      * intros H. apply IH in H as (? & ? & ?). split; [lia|done].
    + intros H. apply IH in H as (? & ? & ?).
      pose proof (next_shift_start_later t). split; [lia|done].
  - intros H. apply IH in H as (? & ? & ?).
    pose proof (replace_time_next_day t). split; [lia|done].
Qed.

Lemma get_next_working_time_spec s t p team need dur q start sh :
  get_next_working_time_with_capacity s t p team need dur q = Some (start, sh) →
  t ≤ start ∧ is_working_day s start p = true
  ∧ check_team_capacity_at_time s team start (start + dur) need = true.
Proof. unfold get_next_working_time_with_capacity. apply next_working_time_spec. Qed.

Lemma find_team_shift_spec shifts current_minutes shift :
  find_team_shift shifts current_minutes = Some shift →
  shift ∈ shifts ∧ in_shift shift current_minutes = true.
Proof.
  induction shifts as [|x shifts IH]; [done|]. cbn [find_team_shift].
  destruct (in_shift x current_minutes) eqn:E.
  - intros [= <-]. split; [left|done].
  - intros [Hin Hs]%IH. split; [by right|done].
Qed.

Lemma find_quality_shift_spec s shifts current_minutes shift :
  find_quality_shift s shifts current_minutes = Some shift →
  in_shift shift current_minutes = true ∧ any_quality_team s shift = true.
Proof.
  induction shifts as [|x shifts IH]; [done|]. cbn [find_quality_shift].
  destruct (in_shift x current_minutes && any_quality_team s x) eqn:E.
  - intros [= <-]. by apply andb_true_iff in E.
  - apply IH.
Qed.

Lemma next_working_time_shift s fuel t p team need dur q start sh :
  next_working_time s fuel t p team need dur q = Some (start, sh) →
  available_shift s team q (minute_of_day start) = Some sh.
Proof.
  revert t. induction fuel as [|fuel IH]; intros t; [done|]. cbn [next_working_time].
  destruct (negb (is_working_day s t p)); [apply IH|].
  destruct (available_shift s team q (minute_of_day t)) as [shift|] eqn:E; [|apply IH].
  destruct (check_team_capacity_at_time s team t (t + dur) need); [|apply IH].
  by intros [= <- <-].
Qed.

Lemma get_next_working_time_shift s t p team need dur q start sh :
  get_next_working_time_with_capacity s t p team need dur q = Some (start, sh) →
  available_shift s team q (minute_of_day start) = Some sh.
Proof. unfold get_next_working_time_with_capacity. apply next_working_time_shift. Qed.

#[local] Opaque get_next_working_time_with_capacity.

Lemma try_quality_shifts_spec sch earliest p need dur start team shift :
  try_quality_shifts sch earliest p need dur = Some (start, team, shift) →
  earliest ≤ start ∧ is_working_day sch start p = true
  ∧ check_team_capacity_at_time sch team start (start + dur) need = true.
Proof.
  unfold try_quality_shifts.
  set (P := λ acc : option (Z * string * string),
         match acc with
         | Some (start, team, _) =>
             earliest ≤ start ∧ is_working_day sch start p = true
             ∧ check_team_capacity_at_time sch team start (start + dur) need = true
         | None => True
         end).
  assert (H : ∀ l acc, P acc → P (fold_left
    (λ acc try_shift,
       match assign_quality_team_balanced sch try_shift need with
       | Some temp_team =>
           if String.eqb temp_team "" then acc
           else
             match get_next_working_time_with_capacity sch earliest p
                     temp_team need dur true with
             | Some (temp_start, _) =>
                 match acc with
                 | Some (scheduled_start, _, _) =>
                     if temp_start <? scheduled_start
                     then Some (temp_start, temp_team, try_shift) else acc
                 | None => Some (temp_start, temp_team, try_shift)
                 end
             | None => acc
             end
       | None => acc
       end) l acc)).
  { induction l as [|x l IH]; intros acc Hacc; [done|]. cbn [fold_left]. apply IH.
    destruct (assign_quality_team_balanced sch x need) as [tt|]; [|done].
    destruct (String.eqb tt ""); [done|].
    destruct (get_next_working_time_with_capacity sch earliest p tt need dur true)
      as [[ts ?]|] eqn:E; [|done].
    apply get_next_working_time_spec in E.
    destruct acc as [[[? ?] ?]|]; [|done].
    destruct (ts <? z); done. }
  intros E. specialize (H ["1st"; "2nd"; "3rd"]%string None I).
  rewrite E in H. exact H.
Qed.

Lemma find_slot_spec sch info earliest p start team shift :
  find_slot sch info earliest p = Some (start, team, shift) →
  earliest ≤ start ∧ is_working_day sch start p = true
  ∧ check_team_capacity_at_time sch team start (start + Task.duration info)
      (Task.mechanics_required info) = true.
Proof.
  unfold find_slot. destruct (Task.is_quality info).
  - apply try_quality_shifts_spec.
  - destruct (get_next_working_time_with_capacity _ _ _ _ _ _ _) as [[ts sh]|] eqn:E;
      [|done].
    intros [= <- <- <-]. by apply get_next_working_time_spec in E.
Qed.

(** *** The scan of the dependencies *)

Lemma dependency_scan_above sch cs task_id a ea deps e0 :
  dict_get a sch = Some ea →
  (∀ d ed, d ∈ deps → dict_get d sch = Some ed →
     is_finish_equals_start cs d task_id = true → d = a) →
  Sched.end_time ea ≤ e0 →
  Sched.end_time ea ≤ dependency_scan sch cs task_id deps e0.
Proof.
  intros Ha. unfold dependency_scan. revert e0.
  induction deps as [|d deps IH]; intros e0 Hfs He0; [done|]. cbn [fold_left].
  apply IH.
  - intros d' ed' Hd'. apply Hfs. by right.
  - destruct (dict_get d sch) as [ed|] eqn:Hd; [|done].
    destruct (is_finish_equals_start cs d task_id) eqn:Hf; [|lia].
    assert (d = a) as -> by (eapply Hfs; [left|done..]).
    rewrite Ha in Hd. by injection Hd as ->.
Qed.

Lemma dependency_scan_dep sch cs task_id a ea deps e0 :
  a ∈ deps →
  dict_get a sch = Some ea →
  (∀ d ed, d ∈ deps → dict_get d sch = Some ed →
     is_finish_equals_start cs d task_id = true → d = a) →
  Sched.end_time ea ≤ dependency_scan sch cs task_id deps e0.
Proof.
  intros Hin Ha. revert e0.
  induction deps as [|d deps IH]; intros e0 Hfs; [by apply elem_of_nil in Hin|].
  destruct (decide (d = a)) as [->|Hne].
  - unfold dependency_scan. cbn [fold_left]. rewrite Ha.
    apply (dependency_scan_above sch cs task_id a ea deps); [done| |].
    + intros d' ed' Hd'. apply Hfs. by right.
    + destruct (is_finish_equals_start cs a task_id); lia.
  - apply elem_of_cons in Hin as [->|Hin]; [done|].
    unfold dependency_scan. cbn [fold_left]. apply IH; [done|].
    intros d' ed' Hd'. apply Hfs. by right.
Qed.


(** ** The scheduling loop keeps its invariant *)


Lemma bind_ok {A B} (a : A) (f : A → result B) : (Ok a ≫= f) = f a.
Proof. done. Qed.

Lemma bind_raise {A B} e (f : A → result B) : (Raise e ≫= f) = Raise e.
Proof. done. Qed.

Lemma is_done_true st t :
  is_done st t = true ↔ t ∈ dict_keys (schedule st) ∨ t ∈ failed_tasks st.
Proof.
  unfold is_done. rewrite orb_true_iff, dict_mem_true, bool_decide_eq_true. done.
Qed.

Lemma is_done_false st t :
  is_done st t = false ↔ t ∉ dict_keys (schedule st) ∧ t ∉ failed_tasks st.
Proof.
  rewrite <- not_true_iff_false, is_done_true. tauto.
Qed.

Lemma is_done_mono st st' t :
  (∀ x, x ∈ dict_keys (schedule st) → x ∈ dict_keys (schedule st')) →
  failed_tasks st ⊆ failed_tasks st' →
  is_done st t = true → is_done st' t = true.
Proof. rewrite !is_done_true. set_solver. Qed.

Lemma filter_elem {A} (f : A → bool) (l : list A) x :
  x ∈ List.filter f l ↔ x ∈ l ∧ f x = true.
Proof. rewrite !list_elem_of_In. apply filter_In. Qed.

Lemma NoDup_list_filter {A} (f : A → bool) (l : list A) :
  NoDup l → NoDup (List.filter f l).
Proof. rewrite !NoDup_ListNoDup. apply List.NoDup_filter. Qed.

Ltac inv_open H :=
  destruct H as [inv_ready_nodup0 inv_ready_fresh0 inv_ready_deps0 inv_ready_live0
                 inv_failed0 inv_keys_nodup0 inv_sched_deps0 inv_sched_tasks0
                 inv_count0 inv_retry0 inv_precedence0 inv_capacity0 inv_working0].

Section EngineFacts.

Variable set_order : gset string → list string.
Hypothesis set_order_elem : ∀ X x, x ∈ set_order X ↔ x ∈ X.
Hypothesis set_order_nodup : ∀ X, NoDup (set_order X).
Variable priority_of : string → result float.
Variable s : scheduler.

Abbreviation cs := (build_dynamic_dependencies s).

Lemma push_ready_keys st cands ready h :
  push_ready priority_of st cands ready = Ok h →
  map snd h = map snd (ready_tasks st) ++ List.filter ready cands.
Proof.
  unfold push_ready. generalize (ready_tasks st) as h0. revert h.
  induction cands as [|t cands IH]; intros h h0; cbn [fold_left List.filter].
  - intros [= ->]. by rewrite app_nil_r.
  - rewrite bind_ok. destruct (ready t).
    + destruct (priority_of t) as [p|e].
      * rewrite bind_ok. intros H. apply IH in H. rewrite H.
        unfold heappush. rewrite map_app. cbn. by rewrite <- app_assoc.
      * rewrite bind_raise, fold_left_raise; [done|]. intros; apply bind_raise.
    + apply IH.
Qed.

Lemma push_ready_total st cands ready :
  (∀ t, t ∈ cands → ready t = true → ∃ p, priority_of t = Ok p) →
  ∃ h, push_ready priority_of st cands ready = Ok h.
Proof.
  unfold push_ready. generalize (ready_tasks st) as h0.
  induction cands as [|t cands IH]; intros h0 Hp; cbn [fold_left]; [by eexists|].
  rewrite bind_ok. destruct (ready t) eqn:Hr.
  - destruct (Hp t) as [p ->]; [left|done|]. rewrite bind_ok. apply IH.
    intros t' Ht'. apply Hp. by right.
  - apply IH. intros t' Ht'. apply Hp. by right.
Qed.

(** The popped entry and what is left of the heap. *)
Lemma heappop_keys st p t rest :
  engine_inv s st → heappop (ready_tasks st) = Some ((p, t), rest) →
  t ∈ map snd (ready_tasks st) ∧ t ∉ map snd rest ∧ NoDup (map snd rest)
  ∧ (∀ x, x ∈ map snd rest → x ∈ map snd (ready_tasks st)).
Proof.
  intros Hinv Hpop. apply heappop_spec in Hpop as [Hin Hperm].
  pose proof (inv_ready_nodup _ _ Hinv) as Hnd.
  assert (Hp : map snd (ready_tasks st) ≡ₚ t :: map snd rest).
  { by rewrite Hperm. }
  rewrite Hp in Hnd. apply NoDup_cons in Hnd as [Hnin Hnd].
  split; [|split; [done|split; [done|]]].
  - rewrite Hp. left.
  - intros x Hx. rewrite Hp. by right.
Qed.

(** Dropping the popped entry. *)
Lemma inv_drop st p t rest :
  engine_inv s st → heappop (ready_tasks st) = Some ((p, t), rest) →
  engine_inv s (mk_loop_state (schedule st) rest (failed_tasks st)
                  (task_retry_counts st) (scheduled_count st)).
Proof.
  intros Hinv Hpop. destruct (heappop_keys _ _ _ _ Hinv Hpop) as (Ht & Hnin & Hnd & Hsub).
  inv_open Hinv. constructor; cbn; try done.
  - intros x Hx. unfold is_done. cbn. by apply inv_ready_fresh0, Hsub.
  - intros x d Hx He. unfold is_done. cbn. by apply (inv_ready_deps0 x d); [apply Hsub|].
  - intros Hl x Hx. by apply inv_ready_live0, Hsub.
Qed.

(** Giving the popped task up. *)
Lemma inv_fail st p t rest counts :
  engine_inv s st → heappop (ready_tasks st) = Some ((p, t), rest) →
  (∀ x, (3 ≤ default O (counts !! x))%nat → x ∈ failed_tasks st ∪ {[t]}) →
  engine_inv s (mk_loop_state (schedule st) rest (failed_tasks st ∪ {[t]})
                  counts (scheduled_count st)).
Proof.
  intros Hinv Hpop Hcounts.
  destruct (heappop_keys _ _ _ _ Hinv Hpop) as (Ht & Hnin & Hnd & Hsub).
  pose proof (inv_ready_fresh _ _ Hinv t Ht) as Hfresh.
  apply is_done_false in Hfresh as [Hts Htf].
  inv_open Hinv. constructor; cbn; try done.
  - intros x Hx. apply is_done_false. cbn.
    pose proof (inv_ready_fresh0 x (Hsub x Hx)) as Hf.
    apply is_done_false in Hf as [? ?]. split; [done|].
    assert (x ≠ t) by (intros ->; done). set_solver.
  - intros x d Hx He. pose proof (inv_ready_deps0 x d (Hsub x Hx) He) as Hd.
    apply is_done_true in Hd. apply is_done_true. cbn. set_solver.
  - intros Hl x Hx. by apply inv_ready_live0, Hsub.
  - intros x Hx. apply elem_of_union in Hx as [Hx|Hx]; [by apply inv_failed0|].
    apply elem_of_singleton in Hx as ->. by apply dict_get_None_keys.
  - intros x d Hx He. pose proof (inv_sched_deps0 x d Hx He) as Hd.
    apply is_done_true in Hd. apply is_done_true. cbn. set_solver.
Qed.

(** Putting the popped task back. *)
Lemma inv_requeue st p t rest p' counts :
  engine_inv s st → heappop (ready_tasks st) = Some ((p, t), rest) →
  (∀ x, (3 ≤ default O (counts !! x))%nat → x ∈ failed_tasks st) →
  engine_inv s (mk_loop_state (schedule st) (heappush rest (p', t)) (failed_tasks st)
                  counts (scheduled_count st)).
Proof.
  intros Hinv Hpop Hcounts.
  destruct (heappop_keys _ _ _ _ Hinv Hpop) as (Ht & Hnin & Hnd & Hsub).
  assert (Hin : ∀ x, x ∈ map snd (heappush rest (p', t)) →
                     x ∈ map snd (ready_tasks st)).
  { intros x. unfold heappush. rewrite map_app, elem_of_app. cbn.
    intros [?|Hx%list_elem_of_singleton]; [by apply Hsub|by subst]. }
  inv_open Hinv. constructor; cbn; try done.
  - unfold heappush. rewrite map_app. cbn. apply NoDup_app. split; [done|].
    split; [|apply NoDup_singleton].
    intros x Hx Hx'%list_elem_of_singleton. by subst.
  - intros x Hx. unfold is_done. cbn. by apply inv_ready_fresh0, Hin.
  - intros x d Hx He. unfold is_done. cbn. by apply (inv_ready_deps0 x d); [apply Hin|].
  - intros Hl x Hx. by apply inv_ready_live0, Hin.
Qed.

Lemma inv_retry_or_fail st p t rest :
  engine_inv s st → heappop (ready_tasks st) = Some ((p, t), rest) →
  engine_inv s (retry_or_fail st rest p t).
Proof.
  intros Hinv Hpop. unfold retry_or_fail.
  destruct (S (default O (task_retry_counts st !! t)) <? 3)%nat eqn:E.
  - apply (inv_requeue st p t rest); [done..|]. intros x Hx.
    destruct (decide (x = t)) as [->|Hne].
    + rewrite lookup_insert_eq in Hx. cbn in Hx. apply Nat.ltb_lt in E. lia.
    + rewrite lookup_insert_ne in Hx by done. by apply (inv_retry _ _ Hinv).
  - apply (inv_fail st p t rest); [done..|]. intros x Hx.
    destruct (decide (x = t)) as [->|Hne]; [set_solver|].
    rewrite lookup_insert_ne in Hx by done.
    apply elem_of_union_l. by apply (inv_retry _ _ Hinv).
Qed.

(** Filling the empty queue. *)
Lemma inv_refill st st' :
  engine_inv s st → ready_tasks st = [] →
  refill set_order priority_of s st = Ok st' → engine_inv s st'.
Proof.
  intros Hinv Hempty. unfold refill.
  destruct (push_ready _ _ _ _) as [h|e] eqn:Hpush; [|done].
  rewrite bind_ok. intros [= <-].
  apply push_ready_keys in Hpush. rewrite Hempty in Hpush. cbn in Hpush.
  inv_open Hinv. constructor; cbn; try done.
  - rewrite Hpush. apply NoDup_list_filter, NoDup_list_filter, set_order_nodup.
  - intros t. rewrite Hpush, !filter_elem. intros [[_ Hd] _].
    unfold is_done in *. cbn. by apply negb_true_iff in Hd.
  - intros t d. rewrite Hpush, !filter_elem. intros [_ Hall] He.
    rewrite forallb_forall in Hall. unfold is_done in *. cbn.
    apply Hall. apply list_elem_of_In, set_order_elem.
    by apply build_dependencies_spec.
  - intros _ t. rewrite Hpush, !filter_elem. intros [[Ht _] _].
    apply set_order_elem in Ht. by apply elem_of_dom in Ht.
Qed.

Lemma capacity_of_set_task_schedule v team :
  capacity_of (set_task_schedule v s) team = capacity_of s team.
Proof. done. Qed.

Lemma is_working_day_set_task_schedule v t p :
  is_working_day (set_task_schedule v s) t p = is_working_day s t p.
Proof. done. Qed.

(** Placing the popped task. *)
Lemma inv_schedule st p t rest info product_line scheduled_start team shift h :
  engine_inv s st → heappop (ready_tasks st) = Some ((p, t), rest) →
  tasks s !! t = Some info →
  find_slot (set_task_schedule (schedule st) s) info
    (earliest_start_of set_order s st t) product_line
  = Some (scheduled_start, team, shift) →
  let sched :=
    Sched.mk scheduled_start (scheduled_start + Task.duration info) team product_line
      (Task.duration info) (Task.mechanics_required info) (Task.is_quality info)
      (Task.task_type info) shift in
  let st' :=
    mk_loop_state (dict_set t sched (schedule st)) rest (failed_tasks st)
      (task_retry_counts st) (S (scheduled_count st)) in
  push_ready priority_of st' (set_order (graph_get t (build_dependents cs)))
    (λ dependent,
       negb (is_done st' dependent)
       && forallb (is_done st')
            (set_order (graph_get dependent (build_dependencies cs)))) = Ok h →
  engine_inv s (mk_loop_state (schedule st') h (failed_tasks st')
                  (task_retry_counts st') (scheduled_count st')).
Proof.
  intros Hinv Hpop Hinfo Hslot sched st' Hpush.
  destruct (heappop_keys _ _ _ _ Hinv Hpop) as (Ht & Hnin & Hnd & Hsub).
  pose proof (inv_ready_fresh _ _ Hinv t Ht) as Hfresh.
  pose proof Hfresh as Hfresh'.
  apply is_done_false in Hfresh as [Hts Htf].
  assert (Hget : dict_get t (schedule st) = None) by (by apply dict_get_None_keys).
  apply push_ready_keys in Hpush. cbn [ready_tasks st'] in Hpush.
  apply find_slot_spec in Hslot as (Hearly & Hwork & Hcheck).
  assert (Hsch : schedule st' = schedule st ++ [(t, sched)]).
  { cbn. by apply dict_set_fresh. }
  assert (Hkeys : dict_keys (schedule st') = dict_keys (schedule st) ++ [t]).
  { rewrite Hsch. unfold dict_keys. by rewrite map_app. }
  assert (Hmono : ∀ x, is_done st x = true → is_done st' x = true).
  { intros x. apply is_done_mono; [|done]. intros y Hy. rewrite Hkeys.
    apply elem_of_app. by left. }
  assert (Hother : ∀ x, x ≠ t → is_done st x = false → is_done st' x = false).
  { intros x Hne. rewrite !is_done_false, Hkeys, elem_of_app, list_elem_of_singleton.
    cbn. tauto. }
  assert (Hlook : ∀ x, dict_get x (schedule st') =
                       if String.eqb t x then Some sched else dict_get x (schedule st)).
  { intros x. rewrite Hsch. by apply dict_get_snoc. }
  assert (Hself : ¬ edge_of cs t t).
  { intros He. pose proof (inv_ready_deps _ _ Hinv t t Ht He). congruence. }
  set (ready' := λ dependent,
         negb (is_done st' dependent)
         && forallb (is_done st')
              (set_order (graph_get dependent (build_dependencies cs)))) in *.
  assert (Hnew : ∀ x, x ∈ List.filter ready' (set_order (graph_get t (build_dependents cs)))
                 → edge_of cs t x ∧ is_done st' x = false
                   ∧ ∀ d, edge_of cs d x → is_done st' d = true).
  { intros x [Hx Hr]%filter_elem. apply set_order_elem, build_dependents_spec in Hx.
    unfold ready' in Hr. apply andb_true_iff in Hr as [Hr1 Hr2].
    apply negb_true_iff in Hr1. split; [done|]. split; [done|].
    intros d Hd. rewrite forallb_forall in Hr2. apply Hr2.
    by apply list_elem_of_In, set_order_elem, build_dependencies_spec. }
  inv_open Hinv. constructor; cbn [schedule ready_tasks failed_tasks
    task_retry_counts scheduled_count]; fold st'.
  - rewrite Hpush. apply NoDup_app. split; [done|]. split.
    + intros x Hx Hx'. apply Hnew in Hx' as (He & _).
      pose proof (inv_ready_deps0 x t (Hsub x Hx) He). congruence.
    + apply NoDup_list_filter, set_order_nodup.
  - intros x. rewrite Hpush, elem_of_app. intros [Hx|Hx].
    + change (is_done st' x = false). apply Hother; [by intros ->|].
      by apply inv_ready_fresh0, Hsub.
    + apply Hnew in Hx as (_ & Hx & _). exact Hx.
  - intros x d. rewrite Hpush, elem_of_app. intros [Hx|Hx] He.
    + change (is_done st' d = true). apply Hmono.
      by apply (inv_ready_deps0 x d); [apply Hsub|].
    + apply Hnew in Hx as (_ & _ & Hx). by apply Hx.
  - intros Hl x. rewrite Hpush, elem_of_app. intros [Hx|Hx].
    + by apply inv_ready_live0, Hsub.
    + apply Hnew in Hx as (He & _). by apply (Hl t x).
  - intros x Hx. change (dict_get x (schedule st') = None). rewrite Hlook.
    destruct (String.eqb_spec t x) as [->|Hne]; [done|]. by apply inv_failed0.
  - change (NoDup (dict_keys (schedule st'))). rewrite Hkeys.
    apply NoDup_app. split; [done|]. split; [|apply NoDup_singleton].
    intros x Hx Hx'%list_elem_of_singleton. by subst.
  - intros x d. change (x ∈ dict_keys (schedule st') → edge_of cs d x
                        → is_done st' d = true).
    rewrite Hkeys, elem_of_app, list_elem_of_singleton. intros [Hx| ->] He.
    + apply Hmono. by apply (inv_sched_deps0 x d).
    + apply Hmono. by apply (inv_ready_deps0 t d).
  - intros x. change (x ∈ dict_keys (schedule st') → is_Some (tasks s !! x)).
    rewrite Hkeys, elem_of_app, list_elem_of_singleton. intros [Hx| ->].
    + by apply inv_sched_tasks0.
    + by rewrite Hinfo.
  - change (S (scheduled_count st) = length (schedule st')).
    rewrite Hsch, length_app, inv_count0. cbn. lia.
  - done.
  - change (precedence_ok cs (schedule st')).
    intros a b ea eb Ha Hb Hedge Hcond. rewrite Hlook in Ha, Hb.
    destruct (String.eqb_spec t b) as [<-|Hnb].
    + injection Hb as <-. cbn [Sched.start_time sched].
      destruct (String.eqb_spec t a) as [<-|Hna]; [done|].
      etrans; [|exact Hearly]. unfold earliest_start_of.
      apply (dependency_scan_dep _ _ _ a ea); [|done|].
      * by apply set_order_elem, build_dependencies_spec.
      * intros d ed Hd Hed Hfs.
        apply set_order_elem, build_dependencies_spec in Hd.
        apply (Hcond d ed); [done| |done]. rewrite Hlook.
        destruct (String.eqb_spec t d) as [<-|?]; [congruence|done].
    + destruct (String.eqb_spec t a) as [<-|Hna].
      * assert (Hbk : b ∈ dict_keys (schedule st)).
        { apply dict_get_Some_keys. by eexists. }
        pose proof (inv_sched_deps0 b t Hbk Hedge). congruence.
      * apply (inv_precedence0 a b ea eb); [done..|].
        intros d ed Hd Hed Hfs. apply (Hcond d ed); [done| |done].
        rewrite Hlook. destruct (String.eqb_spec t d) as [<-|?]; [congruence|done].
  - change (capacity_ok s (schedule st')). intros T m Hor.
    rewrite Hsch, usage_at_app, usage_at_single. cbn [Sched.team Sched.start_time
      Sched.end_time Sched.mechanics_required sched].
    destruct (String.eqb team T && (scheduled_start <=? m)
              && (m <? scheduled_start + Task.duration info)) eqn:E.
    + apply andb_true_iff in E as [[E1 E2]%andb_true_iff E3].
      apply String.eqb_eq in E1 as <-. apply Z.leb_le in E2. apply Z.ltb_lt in E3.
      pose proof (check_team_capacity_spec _ _ _ _ _ Hcheck m ltac:(lia)) as Hc.
      rewrite capacity_of_set_task_schedule in Hc. exact Hc.
    + rewrite Z.add_0_r. apply inv_capacity0.
      destruct Hor as [?|(k & e & Hin & Hteam & Hm)]; [by left|]. right.
      rewrite Hsch, elem_of_app, list_elem_of_singleton in Hin.
      destruct Hin as [Hin|[= -> ->]]; [by exists k, e|].
      cbn in Hteam, Hm. subst T. exfalso.
      rewrite String.eqb_refl in E. cbn in E.
      apply andb_false_iff in E as [E|E]; [apply Z.leb_gt in E|apply Z.ltb_ge in E]; lia.
  - change (start_days_ok s (schedule st')). intros k e.
    rewrite Hsch, elem_of_app, list_elem_of_singleton. intros [Hin|[= -> ->]].
    + by apply (inv_working0 k e).
    + exact Hwork.
Qed.

Lemma inv_refilled st st1 :
  engine_inv s st →
  (if bool_decide (ready_tasks st = [])
      && (scheduled_count st + size (failed_tasks st) <? size (tasks s))%nat
   then refill set_order priority_of s st else Ok st) = Ok st1 →
  engine_inv s st1.
Proof.
  intros Hinv. destruct (bool_decide (ready_tasks st = [])) eqn:E; cbn [andb].
  - apply bool_decide_eq_true in E. destruct (_ <? _)%nat.
    + by apply inv_refill.
    + by intros [= <-].
  - by intros [= <-].
Qed.

(** One pass of the loop keeps the invariant. *)
Lemma inv_step st st' :
  engine_inv s st →
  step set_order priority_of s st = Continue st'
  ∨ step set_order priority_of s st = Break st' →
  engine_inv s st'.
Proof.
  intros Hinv. unfold step. cbn zeta.
  destruct (if bool_decide (ready_tasks st = []) && _ then _ else _)
    as [st1|e] eqn:Hre; [|by intros [?|?]].
  apply inv_refilled in Hre; [|done]. clear Hinv st.
  destruct (heappop (ready_tasks st1)) as [[[p t] rest]|] eqn:Hpop;
    [|by intros [?|[= <-]]].
  destruct (3 <=? default O (task_retry_counts st1 !! t))%nat eqn:E3.
  { intros [[= <-]|?]; [|done].
    apply (inv_fail st1 p t rest); [done..|]. intros x Hx.
    apply elem_of_union_l. by apply (inv_retry _ _ Hre). }
  destruct (tasks s !! t) as [info|] eqn:Hinfo; [|by intros [?|?]].
  destruct (match truthy (Task.product_line info) with
            | Some p0 => Some p0
            | None => parsed_product t
            end) as [product_line|].
  2:{ intros [[= <-]|?]; [|done]. by apply (inv_drop st1 p t rest). }
  destruct (find_slot _ _ _ _) as [[[scheduled_start team] shift]|] eqn:Hslot.
  2:{ intros [[= <-]|?]; [|done]. by apply inv_retry_or_fail. }
  destruct (push_ready _ _ _ _) as [h|e] eqn:Hpush; [|by intros [?|?]].
  intros [[= <-]|?]; [|done].
  eapply (inv_schedule st1 p t rest info product_line scheduled_start team shift h);
    done.
Qed.

(** A pass raises nothing when every dependency ends in a task and the
    priority of every task is defined. *)
Lemma step_no_raise st e :
  engine_inv s st → edges_live s →
  (∀ t, is_Some (tasks s !! t) → ∃ p, priority_of t = Ok p) →
  step set_order priority_of s st ≠ Raised e.
Proof.
  intros Hinv Hl Hp. unfold step. cbn zeta.
  destruct (if bool_decide (ready_tasks st = []) && _ then _ else _)
    as [st1|e1] eqn:Hre.
  2:{ exfalso. destruct (bool_decide (ready_tasks st = []) && _); [|done].
      unfold refill in Hre.
      destruct (push_ready_total st
        (List.filter (λ t, negb (is_done st t)) (set_order (dom (tasks s))))
        (λ task, forallb (is_done st)
           (set_order (graph_get task (build_dependencies cs))))) as [h Hh].
      - intros t [Ht _]%filter_elem _. apply Hp.
        by apply set_order_elem, elem_of_dom in Ht.
      - by rewrite Hh in Hre. }
  apply inv_refilled in Hre; [|done]. clear Hinv st.
  destruct (heappop (ready_tasks st1)) as [[[p t] rest]|] eqn:Hpop; [|done].
  destruct (3 <=? default O (task_retry_counts st1 !! t))%nat; [done|].
  destruct (heappop_keys _ _ _ _ Hre Hpop) as (Ht & _).
  destruct (inv_ready_live _ _ Hre Hl t Ht) as [info Hinfo]. rewrite Hinfo.
  destruct (match truthy (Task.product_line info) with
            | Some p0 => Some p0
            | None => parsed_product t
            end) as [product_line|]; [|done].
  destruct (find_slot _ _ _ _) as [[[scheduled_start team] shift]|]; [|done].
  match goal with
  | |- context [push_ready priority_of ?st2 ?c ?r] =>
      destruct (push_ready_total st2 c r) as [h Hh]
  end.
  - intros x Hx _. apply Hp. apply set_order_elem, build_dependents_spec in Hx.
    by apply (Hl t x).
  - by rewrite Hh.
Qed.

Lemma inv_run fuel st st' :
  engine_inv s st → run_loop set_order priority_of s fuel st = Ok st' →
  engine_inv s st'.
Proof.
  revert st. induction fuel as [|fuel IH]; intros st Hinv; cbn [run_loop].
  - by intros [= <-].
  - destruct (negb _ || _); [|by intros [= <-]].
    destruct (step set_order priority_of s st) as [st1|st1|e] eqn:Hstep; [| |done].
    + apply IH. apply (inv_step st st1); auto.
    + intros [= <-]. apply (inv_step st st1); auto.
Qed.

Lemma run_total fuel st :
  engine_inv s st → edges_live s →
  (∀ t, is_Some (tasks s !! t) → ∃ p, priority_of t = Ok p) →
  ∃ st', run_loop set_order priority_of s fuel st = Ok st'.
Proof.
  intros Hinv Hl Hp. revert st Hinv.
  induction fuel as [|fuel IH]; intros st Hinv; cbn [run_loop]; [by eexists|].
  destruct (negb _ || _); [|by eexists].
  destruct (step set_order priority_of s st) as [st1|st1|e] eqn:Hstep.
  - apply IH. apply (inv_step st st1); auto.
  - by eexists.
  - by apply step_no_raise in Hstep.
Qed.

Lemma inv_initial st :
  initial_state set_order priority_of s = Ok st → engine_inv s st.
Proof.
  unfold initial_state. cbn zeta.
  destruct (push_ready _ _ _ _) as [h|e] eqn:Hpush; [|done].
  rewrite bind_ok. intros [= <-]. apply push_ready_keys in Hpush. cbn in Hpush.
  constructor; cbn [schedule ready_tasks failed_tasks task_retry_counts
                    scheduled_count].
  - rewrite Hpush. apply NoDup_list_filter, set_order_nodup.
  - intros t _. apply is_done_false. cbn. split; [apply not_elem_of_nil|set_solver].
  - intros t d. rewrite Hpush. intros [_ Hd]%filter_elem He.
    apply bool_decide_eq_true in Hd.
    apply build_dependencies_spec in He. rewrite Hd in He. set_solver.
  - intros _ t. rewrite Hpush. intros [Ht _]%filter_elem.
    by apply set_order_elem, elem_of_dom in Ht.
  - done.
  - constructor.
  - intros t d Ht. by apply elem_of_nil in Ht.
  - intros t Ht. by apply elem_of_nil in Ht.
  - done.
  - intros t. rewrite lookup_empty. cbn. lia.
  - intros a b ea eb Ha. done.
  - intros T m [H|(k & e & Hin & _)]; [done|]. by apply elem_of_nil in Hin.
  - intros k e Hin. by apply elem_of_nil in Hin.
Qed.

(** The loop ends in a state that satisfies the invariant. *)
Lemma place_tasks_inv st :
  place_tasks set_order priority_of s = Ok st → engine_inv s st.
Proof.
  unfold place_tasks.
  destruct (initial_state set_order priority_of s) as [st0|e] eqn:H0; [|done].
  rewrite bind_ok. apply inv_run. by apply inv_initial.
Qed.

(** The loop ends without an exception when every dependency ends in a
    task and the priority of every task is defined. *)
Lemma place_tasks_total :
  edges_live s →
  (∀ t, is_Some (tasks s !! t) → ∃ p, priority_of t = Ok p) →
  ∃ st, place_tasks set_order priority_of s = Ok st.
Proof.
  intros Hl Hp. unfold place_tasks.
  destruct (initial_state set_order priority_of s) as [st0|e] eqn:H0.
  - rewrite bind_ok. apply run_total; [|done..]. by apply inv_initial.
  - exfalso. unfold initial_state in H0. cbn zeta in H0.
    destruct (push_ready_total (mk_loop_state [] [] ∅ ∅ 0)
      (set_order (dom (tasks s)))
      (λ task, bool_decide (graph_get task (build_dependencies cs) = ∅)))
      as [h Hh].
    + intros t Ht _. apply Hp. by apply set_order_elem, elem_of_dom in Ht.
    + by rewrite Hh in H0.
Qed.

End EngineFacts.


(** ** The priority of a task is defined on a graph without a cycle *)


Lemma in_tasks_true s t : in_tasks s t = true ↔ is_Some (tasks s !! t).
Proof. unfold in_tasks. apply bool_decide_eq_true. Qed.

Lemma get_path_length_total s cs (rank : string → nat) fuel t :
  (∀ c, c ∈ cs → in_tasks s (Second c) = true → (rank (Second c) < rank (First c))%nat) →
  (rank t < fuel)%nat → is_Some (tasks s !! t) →
  ∃ z, get_path_length s cs fuel t = Ok z.
Proof.
  intros Hrank. revert t. induction fuel as [|fuel IH]; intros t Hlt [info Hinfo]; [lia|].
  cbn [get_path_length]. rewrite Hinfo.
  assert (H : ∀ l m, (∀ c, c ∈ l → c ∈ cs) →
    ∃ z, fold_left
      (λ acc c,
         m ← acc;
         if String.eqb (First c) t && in_tasks s (Second c) then
           successor_path ← get_path_length s cs fuel (Second c);
           Ok (Z.max m successor_path)
         else Ok m) l (Ok m) = Ok z).
  { induction l as [|c l IHl]; intros m Hl; cbn [fold_left]; [by eexists|].
    rewrite bind_ok.
    destruct (String.eqb (First c) t && in_tasks s (Second c)) eqn:E.
    - apply andb_true_iff in E as [E1 E2]. apply String.eqb_eq in E1.
      destruct (IH (Second c)) as [z Hz].
      + specialize (Hrank c (Hl c ltac:(left)) E2). rewrite E1 in Hrank. lia.
      + by apply in_tasks_true.
      + rewrite Hz, bind_ok. apply IHl. intros c' Hc'. apply Hl. by right.
    - apply IHl. intros c' Hc'. apply Hl. by right. }
  destruct (H cs 0 ltac:(done)) as [z Hz]. rewrite Hz, bind_ok. by eexists.
Qed.

(** The conversions to a float raise nothing but [OverflowError]. *)
Lemma nearest_raises m e x : PyFloat.nearest m e = Raise x → x = OverflowError.
Proof. unfold PyFloat.nearest. cbn zeta. destruct (is_infinity _); congruence. Qed.

Lemma truediv_raises a b x :
  b ≠ 0 → PyFloat.truediv a b = Raise x → x = OverflowError.
Proof.
  intros Hb. unfold PyFloat.truediv. apply Z.eqb_neq in Hb. rewrite Hb.
  apply nearest_raises.
Qed.

Lemma calculate_task_priority_total s now (rank : string → nat) t :
  (∀ c, c ∈ build_dynamic_dependencies s → in_tasks s (Second c) = true →
     (rank (Second c) < rank (First c))%nat) →
  (∀ x, (rank x ≤ size (tasks s))%nat) →
  is_Some (tasks s !! t) →
  calculate_task_priority s now t ≠ Raise OverflowError →
  ∃ p, calculate_task_priority s now t = Ok p.
Proof.
  intros Hrank Hbound [info Hinfo]. unfold calculate_task_priority.
  repeat (case_bool_decide; [by eexists|]).
  destruct (match match task_to_product s !! t with
                  | Some p => truthy p
                  | None => match tasks s !! t with
                            | Some info0 => truthy (Task.product_line info0)
                            | None => None
                            end
                  end with
            | Some p => Some p
            | None => parsed_product t
            end) as [product_line|]; [|by eexists].
  destruct (dict_get product_line (delivery_dates s)); [|by eexists].
  unfold calculate_critical_path_length.
  destruct (get_path_length_total s (build_dynamic_dependencies s) rank
              (S (size (tasks s))) t) as [len Hlen]; [done| |by eexists|].
  { specialize (Hbound t). lia. }
  rewrite Hlen, bind_ok, Hinfo. cbn zeta.
  destruct (PyFloat.truediv (Task.duration info) 10) as [q|x] eqn:Hq.
  - rewrite bind_ok.
    destruct (PyFloat.of_int _) as [w|x] eqn:Hw.
    + rewrite bind_ok. by eexists.
    + apply nearest_raises in Hw as ->. by rewrite bind_raise.
  - apply truediv_raises in Hq as ->; [|done]. by rewrite bind_raise.
Qed.

(** A priority is never the DAG validation error. *)
Lemma get_path_length_not_dag s cs fuel t :
  get_path_length s cs fuel t ≠ Raise DagValidationFailed.
Proof.
  revert t. induction fuel as [|fuel IH]; intros t; [done|]. cbn [get_path_length].
  destruct (tasks s !! t) as [info|]; [|done].
  assert (H : ∀ l acc, acc ≠ Raise DagValidationFailed →
    fold_left
      (λ acc c,
         m ← acc;
         if String.eqb (First c) t && in_tasks s (Second c) then
           successor_path ← get_path_length s cs fuel (Second c);
           Ok (Z.max m successor_path)
         else Ok m) l acc ≠ Raise DagValidationFailed).
  { induction l as [|c l IHl]; intros acc Hacc; cbn [fold_left]; [done|].
    apply IHl. destruct acc as [m|e]; [|done]. rewrite bind_ok.
    destruct (_ && _); [|done].
    destruct (get_path_length s cs fuel (Second c)) as [z|e] eqn:E; [done|].
    rewrite bind_raise. intros [= ->]. by apply IH in E. }
  specialize (H cs (Ok 0) ltac:(done)).
  destruct (fold_left _ cs (Ok 0)) as [z|e]; [done|].
  rewrite bind_raise. congruence.
Qed.

Lemma calculate_task_priority_not_dag s now t :
  calculate_task_priority s now t ≠ Raise DagValidationFailed.
Proof.
  unfold calculate_task_priority.
  repeat (case_bool_decide; [done|]).
  destruct (match match task_to_product s !! t with
                  | Some p => truthy p
                  | None => match tasks s !! t with
                            | Some info0 => truthy (Task.product_line info0)
                            | None => None
                            end
                  end with
            | Some p => Some p
            | None => parsed_product t
            end) as [product_line|]; [|done].
  destruct (dict_get product_line (delivery_dates s)) as [delivery|]; [|done].
  unfold calculate_critical_path_length.
  pose proof (get_path_length_not_dag s (build_dynamic_dependencies s)
                (S (size (tasks s))) t) as Hnd.
  destruct (get_path_length _ _ _ _) as [len|e].
  - rewrite bind_ok. destruct (tasks s !! t) as [info|]; [|done]. cbn zeta.
    destruct (PyFloat.truediv (Task.duration info) 10) as [q|x] eqn:Hq.
    + rewrite bind_ok.
      destruct (PyFloat.of_int _) as [w|x] eqn:Hw; [done|].
      apply nearest_raises in Hw as ->. by rewrite bind_raise.
    + apply truediv_raises in Hq as ->; [|done]. by rewrite bind_raise.
  - rewrite bind_raise. congruence.
Qed.


(** ** The schedule built by [schedule_tasks] *)


Lemma in_order_elem (X : gset string) x : x ∈ in_order X ↔ x ∈ X.
Proof. apply elem_of_elements. Qed.

Lemma in_order_nodup (X : gset string) : NoDup (in_order X).
Proof. apply NoDup_elements. Qed.

Section ScheduleFacts.

Variable set_order : gset string → list string.
Hypothesis set_order_elem : ∀ X x, x ∈ set_order X ↔ x ∈ X.
Hypothesis set_order_nodup : ∀ X, NoDup (set_order X).

(** A successful call ends the loop in a state that satisfies the
    invariant, and stores the schedule of that state. *)
Lemma schedule_tasks_inv s now silent_mode s' :
  schedule_tasks set_order s now silent_mode = Ok s' →
  ∃ st, engine_inv (set_task_schedule [] s) st
        ∧ s' = set_task_schedule (schedule st) s.
Proof.
  unfold schedule_tasks. destruct (negb silent_mode && _); [done|].
  destruct (place_tasks _ _ _) as [st|e] eqn:Hplace; [|done].
  rewrite bind_ok. intros H. exists st. split.
  - by apply (place_tasks_inv set_order set_order_elem set_order_nodup _ _ st) in Hplace.
  - destruct (if silent_mode then Ok () else _); [|done].
    rewrite bind_ok in H. by injection H as <-.
Qed.

End ScheduleFacts.

(** The lower bound that the scan of the dependencies does keep.  For
    tasks [a] and [b] of the schedule and a dependency of [b] on [a]: [b]
    does not start before [a] ends, when no other scheduled predecessor
    of [b] is tied to [b] by a 'Finish = Start' constraint. *)
Theorem precedence_of_schedule (set_order : gset string → list string) s now silent_mode s' :
  (∀ X x, x ∈ set_order X ↔ x ∈ X) → (∀ X, NoDup (set_order X)) →
  schedule_tasks set_order s now silent_mode = Ok s' →
  ∀ a b ea eb,
    dict_get a (task_schedule s') = Some ea →
    dict_get b (task_schedule s') = Some eb →
    edge_of (build_dynamic_dependencies s) a b →
    (∀ d ed, edge_of (build_dynamic_dependencies s) d b →
       dict_get d (task_schedule s') = Some ed →
       is_finish_equals_start (build_dynamic_dependencies s) d b = true → d = a) →
    Sched.end_time ea ≤ Sched.start_time eb.
Proof.
  intros H1 H2 Hrun.
  destruct (schedule_tasks_inv set_order H1 H2 s now silent_mode s' Hrun)
    as (st & Hinv & ->).
  exact (inv_precedence _ _ Hinv).
Qed.

(** C2.  At every minute the crews of the assignments of a team that cover
    the minute sum to at most the capacity of the team; a minute that no
    assignment covers has the empty sum, which is within a capacity that
    is not negative. *)
Theorem capacity_of_schedule (set_order : gset string → list string) s now silent_mode s' :
  (∀ X x, x ∈ set_order X ↔ x ∈ X) → (∀ X, NoDup (set_order X)) →
  schedule_tasks set_order s now silent_mode = Ok s' →
  ∀ team m,
    0 ≤ capacity_of s team ∨ covered (task_schedule s') team m →
    usage_at (task_schedule s') team m ≤ capacity_of s team.
Proof.
  intros H1 H2 Hrun.
  destruct (schedule_tasks_inv set_order H1 H2 s now silent_mode s' Hrun)
    as (st & Hinv & ->).
  exact (inv_capacity _ _ Hinv).
Qed.

(** C3, as the code has it: every assignment starts on a working day of
    its product. *)
Theorem start_on_working_day (set_order : gset string → list string) s now silent_mode s' :
  (∀ X x, x ∈ set_order X ↔ x ∈ X) → (∀ X, NoDup (set_order X)) →
  schedule_tasks set_order s now silent_mode = Ok s' →
  ∀ task_id sched, (task_id, sched) ∈ task_schedule s' →
    is_working_day s (Sched.start_time sched) (Sched.product_line sched) = true.
Proof.
  intros H1 H2 Hrun.
  destruct (schedule_tasks_inv set_order H1 H2 s now silent_mode s' Hrun)
    as (st & Hinv & ->).
  exact (inv_working _ _ Hinv).
Qed.

(** The schedule holds each task once, and only tasks. *)
Lemma schedule_keys (set_order : gset string → list string) s now silent_mode s' :
  (∀ X x, x ∈ set_order X ↔ x ∈ X) → (∀ X, NoDup (set_order X)) →
  schedule_tasks set_order s now silent_mode = Ok s' →
  NoDup (dict_keys (task_schedule s'))
  ∧ ∀ t, t ∈ dict_keys (task_schedule s') → is_Some (tasks s' !! t).
Proof.
  intros H1 H2 Hrun.
  destruct (schedule_tasks_inv set_order H1 H2 s now silent_mode s' Hrun)
    as (st & Hinv & ->).
  split; [exact (inv_keys_nodup _ _ Hinv)|exact (inv_sched_tasks _ _ Hinv)].
Qed.

(** *** Exceptions of the loop *)

Section RaiseFacts.

Variable set_order : gset string → list string.
Variable priority_of : string → result float.
Variable s : scheduler.

Lemma push_ready_raise st cands ready e :
  push_ready priority_of st cands ready = Raise e → from_priority priority_of e.
Proof.
  unfold push_ready. generalize (ready_tasks st) as h0.
  induction cands as [|t cands IH]; intros h0; cbn [fold_left]; [done|].
  rewrite bind_ok. destruct (ready t); [|apply IH].
  destruct (priority_of t) as [p|e'] eqn:Hp.
  - rewrite bind_ok. apply IH.
  - rewrite bind_raise, fold_left_raise by (intros; apply bind_raise).
    intros [= <-]. left. by exists t.
Qed.

Lemma step_raise st e :
  step set_order priority_of s st = Raised e → from_priority priority_of e.
Proof.
  unfold step. cbn zeta.
  destruct (if bool_decide (ready_tasks st = []) && _ then _ else _)
    as [st1|e1] eqn:Hre.
  2:{ intros [= <-]. destruct (bool_decide (ready_tasks st = []) && _); [|done].
      unfold refill in Hre.
      destruct (push_ready _ _ _ _) as [h|e2] eqn:Hpush; [done|].
      rewrite bind_raise in Hre. injection Hre as <-.
      by apply push_ready_raise in Hpush. }
  destruct (heappop (ready_tasks st1)) as [[[p t] rest]|]; [|done].
  destruct (3 <=? default O (task_retry_counts st1 !! t))%nat; [done|].
  destruct (tasks s !! t) as [info|].
  2:{ intros [= <-]. right. by eexists. }
  destruct (match truthy (Task.product_line info) with
            | Some p0 => Some p0
            | None => parsed_product t
            end) as [product_line|]; [|done].
  destruct (find_slot _ _ _ _) as [[[scheduled_start team] shift]|]; [|done].
  destruct (push_ready _ _ _ _) as [h|e2] eqn:Hpush; [done|].
  intros [= <-]. by apply push_ready_raise in Hpush.
Qed.

Lemma run_loop_raise fuel st e :
  run_loop set_order priority_of s fuel st = Raise e → from_priority priority_of e.
Proof.
  revert st. induction fuel as [|fuel IH]; intros st; cbn [run_loop]; [done|].
  destruct (negb _ || _); [|done].
  destruct (step set_order priority_of s st) as [st1|st1|e1] eqn:Hstep; [apply IH|done|].
  intros [= <-]. by apply step_raise in Hstep.
Qed.

Lemma place_tasks_raise e :
  place_tasks set_order priority_of s = Raise e → from_priority priority_of e.
Proof.
  unfold place_tasks, initial_state. cbn zeta.
  destruct (push_ready _ _ _ _) as [h|e1] eqn:Hpush.
  - rewrite !bind_ok. apply run_loop_raise.
  - rewrite !bind_raise. intros [= <-]. by apply push_ready_raise in Hpush.
Qed.

End RaiseFacts.

(** C9.  In silent mode [schedule_tasks] is the placement alone and never
    raises the DAG validation error, whatever the graph; outside silent
    mode it raises that error exactly when [validate_dag] answers
    [False], and otherwise goes on to the same placement. *)
Theorem silent_mode_skips_validation (set_order : gset string → list string) s now :
  let s0 := set_task_schedule [] s in
  schedule_tasks set_order s now true ≠ Raise DagValidationFailed
  ∧ schedule_tasks set_order s now true
    = (st ← place_tasks set_order (calculate_task_priority s0 now) s0;
       Ok (set_task_schedule (schedule st) s0))
  ∧ (validate_dag set_order s = false →
     schedule_tasks set_order s now false = Raise DagValidationFailed)
  ∧ (validate_dag set_order s = true →
     schedule_tasks set_order s now false
     = (st ← place_tasks set_order (calculate_task_priority s0 now) s0;
        _ ← report s0 (schedule st);
        Ok (set_task_schedule (schedule st) s0))).
Proof.
  intros s0.
  assert (Hsilent : schedule_tasks set_order s now true
            = (st ← place_tasks set_order (calculate_task_priority s0 now) s0;
               Ok (set_task_schedule (schedule st) s0))).
  { unfold schedule_tasks. cbn [negb andb]. fold s0.
    by destruct (place_tasks _ _ _). }
  split; [|split; [done|split]].
  - rewrite Hsilent.
    destruct (place_tasks _ _ _) as [st|e] eqn:Hplace; [done|].
    rewrite bind_raise. intros [= ->].
    apply place_tasks_raise in Hplace as [[t Ht]|[k Hk]]; [|done].
    by apply calculate_task_priority_not_dag in Ht.
  - intros Hv. unfold schedule_tasks. cbn [negb andb].
    change (validate_dag set_order (set_task_schedule [] s))
      with (validate_dag set_order s).
    by rewrite Hv.
  - intros Hv. unfold schedule_tasks. cbn [negb andb].
    change (validate_dag set_order (set_task_schedule [] s))
      with (validate_dag set_order s).
    by rewrite Hv.
Qed.

(** Two tasks that wait for each other: validation refuses the graph,
    silent mode places nothing and returns. *)
Example cycle_is_skipped_in_silent_mode :
  validate_dag in_order ex_cycle = false
  ∧ schedule_tasks in_order ex_cycle 0 false = Raise DagValidationFailed
  ∧ (∃ s', schedule_tasks in_order ex_cycle 0 true = Ok s' ∧ task_schedule s' = []).
Proof.
  split; [by vm_compute|]. split; [by vm_compute|].
  eexists. split; [vm_compute; reflexivity|reflexivity].
Qed.

(** The two tasks that wait for each other, outside silent mode. *)
Lemma silent_mode_skips_validation_witness :
  validate_dag in_order ex_cycle = false
  ∧ schedule_tasks in_order ex_cycle 0 false = Raise DagValidationFailed.
Proof.
  assert (validate_dag in_order ex_cycle = false) as H by (vm_compute; reflexivity).
  split; [exact H|].
  exact (proj1 (proj2 (proj2 (silent_mode_skips_validation in_order ex_cycle 0))) H).
Defined.

(** Without a cycle validation accepts the graph. *)
Example chain_is_validated :
  validate_dag in_order ex_chain = true.
Proof. by vm_compute. Qed.

(** *** The claims on examples *)

Ltac run := vm_compute; reflexivity.

Lemma ex_chain_constraints :
  build_dynamic_dependencies ex_chain = [mk_constraint "P_1" "P_2" FinishLeStart].
Proof. reflexivity. Qed.

(** The chain of two tasks: task 2 starts when task 1 ends. *)
Lemma precedence_of_schedule_witness :
  ∃ s' ea eb,
    schedule_tasks in_order ex_chain 0 true = Ok s'
    ∧ dict_get "P_1" (task_schedule s') = Some ea
    ∧ dict_get "P_2" (task_schedule s') = Some eb
    ∧ Sched.end_time ea ≤ Sched.start_time eb.
Proof.
  eexists _, _, _. split; [run|]. split; [run|]. split; [run|].
  eapply (precedence_of_schedule in_order ex_chain 0 true _
            in_order_elem in_order_nodup ltac:(run) "P_1" "P_2");
    [run|run| |].
  - exists (mk_constraint "P_1" "P_2" FinishLeStart).
    rewrite ex_chain_constraints. split; [left|done].
  - intros d ed (c & Hc & <- & _) _ _.
    rewrite ex_chain_constraints in Hc. by apply list_elem_of_singleton in Hc as ->.
Defined.

(** C1, at the failing input.  Task 3 depends on task 1
    ('Finish <= Start', two hours) and on task 2 ('Finish = Start', half
    an hour).  For a 'Finish = Start' predecessor the scan sets the
    earliest start to the end of that predecessor, where the other branch
    takes the maximum.  When the set of dependencies yields task 2 after
    task 1, task 3 starts at 06:30 (minute 6150) and task 1 ends at 08:00
    (minute 6240); when it yields task 2 first, task 3 starts at 08:00. *)
Theorem finish_equals_start_drops_bound :
  (∃ s' ea eb,
     schedule_tasks in_order ex_override 0 true = Ok s'
     ∧ dict_get "P_1" (task_schedule s') = Some ea
     ∧ dict_get "P_3" (task_schedule s') = Some eb
     ∧ edge_of (build_dynamic_dependencies ex_override) "P_1" "P_3"
     ∧ in_order {["P_1"; "P_2"]} = ["P_1"; "P_2"]
     ∧ Sched.end_time ea = 6240
     ∧ Sched.start_time eb = 6150)
  ∧ (∃ s' ea eb,
       schedule_tasks (λ X, rev (elements X)) ex_override 0 true = Ok s'
       ∧ dict_get "P_1" (task_schedule s') = Some ea
       ∧ dict_get "P_3" (task_schedule s') = Some eb
       ∧ Sched.end_time ea = 6240
       ∧ Sched.start_time eb = 6240).
Proof.
  split.
  - eexists _, _, _. split; [run|]. split; [run|]. split; [run|]. split.
    + exists (mk_constraint "P_1" "P_3" FinishLeStart). split; [left|done].
    + split; [run|]. split; run.
  - eexists _, _, _. split; [run|]. split; [run|]. split; [run|]. split; run.
Qed.

(** A 'Finish = Start' constraint alone does not give equality: the
    inspection of task 1 waits for the second shift, the only one its
    team works. *)
Example finish_equals_start_is_not_tight :
  ∃ s' ea eb,
    schedule_tasks in_order ex_inspection 0 true = Ok s'
    ∧ dict_get "P_1" (task_schedule s') = Some ea
    ∧ dict_get "P_10001" (task_schedule s') = Some eb
    ∧ is_finish_equals_start (build_dynamic_dependencies ex_inspection)
        "P_1" "P_10001" = true
    ∧ Sched.end_time ea = start_date + 60
    ∧ Sched.start_time eb = 4 * 1440 + 870.
Proof.
  eexists _, _, _. split; [run|]. split; [run|]. split; [run|]. split; [run|].
  split; run.
Qed.

(** The chain of two tasks at 06:10 of the first day: one mechanic of
    team M is at work, and the team has one. *)
Lemma capacity_of_schedule_witness :
  ∃ s', schedule_tasks in_order ex_chain 0 true = Ok s'
        ∧ 0 ≤ capacity_of ex_chain "M"
        ∧ usage_at (task_schedule s') "M" (start_date + 10) ≤ capacity_of ex_chain "M".
Proof.
  eexists. split; [run|]. split; [by vm_compute|].
  apply (capacity_of_schedule in_order ex_chain 0 true _
           in_order_elem in_order_nodup ltac:(run) "M" (start_date + 10)).
  left. by vm_compute.
Defined.

(** The chain of two tasks starts on a Friday. *)
Lemma start_on_working_day_witness :
  ∃ s' sched,
    schedule_tasks in_order ex_chain 0 true = Ok s'
    ∧ dict_get "P_1" (task_schedule s') = Some sched
    ∧ is_working_day ex_chain (Sched.start_time sched) (Sched.product_line sched) = true.
Proof.
  eexists _, _. split; [run|]. split; [run|].
  apply (start_on_working_day in_order ex_chain 0 true _
           in_order_elem in_order_nodup ltac:(run) "P_1").
  apply dict_get_Some_elem. run.
Defined.

(** C3 as stated fails: a task of 2000 minutes starts on Friday
    2025-08-22 at 06:00 and is still running at 00:00 on Saturday, which is
    not a working day. *)
Lemma working_day_counterexample :
  ∃ s' sched,
    schedule_tasks in_order ex_long 0 true = Ok s'
    ∧ dict_get "P_1" (task_schedule s') = Some sched
    ∧ Sched.start_time sched ≤ 5 * 1440 < Sched.end_time sched
    ∧ is_working_day ex_long (5 * 1440) (Sched.product_line sched) = false.
Proof.
  eexists _, _. split; [run|]. split; [run|]. split; [by vm_compute|run].
Qed.


(** ** A search that finds no slot *)


(** The graph has no cycle: its tasks can be numbered so that every
    constraint goes down, with numbers up to the count of tasks. *)
Lemma silent_run_total (set_order : gset string → list string) s now (rank : string → nat) :
  (∀ X x, x ∈ set_order X ↔ x ∈ X) → (∀ X, NoDup (set_order X)) →
  edges_live s →
  (∀ c, c ∈ build_dynamic_dependencies s → in_tasks s (Second c) = true →
     (rank (Second c) < rank (First c))%nat) →
  (∀ x, (rank x ≤ size (tasks s))%nat) →
  (∀ t, calculate_task_priority (set_task_schedule [] s) now t ≠ Raise OverflowError) →
  ∃ s', schedule_tasks set_order s now true = Ok s'.
Proof.
  intros H1 H2 Hl Hrank Hbound Hover. unfold schedule_tasks. cbn [negb andb].
  destruct (place_tasks_total set_order H1 H2
              (calculate_task_priority (set_task_schedule [] s) now)
              (set_task_schedule [] s)) as [st Hst].
  - exact Hl.
  - intros t Ht. by apply (calculate_task_priority_total _ now rank).
  - rewrite Hst, !bind_ok. by eexists.
Qed.

(** A pass of the loop whose search finds no slot does not raise: it
    counts the failure and pushes the task back with its priority plus
    the float 0.1, or, at the third failure, marks the task failed and
    leaves it out of the queue; the schedule is as it was. *)
Theorem failed_search_is_requeued (set_order : gset string → list string)
    (priority_of : string → result float) s st p t rest info product_line :
  ready_tasks st ≠ [] →
  heappop (ready_tasks st) = Some ((p, t), rest) →
  (default O (task_retry_counts st !! t) < 3)%nat →
  tasks s !! t = Some info →
  match truthy (Task.product_line info) with
  | Some p0 => Some p0
  | None => parsed_product t
  end = Some product_line →
  find_slot (set_task_schedule (schedule st) s) info
    (earliest_start_of set_order s st t) product_line = None →
  ∃ st', step set_order priority_of s st = Continue st'
    ∧ schedule st' = schedule st
    ∧ task_retry_counts st' !! t = Some (S (default O (task_retry_counts st !! t)))
    ∧ if (S (default O (task_retry_counts st !! t)) <? 3)%nat
      then ready_tasks st' = rest ++ [((p + PyFloat.tenth)%float, t)]
           ∧ failed_tasks st' = failed_tasks st
      else ready_tasks st' = rest
           ∧ failed_tasks st' = failed_tasks st ∪ {[t]}.
Proof.
  intros Hne Hpop Hcount Hinfo Hprod Hslot.
  exists (retry_or_fail st rest p t). split.
  - unfold step. cbn zeta.
    replace (bool_decide (ready_tasks st = [])) with false
      by (symmetry; by apply bool_decide_eq_false).
    cbn [andb]. rewrite Hpop.
    replace (3 <=? default O (task_retry_counts st !! t))%nat with false
      by (symmetry; apply Nat.leb_gt; lia).
    rewrite Hinfo, Hprod, Hslot. done.
  - unfold retry_or_fail.
    destruct (S (default O (task_retry_counts st !! t)) <? 3)%nat;
      cbn; rewrite lookup_insert_eq; done.
Qed.

(** The task whose team works no shift, alone in the queue: the first
    search fails and the task goes back with 0.1 added to its score. *)
Lemma failed_search_is_requeued_witness :
  ∃ st', step in_order (calculate_task_priority ex_no_shift 0) ex_no_shift
           (mk_loop_state [] [(50888%float, "P_1")] ∅ ∅ 0) = Continue st'
         ∧ ready_tasks st' = [((50888 + PyFloat.tenth)%float, "P_1")]
         ∧ failed_tasks st' = ∅.
Proof.
  destruct (failed_search_is_requeued in_order
              (calculate_task_priority ex_no_shift 0) ex_no_shift
              (mk_loop_state [] [(50888%float, "P_1")] ∅ ∅ 0) 50888%float "P_1" []
              (production 60 "M" 1) "Product P")
    as (st' & Hst' & _ & _ & Hq); [done|run|vm_compute; lia|run|run|run|].
  exists st'. split; [exact Hst'|]. exact Hq.
Defined.

(** What [schedule_tasks] returns is the schedule of the last state of
    the loop, and a task that was marked failed, as every task with three
    failed searches is, has no entry in it. *)
Theorem failed_tasks_are_left_out (set_order : gset string → list string)
    s now silent_mode s' :
  (∀ X x, x ∈ set_order X ↔ x ∈ X) → (∀ X, NoDup (set_order X)) →
  schedule_tasks set_order s now silent_mode = Ok s' →
  ∃ st,
    place_tasks set_order (calculate_task_priority (set_task_schedule [] s) now)
      (set_task_schedule [] s) = Ok st
    ∧ task_schedule s' = schedule st
    ∧ (∀ t, (3 ≤ default O (task_retry_counts st !! t))%nat → t ∈ failed_tasks st)
    ∧ (∀ t, t ∈ failed_tasks st → dict_get t (task_schedule s') = None).
Proof.
  intros H1 H2. unfold schedule_tasks. destruct (negb silent_mode && _); [done|].
  destruct (place_tasks _ _ _) as [st|e] eqn:Hplace; [|done].
  rewrite bind_ok. intros H. exists st.
  assert (Hs' : task_schedule s' = schedule st).
  { destruct (if silent_mode then Ok () else _); [|done].
    rewrite bind_ok in H. by injection H as <-. }
  apply (place_tasks_inv set_order H1 H2) in Hplace as Hinv.
  split; [done|]. split; [done|]. split.
  - exact (inv_retry _ _ Hinv).
  - intros t Ht. rewrite Hs'. by apply (inv_failed _ _ Hinv).
Qed.

(** The task whose team works no shift: the run returns an empty
    schedule, and the loop ended with the task failed three times. *)
Lemma failed_tasks_are_left_out_witness :
  ∃ s' st,
    schedule_tasks in_order ex_no_shift 0 true = Ok s'
    ∧ place_tasks in_order (calculate_task_priority (set_task_schedule [] ex_no_shift) 0)
        (set_task_schedule [] ex_no_shift) = Ok st
    ∧ task_retry_counts st !! "P_1" = Some 3%nat
    ∧ "P_1" ∈ failed_tasks st
    ∧ dict_get "P_1" (task_schedule s') = None.
Proof.
  destruct (failed_tasks_are_left_out in_order ex_no_shift 0 true
              (set_task_schedule [] ex_no_shift) in_order_elem in_order_nodup
              ltac:(run))
    as (st & Hst & Hs & Hretry & Hout).
  exists (set_task_schedule [] ex_no_shift), st.
  split; [run|]. split; [exact Hst|].
  assert (Hc : task_retry_counts st !! "P_1" = Some 3%nat).
  { assert (Hev : ∃ st0, place_tasks in_order
        (calculate_task_priority (set_task_schedule [] ex_no_shift) 0)
        (set_task_schedule [] ex_no_shift) = Ok st0
        ∧ task_retry_counts st0 !! "P_1" = Some 3%nat)
      by (eexists; split; run).
    destruct Hev as (st0 & Hst0 & Hc0). congruence. }
  split; [exact Hc|].
  assert (Hf : "P_1" ∈ failed_tasks st) by (apply Hretry; rewrite Hc; cbn; lia).
  split; [exact Hf|]. by apply Hout.
Defined.

Lemma ex_no_shift_live : edges_live ex_no_shift.
Proof. intros a b (c & Hc & _). by apply elem_of_nil in Hc. Qed.

(** The silent run returns when every dependency ends in a task, the
    graph of the dependencies has no cycle and no score is beyond the
    floats: the exceptions the loop can raise are those of the priority
    and the [KeyError] of a task that is missing. *)
Theorem silent_run_returns (set_order : gset string → list string) s now
    (rank : string → nat) :
  (∀ X x, x ∈ set_order X ↔ x ∈ X) → (∀ X, NoDup (set_order X)) →
  edges_live s →
  (∀ c, c ∈ build_dynamic_dependencies s → in_tasks s (Second c) = true →
     (rank (Second c) < rank (First c))%nat) →
  (∀ x, (rank x ≤ size (tasks s))%nat) →
  (∀ t, calculate_task_priority (set_task_schedule [] s) now t ≠ Raise OverflowError) →
  ∃ s', schedule_tasks set_order s now true = Ok s'.
Proof. apply silent_run_total. Qed.

Lemma ex_no_shift_scores t :
  calculate_task_priority (set_task_schedule [] ex_no_shift) 0 t ≠ Raise OverflowError.
Proof.
  unfold calculate_task_priority.
  repeat (case_bool_decide; [done|]).
  destruct (decide (t = "P_1")) as [->|Hne]; [by vm_compute|].
  replace (tasks (set_task_schedule [] ex_no_shift) !! t) with (@None Task.t).
  2:{ symmetry. cbn. rewrite lookup_insert_ne by done. apply lookup_empty. }
  replace (task_to_product (set_task_schedule [] ex_no_shift) !! t)
    with (@None string) by (symmetry; apply lookup_empty).
  destruct (parsed_product t) as [product_line|]; [|done].
  destruct (dict_get product_line _); [|done].
  unfold calculate_critical_path_length. cbn [get_path_length].
  replace (tasks (set_task_schedule [] ex_no_shift) !! t) with (@None Task.t).
  2:{ symmetry. cbn. rewrite lookup_insert_ne by done. apply lookup_empty. }
  by rewrite bind_raise.
Qed.

(** The task whose team works no shift: nothing is scheduled and the run
    returns. *)
Lemma silent_run_returns_witness :
  ∃ s', schedule_tasks in_order ex_no_shift 0 true = Ok s'.
Proof.
  apply (silent_run_returns in_order ex_no_shift 0 (λ _, O)
           in_order_elem in_order_nodup ex_no_shift_live).
  - intros c Hc. by apply elem_of_nil in Hc.
  - intros x. lia.
  - exact ex_no_shift_scores.
Defined.



(** ** Slack and makespan *)


(** C4, as the code has it: the slack is infinite when the product line
    or the delivery date of the task cannot be resolved; when both resolve
    and the task is not in the schedule the slack is 0. *)
Theorem slack_of_unresolved_or_unscheduled (set_order : gset string → list string)
    s task_id :
  (slack_product_line s task_id = None →
   calculate_slack_time set_order s task_id = SlackInf)
  ∧ (∀ product_line,
       slack_product_line s task_id = Some product_line →
       dict_get product_line (delivery_dates s) = None →
       calculate_slack_time set_order s task_id = SlackInf)
  ∧ (∀ product_line delivery_date,
       slack_product_line s task_id = Some product_line →
       dict_get product_line (delivery_dates s) = Some delivery_date →
       dict_get task_id (task_schedule s) = None →
       calculate_slack_time set_order s task_id = SlackMinutes 0).
Proof.
  unfold calculate_slack_time. split; [|split].
  - by intros ->.
  - by intros p -> ->.
  - by intros p d -> -> ->.
Qed.

(** A task of an unknown product, and an unscheduled task of the chain. *)
Lemma slack_of_unresolved_or_unscheduled_witness :
  calculate_slack_time in_order ex_chain "nowhere" = SlackInf
  ∧ calculate_slack_time in_order ex_chain "P_1" = SlackMinutes 0.
Proof.
  split.
  - apply (proj1 (slack_of_unresolved_or_unscheduled in_order ex_chain "nowhere")).
    reflexivity.
  - apply (proj2 (proj2 (slack_of_unresolved_or_unscheduled in_order ex_chain "P_1"))
             "Product P" (30 * 1440)); reflexivity.
Defined.

(** C4 as stated fails: task 1 of the chain is a task instance, it is not
    in the schedule (nothing is scheduled yet), and its slack is 0. *)
Lemma slack_counterexample :
  is_Some (tasks ex_chain !! "P_1")
  ∧ dict_get "P_1" (task_schedule ex_chain) = None
  ∧ calculate_slack_time in_order ex_chain "P_1" = SlackMinutes 0
  ∧ calculate_slack_time in_order ex_chain "P_1" ≠ SlackInf.
Proof.
  split; [eexists; run|]. split; [run|]. split; [run|].
  vm_compute. discriminate.
Qed.

(** *** Makespan *)

Lemma count_working_days_spec s n d0 :
  count_working_days s n d0
  = Z.of_nat (length (List.filter (working_for_some_product s)
                        (map (λ i, d0 + Z.of_nat i) (seq 0 n)))).
Proof.
  revert d0. induction n as [|n IH]; intros d0; [done|].
  cbn [count_working_days seq map List.filter]. rewrite IH.
  replace (d0 + Z.of_nat 0) with d0 by lia.
  rewrite <- seq_shift, map_map.
  replace (map (λ i, d0 + 1 + Z.of_nat i) (seq 0 n))
    with (map (λ i, d0 + Z.of_nat (S i)) (seq 0 n)).
  2:{ apply map_ext. intros i. lia. }
  unfold working_for_some_product at 2.
  destruct (existsb _ _); cbn [length]; lia.
Qed.

Lemma min_start_le sched k e :
  (k, e) ∈ sched → min_start sched ≤ Sched.start_time e.
Proof.
  destruct sched as [|kv sched]; [by intros ?%elem_of_nil|]. cbn [min_start].
  assert (H : ∀ (l : list (string * Sched.t)) m,
              fold_left (λ m kv, Z.min m (Sched.start_time kv.2)) l m ≤ m
              ∧ ∀ k' e', (k', e') ∈ l →
                  fold_left (λ m kv, Z.min m (Sched.start_time kv.2)) l m
                  ≤ Sched.start_time e').
  { induction l as [|x l IH]; intros m; cbn [fold_left].
    - split; [lia|]. by intros ? ? ?%elem_of_nil.
    - destruct (IH (Z.min m (Sched.start_time x.2))) as [H1 H2]. split; [lia|].
      intros k' e' [<-|Hin]%elem_of_cons; [cbn [snd] in *; lia|]. by apply (H2 k'). }
  intros [[= <-]|Hin]%elem_of_cons.
  - cbn. apply H.
  - by apply (proj2 (H sched _) k).
Qed.

Lemma max_end_ge sched k e :
  (k, e) ∈ sched → Sched.end_time e ≤ max_end sched.
Proof.
  destruct sched as [|kv sched]; [by intros ?%elem_of_nil|]. cbn [max_end].
  assert (H : ∀ (l : list (string * Sched.t)) m,
              m ≤ fold_left (λ m kv, Z.max m (Sched.end_time kv.2)) l m
              ∧ ∀ k' e', (k', e') ∈ l →
                  Sched.end_time e'
                  ≤ fold_left (λ m kv, Z.max m (Sched.end_time kv.2)) l m).
  { induction l as [|x l IH]; intros m; cbn [fold_left].
    - split; [lia|]. by intros ? ? ?%elem_of_nil.
    - destruct (IH (Z.max m (Sched.end_time x.2))) as [H1 H2]. split; [lia|].
      intros k' e' [<-|Hin]%elem_of_cons; [cbn [snd] in *; lia|]. by apply (H2 k'). }
  intros [[= <-]|Hin]%elem_of_cons.
  - cbn. apply H.
  - by apply (proj2 (H sched _) k).
Qed.

(** Fewer entries than tasks: some task is not scheduled. *)
Lemma unscheduled_count s :
  NoDup (dict_keys (task_schedule s)) →
  (∀ t, t ∈ dict_keys (task_schedule s) → is_Some (tasks s !! t)) →
  (length (task_schedule s) < size (tasks s))%nat
  ↔ ∃ t, is_Some (tasks s !! t) ∧ dict_get t (task_schedule s) = None.
Proof.
  intros Hnd Hsub.
  set (K := list_to_set (dict_keys (task_schedule s)) : gset string).
  assert (HK : size K = length (task_schedule s)).
  { unfold K. rewrite size_list_to_set by done. unfold dict_keys.
    by rewrite length_map. }
  assert (Hincl : K ⊆ dom (tasks s)).
  { intros t Ht. apply elem_of_list_to_set in Ht. apply elem_of_dom. by apply Hsub. }
  rewrite <- HK, <- (size_dom (tasks s)). split.
  - intros Hlt.
    destruct (decide (dom (tasks s) ∖ K = ∅)) as [Hd|Hd].
    + assert (Hs : dom (tasks s) ⊆ K).
      { intros t Ht. destruct (decide (t ∈ K)) as [|Hn]; [done|]. exfalso.
        assert (Hin : t ∈ dom (tasks s) ∖ K) by (by apply elem_of_difference).
        rewrite Hd in Hin. by apply not_elem_of_empty in Hin. }
      apply subseteq_size in Hs. lia.
    + apply set_choose_L in Hd as (t & Ht).
      apply elem_of_difference in Ht as [Ht HtK]. exists t. split.
      * by apply elem_of_dom.
      * apply dict_get_None_keys. intros Hin. apply HtK.
        by apply elem_of_list_to_set.
  - intros (t & Ht & Hget). apply subset_size. split; [done|].
    intros Hd. apply elem_of_dom in Ht. apply Hd in Ht.
    apply elem_of_list_to_set in Ht. by apply dict_get_None_keys in Hget.
Qed.

(** C5, as the code has it.  On a schedule that holds each of its tasks
    once: with nothing scheduled the makespan is 0; otherwise it is the
    sentinel 999999 when a task instance is missing from the schedule, and
    else the count of calendar days between the earliest start and the
    latest end that are a working day of at least one product. *)
Theorem makespan_cases s :
  NoDup (dict_keys (task_schedule s)) →
  (∀ t, t ∈ dict_keys (task_schedule s) → is_Some (tasks s !! t)) →
  (task_schedule s = [] → calculate_makespan s = 0)
  ∧ (task_schedule s ≠ [] →
     (∃ t, is_Some (tasks s !! t) ∧ dict_get t (task_schedule s) = None) →
     calculate_makespan s = 999999)
  ∧ (task_schedule s ≠ [] →
     (∀ t, is_Some (tasks s !! t) → is_Some (dict_get t (task_schedule s))) →
     calculate_makespan s = working_day_count s).
Proof.
  intros Hnd Hsub. pose proof (unscheduled_count s Hnd Hsub) as Hcount.
  unfold calculate_makespan. split; [|split].
  - by intros ->.
  - intros Hne Hmiss. apply Hcount in Hmiss.
    destruct (task_schedule s) as [|kv l] eqn:E; [done|].
    apply Nat.ltb_lt in Hmiss. by rewrite Hmiss.
  - intros Hne Hall.
    assert (Hge : ¬ (length (task_schedule s) < size (tasks s))%nat).
    { intros (t & Ht & Hget)%Hcount. apply Hall in Ht. rewrite Hget in Ht.
      by destruct Ht. }
    destruct (task_schedule s) as [|kv l] eqn:E; [done|].
    apply Nat.ltb_nlt in Hge. rewrite Hge.
    rewrite count_working_days_spec. unfold working_day_count, days_between.
    by rewrite E.
Qed.

(** The chain of two tasks, scheduled: one working day. *)
Lemma makespan_cases_witness :
  ∃ s', schedule_tasks in_order ex_chain 0 true = Ok s'
        ∧ calculate_makespan s' = working_day_count s'
        ∧ working_day_count s' = 1.
Proof.
  eexists. split; [run|]. split; [|run].
  match goal with
  | |- calculate_makespan ?s' = _ =>
      destruct (schedule_keys in_order ex_chain 0 true s'
                  in_order_elem in_order_nodup ltac:(run)) as [Hnd Hsub];
      apply (proj2 (proj2 (makespan_cases s' Hnd Hsub)))
  end.
  - done.
  - intros t [info Ht]. apply dict_get_Some_keys.
    assert (Hdom : t ∈ dom (tasks ex_chain)) by (apply elem_of_dom; by eexists).
    assert (Hd : dom (tasks ex_chain) = {["P_1"; "P_2"]}) by (by vm_compute).
    rewrite Hd in Hdom.
    apply elem_of_union in Hdom as [->%elem_of_singleton| ->%elem_of_singleton];
      by vm_compute; set_solver.
Defined.

(** C5 as stated fails when no instance at all is scheduled: the only
    task of the input fails its three searches, the schedule stays empty
    and the makespan is 0, not 999999. *)
Lemma makespan_counterexample :
  ∃ s', schedule_tasks in_order ex_no_shift 0 true = Ok s'
        ∧ is_Some (tasks s' !! "P_1")
        ∧ dict_get "P_1" (task_schedule s') = None
        ∧ calculate_makespan s' = 0.
Proof.
  eexists. split; [run|]. split; [eexists; run|]. split; run.
Qed.


(** ** Two runs on the same input *)



Section Extensionality.

Variable set_order : gset string → list string.
Variables priority1 priority2 : string → result float.
Hypothesis priority_eq : ∀ t, priority1 t = priority2 t.
Variable s : scheduler.





End Extensionality.





(** ** Optimizers *)


Section ConfigFacts.
Context {V : Type}.
Implicit Types (d : list (string * V)) (k : string) (v : V).

Lemma dict_set_keys_present k v d :
  is_Some (dict_get k d) → dict_keys (dict_set k v d) = dict_keys d.
Proof.
  induction d as [|[k0 v0] d IH]; [by intros [? ?]|]. rewrite dict_get_cons. cbn.
  destruct (String.eqb_spec k0 k) as [->|Hne]; [done|]. intros H. cbn. f_equal.
  by apply IH.
Qed.

Lemma dict_ext d1 d2 :
  dict_keys d1 = dict_keys d2 → NoDup (dict_keys d1) →
  (∀ k, dict_get k d1 = dict_get k d2) → d1 = d2.
Proof.
  revert d2. induction d1 as [|[k1 v1] d1 IH]; intros [|[k2 v2] d2]; try done.
  cbn. intros [= -> Hk] Hnd Hget. apply NoDup_cons in Hnd as [Hk2 Hnd].
  pose proof (Hget k2) as H2. rewrite !dict_get_cons, String.eqb_refl in H2.
  injection H2 as ->. f_equal. apply IH; [done..|]. intros k.
  destruct (decide (k = k2)) as [->|Hne].
  - transitivity (@None V); [|symmetry]; apply dict_get_None_keys; [done|].
    unfold dict_keys. by rewrite <- Hk.
  - specialize (Hget k). rewrite !dict_get_cons in Hget.
    by destruct (String.eqb_spec k2 k) as [->|_].
Qed.

Lemma fold_dict_set_keys (m d : list (string * V)) :
  (∀ k, k ∈ dict_keys m → k ∈ dict_keys d) →
  dict_keys (fold_left (λ d kv, dict_set (fst kv) (snd kv) d) m d) = dict_keys d.
Proof.
  revert d. induction m as [|[k v] m IH]; intros d Hin; [done|].
  cbn [fold_left fst snd].
  assert (dict_keys (dict_set k v d) = dict_keys d) as Hk.
  { apply dict_set_keys_present, dict_get_Some_keys, Hin. left. }
  rewrite IH; [done|]. intros k' Hk'. rewrite Hk. apply Hin. by right.
Qed.

Lemma fold_dict_set_get (m d : list (string * V)) k :
  NoDup (dict_keys m) →
  dict_get k (fold_left (λ d kv, dict_set (fst kv) (snd kv) d) m d)
  = match dict_get k m with Some v => Some v | None => dict_get k d end.
Proof.
  revert d. induction m as [|[k0 v0] m IH]; intros d Hnd; [done|].
  cbn in Hnd. apply NoDup_cons in Hnd as [Hk0 Hnd]. cbn [fold_left fst snd].
  rewrite IH, dict_get_cons by done.
  destruct (String.eqb_spec k0 k) as [->|Hne].
  - apply dict_get_None_keys in Hk0. by rewrite Hk0, dict_get_set_eq.
  - by rewrite dict_get_set_ne.
Qed.

(** Writing a table over one with the same teams gives the table. *)
Lemma fold_dict_set_exact (m d : list (string * V)) :
  NoDup (dict_keys m) → dict_keys d = dict_keys m →
  fold_left (λ d kv, dict_set (fst kv) (snd kv) d) m d = m.
Proof.
  intros Hnd Hk. apply dict_ext.
  - rewrite fold_dict_set_keys; [done|]. intros k. by rewrite Hk.
  - rewrite fold_dict_set_keys; [by rewrite Hk|]. intros k. by rewrite Hk.
  - intros k. rewrite fold_dict_set_get by done.
    destruct (dict_get k m) eqn:E; [done|].
    apply dict_get_None_keys. rewrite Hk. by apply dict_get_None_keys.
Qed.

End ConfigFacts.

Lemma uniform_keys level cfg : dict_keys (uniform level cfg) = dict_keys cfg.
Proof. unfold uniform, dict_keys. rewrite map_map. done. Qed.

Lemma increase_all_keys teams limit cfg b cfg' b' e :
  increase_all teams limit cfg b = (cfg', b', e) → dict_keys cfg' = dict_keys cfg.
Proof.
  revert cfg b. induction teams as [|team teams IH]; intros cfg b; cbn.
  - by intros [= <- _ _].
  - destruct (dict_get team cfg) as [capacity|] eqn:E; [|by intros [= <- _ _]].
    destruct (capacity <? limit); intros H; apply IH in H; [|done].
    rewrite H. apply dict_set_keys_present. by rewrite E.
Qed.

Lemma increase_first_keys teams limit step cfg cfg' :
  increase_first teams limit step cfg = Ok (Some cfg') → dict_keys cfg' = dict_keys cfg.
Proof.
  induction teams as [|team teams IH]; cbn; [done|].
  destruct (dict_get team cfg) as [capacity|] eqn:E; [|done].
  destruct (capacity <? limit); [|done]. intros [= <-].
  apply dict_set_keys_present. by rewrite E.
Qed.

Lemma increase_least_keys least limit cfg cfg' :
  increase_least least limit cfg = Some cfg' → dict_keys cfg' = dict_keys cfg.
Proof.
  revert cfg'. induction cfg as [|[team cap] cfg IH]; intros cfg'; cbn; [done|].
  destruct ((cap =? least) && lt_inf cap limit); [by intros [= <-]|].
  destruct (increase_least least limit cfg) as [c|]; [|done]. cbn.
  intros [= <-]. cbn. f_equal. by apply IH.
Qed.

Lemma increase_minimum_keys limit cfg cfg' :
  increase_minimum limit cfg = Ok cfg' → dict_keys cfg' = dict_keys cfg.
Proof.
  unfold increase_minimum. destruct (min_value cfg) as [m|]; [|done]. cbn.
  destruct (increase_least m limit cfg) as [c|] eqn:E; intros [= <-]; [|done].
  by apply increase_least_keys in E.
Qed.

Lemma decrease_keys team cfg cfg' :
  decrease team cfg = Ok cfg' → dict_keys cfg' = dict_keys cfg.
Proof.
  unfold decrease. destruct (dict_get team cfg) eqn:E; [|done]. intros [= <-].
  apply dict_set_keys_present. by rewrite E.
Qed.

(** *** What a trial writes *)

Lemma write_team_capacity m s :
  let s' :=
    fold_left
      (λ s kv, set_team_capacity (dict_set (fst kv) (snd kv) (team_capacity s)) s) m s in
  team_capacity s'
  = fold_left (λ d kv, dict_set (fst kv) (snd kv) d) m (team_capacity s)
  ∧ quality_team_capacity s' = quality_team_capacity s
  ∧ _original_team_capacity s' = _original_team_capacity s
  ∧ _original_quality_capacity s' = _original_quality_capacity s.
Proof.
  revert s. induction m as [|kv m IH]; intros s; [done|]. cbn [fold_left].
  destruct (IH (set_team_capacity (dict_set (fst kv) (snd kv) (team_capacity s)) s))
    as (-> & -> & -> & ->). done.
Qed.

Lemma write_quality_capacity m s :
  let s' :=
    fold_left
      (λ s kv,
         set_quality_team_capacity
           (dict_set (fst kv) (snd kv) (quality_team_capacity s)) s) m s in
  quality_team_capacity s'
  = fold_left (λ d kv, dict_set (fst kv) (snd kv) d) m (quality_team_capacity s)
  ∧ team_capacity s' = team_capacity s
  ∧ _original_team_capacity s' = _original_team_capacity s
  ∧ _original_quality_capacity s' = _original_quality_capacity s.
Proof.
  revert s. induction m as [|kv m IH]; intros s; [done|]. cbn [fold_left].
  destruct (IH (set_quality_team_capacity
                  (dict_set (fst kv) (snd kv) (quality_team_capacity s)) s))
    as (-> & -> & -> & ->). done.
Qed.

Lemma write_capacities_tables m q s :
  let s' := write_capacities m q s in
  team_capacity s'
  = fold_left (λ d kv, dict_set (fst kv) (snd kv) d) m (team_capacity s)
  ∧ quality_team_capacity s'
    = fold_left (λ d kv, dict_set (fst kv) (snd kv) d) q (quality_team_capacity s)
  ∧ _original_team_capacity s' = _original_team_capacity s
  ∧ _original_quality_capacity s' = _original_quality_capacity s.
Proof.
  unfold write_capacities. cbn zeta.
  pose proof (write_team_capacity m s) as (Ht & Hq & Ho & Ho'). cbn zeta in *.
  set (s1 := fold_left _ m s) in *.
  pose proof (write_quality_capacity q s1) as (Hq2 & Ht2 & Ho2 & Ho2'). cbn zeta in *.
  rewrite Hq2, Ht2, Ho2, Ho2', Ht, Hq, Ho, Ho'. done.
Qed.

Lemma write_capacities_keeps ot oq m q s :
  dict_keys m = dict_keys ot → dict_keys q = dict_keys oq →
  keeps_teams ot oq s → keeps_teams ot oq (write_capacities m q s).
Proof.
  intros Hm Hq (Kt & Kq & Ho & Ho').
  pose proof (write_capacities_tables m q s) as (Ht & Hq2 & H1 & H2). cbn zeta in *.
  unfold keeps_teams. rewrite Ht, Hq2, H1, H2.
  rewrite !fold_dict_set_keys; [done|..]; intros k; congruence.
Qed.

(** The restoring loops give the original tables back. *)
Lemma write_capacities_restores ot oq s :
  NoDup (dict_keys ot) → NoDup (dict_keys oq) → keeps_teams ot oq s →
  team_capacity (write_capacities ot oq s) = ot
  ∧ quality_team_capacity (write_capacities ot oq s) = oq.
Proof.
  intros Hnt Hnq (Kt & Kq & _ & _).
  pose proof (write_capacities_tables ot oq s) as (Ht & Hq & _). cbn zeta in *.
  rewrite Ht, Hq. split; by apply fold_dict_set_exact.
Qed.

Section OptimizerFacts.
Variable set_order : gset string → list string.
Variable now : Z.

Lemma schedule_tasks_tables s silent_mode s' :
  schedule_tasks set_order s now silent_mode = Ok s' →
  team_capacity s' = team_capacity s
  ∧ quality_team_capacity s' = quality_team_capacity s
  ∧ _original_team_capacity s' = _original_team_capacity s
  ∧ _original_quality_capacity s' = _original_quality_capacity s.
Proof.
  unfold schedule_tasks. cbn zeta.
  destruct (negb silent_mode && negb _); [done|].
  destruct (place_tasks _ _ _) as [st|]; [|done]. cbn.
  destruct (if silent_mode then _ else _); [|done]. cbn. by intros [= <-].
Qed.

Lemma generate_tables s silent_mode s' :
  generate_global_priority_list set_order s now silent_mode = Ok s' →
  team_capacity s' = team_capacity s
  ∧ quality_team_capacity s' = quality_team_capacity s
  ∧ _original_team_capacity s' = _original_team_capacity s
  ∧ _original_quality_capacity s' = _original_quality_capacity s.
Proof.
  unfold generate_global_priority_list.
  destruct (schedule_tasks set_order s now silent_mode) as [s1|] eqn:E; [|done].
  apply schedule_tasks_tables in E. cbn.
  destruct (fold_left _ _ _); [|done]. cbn. by intros [= <-].
Qed.

Lemma run_schedule_tables s silent_mode r s' :
  run_schedule set_order now s silent_mode = (r, s') →
  team_capacity s' = team_capacity s
  ∧ quality_team_capacity s' = quality_team_capacity s
  ∧ _original_team_capacity s' = _original_team_capacity s
  ∧ _original_quality_capacity s' = _original_quality_capacity s.
Proof.
  unfold run_schedule. cbn zeta.
  destruct (generate_global_priority_list _ _ _ _) as [s1|] eqn:E.
  - apply generate_tables in E. by intros [= _ <-].
  - by intros [= _ <-].
Qed.

Lemma run_schedule_keeps ot oq s silent_mode r s' :
  run_schedule set_order now s silent_mode = (r, s') →
  keeps_teams ot oq s → keeps_teams ot oq s'.
Proof.
  intros H%run_schedule_tables. unfold keeps_teams.
  destruct H as (-> & -> & -> & ->). done.
Qed.

Lemma test_with_target_keeps ot oq s cfg target tolerance b s' :
  _test_configuration_with_target set_order now s cfg target tolerance = (b, s') →
  config_for ot oq cfg → keeps_teams ot oq s → keeps_teams ot oq s'.
Proof.
  unfold _test_configuration_with_target. cbn zeta. intros H [Hm Hq] Hs.
  destruct (run_schedule _ _ _ _) as [r s1] eqn:E.
  eapply run_schedule_keeps in E; [|by apply write_capacities_keeps].
  destruct r; [destruct (unscheduled s1)|]; by injection H as _ <-.
Qed.

Lemma test_with_lateness_target_keeps ot oq s cfg tm tt b s' :
  _test_configuration_with_lateness_target set_order now s cfg tm tt = (b, s') →
  config_for ot oq cfg → keeps_teams ot oq s → keeps_teams ot oq s'.
Proof.
  unfold _test_configuration_with_lateness_target. cbn zeta. intros H [Hm Hq] Hs.
  destruct (run_schedule _ _ _ _) as [r s1] eqn:E.
  eapply run_schedule_keeps in E; [|by apply write_capacities_keeps].
  destruct r; [destruct (unscheduled s1)|]; by injection H as _ <-.
Qed.

End OptimizerFacts.

Ltac cfg_simpl :=
  cbn [mechanic quality JustInTime.current_config JustInTime.best_config JustInTime.set_current JustInTime.set_improved JustInTime.set_best MinimumLateness.current_mech_config MinimumLateness.current_qual_config MinimumLateness.best_config MinimumLateness.set_mech MinimumLateness.set_qual MinimumLateness.set_complete MinimumLateness.set_best MinimumLateness.set_previous_max MinimumLateness.set_previous_total MinimumLateness.count_no_improvement].

Section JustInTimeFacts.
Variable set_order : gset string → list string.
Variable now : Z.
Variables min_mechanics max_mechanics min_quality max_quality : Z.
Variables target_lateness tolerance max_iterations : Z.
Variables ot oq : list (string * Z).

Lemma uniform_search_keeps fuel level cur s best cur' s' :
  uniform_search set_order now max_mechanics max_quality target_lateness tolerance
    fuel level cur s = (best, cur', s') →
  config_for ot oq cur → keeps_teams ot oq s →
  keeps_teams ot oq s' ∧ config_for ot oq cur'
  ∧ ∀ b, best = Some b → config_for ot oq b.
Proof.
  revert level cur s.
  induction fuel as [|fuel IH]; intros level cur s; cbn [uniform_search].
  - intros [= <- <- <-] Hc Hs. done.
  - destruct (max_mechanics <? level); [by intros [= <- <- <-] Hc Hs|].
    intros H Hc Hs. cbn zeta in H.
    set (c := mk_config _ _) in H.
    assert (config_for ot oq c) as Hc'.
    { destruct Hc as [Hm Hq]. subst c. split; cfg_simpl; by rewrite uniform_keys. }
    destruct (_test_configuration_with_target _ _ _ _ _ _) as [ok s1] eqn:E.
    eapply test_with_target_keeps in E; [|done..].
    destruct ok; [|by eapply IH].
    injection H as <- <- <-. split_and!; [done..|]. by intros b [= <-].
Qed.

Lemma decreased_for kind team cfg cfg' :
  decreased kind team cfg = Ok cfg' → config_for ot oq cfg → config_for ot oq cfg'.
Proof.
  intros H [Hm Hq]. destruct kind; cbn in H.
  - destruct (decrease team (mechanic cfg)) as [m|] eqn:E; [|done].
    injection H as <-. apply decrease_keys in E. split; cfg_simpl; congruence.
  - destruct (decrease team (quality cfg)) as [q|] eqn:E; [|done].
    injection H as <-. apply decrease_keys in E. split; cfg_simpl; congruence.
Qed.

Lemma reduce_workforce_keeps l s tw md l' s' e :
  reduce_workforce set_order now min_mechanics min_quality target_lateness tolerance
    l s tw md = (l', s', e) →
  just_in_time_ok ot oq l → keeps_teams ot oq s →
  just_in_time_ok ot oq l' ∧ keeps_teams ot oq s'.
Proof.
  unfold reduce_workforce. intros H Hl Hs.
  set (l1 := if lt_inf tw (JustInTime.best_total_workforce l)
                || lt_inf md (JustInTime.best_deviation l)
             then JustInTime.set_best tw md l else l) in H.
  assert (just_in_time_ok ot oq l1) as [Hc Hb].
  { subst l1. destruct Hl as [Hc Hb]. destruct (_ || _); [|done].
    split; [done|]. cfg_simpl. by intros b [= <-]. }
  cbn zeta in H.
  match type of H with
  | match ?x with _ => _ end = _ =>
      destruct x as [[min_util [[min_team min_type]|]]|]
  end; try (by injection H as <- <- <-).
  destruct (_ && _); [|by injection H as <- <- <-].
  destruct (decreased _ _ _) as [test_config|] eqn:Ed; [|by injection H as <- <- <-].
  eapply decreased_for in Ed; [|done].
  destruct (_test_configuration_with_target _ _ _ _ _ _) as [ok s1] eqn:E.
  eapply test_with_target_keeps in E; [|done..].
  destruct ok; injection H as <- <- <-; done.
Qed.

Lemma reduce_by_utilization_keeps entries cur s r s' :
  reduce_by_utilization set_order now min_mechanics target_lateness tolerance
    entries cur s = (r, s') →
  config_for ot oq cur → keeps_teams ot oq s →
  keeps_teams ot oq s' ∧ ∀ c, r = Ok (Some c) → config_for ot oq c.
Proof.
  intros H Hc. revert s H. induction entries as [|[team u] entries IH]; intros s;
    cbn [reduce_by_utilization reduce_mechanic reduce_quality].
  - by intros [= <- <-] Hs.
  - destruct (dict_get team (mechanic cur)) as [capacity|] eqn:Eg;
      [|by intros [= <- <-] Hs].
    destruct (min_mechanics <? capacity); [|by apply IH].
    set (test_config := mk_config _ _).
    assert (config_for ot oq test_config) as Ht.
    { subst test_config. destruct Hc as [Hm Hq]. split; [|done]. cfg_simpl.
      rewrite dict_set_keys_present; [done|by rewrite Eg]. }
    destruct (_test_configuration_with_target _ _ _ _ _ _) as [ok s1] eqn:E.
    intros H Hs. eapply test_with_target_keeps in E; [|done..].
    destruct ok; [|by eapply IH]. injection H as <- <-.
    split; [done|]. by intros c [= <-].
Qed.

Lemma adjust_capacity_keeps l s metrics l' s' e :
  adjust_capacity set_order now min_mechanics max_mechanics max_quality
    target_lateness tolerance l s metrics = (l', s', e) →
  just_in_time_ok ot oq l → keeps_teams ot oq s →
  just_in_time_ok ot oq l' ∧ keeps_teams ot oq s'.
Proof.
  unfold adjust_capacity. intros H [[Hm Hq] Hb] Hs. cbn zeta in H.
  destruct (first_largest _ (adjustments_needed _ _ _)) as [[product deviation]|];
    [|by injection H as <- <- <-].
  destruct (0 <? deviation).
  - destruct (first_largest snd _) as [[team usage]|]; [|by injection H as <- <- <-].
    destruct (dict_get team (mechanic _)) as [capacity|] eqn:Eg.
    + destruct (capacity <? max_mechanics); injection H as <- <- <-; [|done].
      split; [|done]. split; [|done]. split; [|done]. cfg_simpl.
      rewrite dict_set_keys_present; [done|by rewrite Eg].
    + destruct (dict_get team (quality _)) as [capacity|] eqn:Eq;
        [|by injection H as <- <- <-].
      destruct (capacity <? max_quality); injection H as <- <- <-; [|done].
      split; [|done]. split; [|done]. split; [done|]. cfg_simpl.
      rewrite dict_set_keys_present; [done|by rewrite Eq].
  - destruct (deviation <? _); [|by injection H as <- <- <-].
    destruct (reduce_by_utilization _ _ _ _ _ _ _ _) as [r s1] eqn:E.
    eapply reduce_by_utilization_keeps in E as [Hs1 Hr]; [|done..].
    destruct r as [[c|]|]; injection H as <- <- <-; [|done..].
    split; [|done]. split; [|done]. by apply Hr.
Qed.

Lemma optimize_step_keeps l s l' s' e :
  optimize_step set_order now min_mechanics max_mechanics min_quality max_quality
    target_lateness tolerance l s = (l', s', e) →
  just_in_time_ok ot oq l → keeps_teams ot oq s →
  just_in_time_ok ot oq l' ∧ keeps_teams ot oq s'.
Proof.
  unfold optimize_step. intros H Hl Hs. cbn zeta in H.
  destruct (unscheduled s).
  - destruct Hl as [[Hm Hq] Hb].
    destruct (increase_first _ max_mechanics _ _) as [[mech|]|] eqn:E1.
    + injection H as <- <- <-. apply increase_first_keys in E1.
      split; [|done]. split; [|done]. split; [|done]. cfg_simpl. congruence.
    + destruct (increase_first _ max_quality _ _) as [[qual|]|] eqn:E2;
        injection H as <- <- <-; [|done..].
      apply increase_first_keys in E2.
      split; [|done]. split; [|done]. split; [done|]. cfg_simpl. congruence.
    + by injection H as <- <- <-.
  - destruct (deviation_scan _ _ _ _ _) as [max_deviation within].
    destruct within.
    + destruct (reduce_workforce _ _ _ _ _ _ _ _ _ _) as [[l1 s1] r] eqn:E.
      eapply reduce_workforce_keeps in E as [Hl1 Hs1]; [|done..].
      destruct r; by injection H as <- <- <-.
    + destruct (adjust_capacity _ _ _ _ _ _ _ _ _ _) as [[l1 s1] r] eqn:E.
      eapply adjust_capacity_keeps in E as [Hl1 Hs1]; [|done..].
      destruct r; by injection H as <- <- <-.
Qed.

Lemma optimize_keeps fuel l s l' s' :
  optimize set_order now min_mechanics max_mechanics min_quality max_quality
    target_lateness tolerance fuel l s = (Ok l', s') →
  just_in_time_ok ot oq l → keeps_teams ot oq s →
  just_in_time_ok ot oq l' ∧ keeps_teams ot oq s'.
Proof.
  revert l s. induction fuel as [|fuel IH]; intros l s;
    cbn [optimize find_minimum_lateness].
  - by intros [= <- <-].
  - destruct (30 <=? _)%nat; [by intros [= <- <-]|].
    intros H Hl Hs.
    set (l0 := JustInTime.set_improved false l) in H.
    assert (just_in_time_ok ot oq l0) as Hl0 by done.
    set (s0 := write_capacities _ _ s) in H.
    assert (keeps_teams ot oq s0) as Hs0.
    { destruct Hl0 as [[Hm Hq] _]. by apply write_capacities_keeps. }
    destruct (run_schedule set_order now s0 true) as [r s1] eqn:Er.
    eapply run_schedule_keeps in Er; [|done].
    assert (∃ l2 s2 raised,
      (match r with
       | Ok _ => optimize_step set_order now min_mechanics max_mechanics min_quality
                   max_quality target_lateness tolerance l0 s1
       | Raise e => (l0, s1, Some e)
       end) = (l2, s2, raised)
      ∧ just_in_time_ok ot oq l2 ∧ keeps_teams ot oq s2) as (l2 & s2 & raised & E & Hl2 & Hs2).
    { destruct r.
      - destruct (optimize_step _ _ _ _ _ _ _ _ _ _) as [[l2 s2] raised] eqn:E.
        exists l2, s2, raised. split; [done|]. by eapply optimize_step_keeps.
      - by eexists _, _, _. }
    rewrite E in H. destruct raised; [|by eapply IH].
    destruct (increase_minimum _ _) as [mech|] eqn:Em; [|done].
    eapply IH in H; [done| |done].
    apply increase_minimum_keys in Em. destruct Hl2 as [[Hm Hq] Hb].
    split; [|done]. split; [|done]. cfg_simpl. congruence.
Qed.

End JustInTimeFacts.

(** The just-in-time optimizer returns with the original tables. *)
Lemma scenario_2_restores set_order now min_mechanics max_mechanics min_quality
    max_quality target_lateness tolerance max_iterations s r s' :
  as_loaded s →
  scenario_2_just_in_time_optimization set_order now min_mechanics max_mechanics
    min_quality max_quality target_lateness tolerance max_iterations s = (Ok r, s') →
  team_capacity s' = _original_team_capacity s
  ∧ quality_team_capacity s' = _original_quality_capacity s.
Proof.
  intros (Ht & Hq & Hnt & Hnq). unfold scenario_2_just_in_time_optimization.
  cbn zeta.
  assert (keeps_teams (_original_team_capacity s) (_original_quality_capacity s) s)
    as Hs by (unfold keeps_teams; by rewrite Ht, Hq).
  destruct (uniform_search _ _ _ _ _ _ _ _ _ _) as [[best cur] s1] eqn:E1.
  eapply uniform_search_keeps in E1 as (Hs1 & Hcur & Hbest); [| |done].
  2: { split; cfg_simpl; by rewrite uniform_keys. }
  destruct (optimize _ _ _ _ _ _ _ _ _ _ _) as [[l|] s2] eqn:E2; [|done].
  eapply optimize_keeps in E2 as [[_ Hb] Hs2]; [| |done].
  2: { split; cfg_simpl; [|done]. destruct best; [done|].
       split; cfg_simpl; by rewrite uniform_keys. }
  destruct (JustInTime.best_config l) as [b|].
  - destruct (Hb b eq_refl) as [Hm Hq'].
    destruct (run_schedule _ _ _ _) as [[]] eqn:Er; [|done].
    eapply run_schedule_keeps in Er; [|by apply write_capacities_keeps].
    destruct (workforce_summary _ _ _); [|done].
    intros [= _ <-]. by apply write_capacities_restores.
  - intros [= _ <-]. by apply write_capacities_restores.
Qed.

Section MinimumLatenessFacts.
Variable set_order : gset string → list string.
Variable now : Z.
Variables min_mechanics max_mechanics min_quality max_quality max_iterations : Z.
Variables ot oq : list (string * Z).

Lemma unblock_keeps l s l' e :
  unblock set_order max_mechanics max_quality l s = (l', e) →
  minimum_lateness_ok ot oq l → minimum_lateness_ok ot oq l'.
Proof.
  unfold unblock. cbn zeta. intros H (Hm & Hq & Hb).
  destruct (increase_all _ max_mechanics _ _) as [[mech b1] e1] eqn:E1.
  apply increase_all_keys in E1.
  destruct e1; [injection H as <- <-; split_and!; cfg_simpl; [congruence|done..]|].
  cbn in H.
  destruct (increase_all _ max_quality _ _) as [[qual b2] e2] eqn:E2.
  apply increase_all_keys in E2.
  destruct e2; [injection H as <- <-; split_and!; cfg_simpl; [congruence..|done]|].
  injection H as <- <-. destruct b2; split_and!; cfg_simpl; try congruence; done.
Qed.

Lemma widen_keeps l s l' e :
  widen set_order max_mechanics max_quality l s = (l', e) →
  minimum_lateness_ok ot oq l → minimum_lateness_ok ot oq l'.
Proof.
  unfold widen. cbn zeta. intros H (Hm & Hq & Hb).
  destruct (increase_first _ max_mechanics _ _) as [[mech|]|] eqn:E1;
    [apply increase_first_keys in E1; injection H as <- <-;
     split_and!; cfg_simpl; [congruence|done..]| |by injection H as <- <-].
  destruct (increase_first _ max_quality _ _) as [[qual|]|] eqn:E2;
    [apply increase_first_keys in E2; injection H as <- <-;
     split_and!; cfg_simpl; [done|congruence|done]| |by injection H as <- <-].
  destruct (min_value (MinimumLateness.current_mech_config l)) as [m|];
    [|by injection H as <- <-].
  destruct (increase_least m _ _) as [mech|] eqn:E3;
    [apply increase_least_keys in E3; injection H as <- <-;
     split_and!; cfg_simpl; [congruence|done..]|].
  destruct (min_value (MinimumLateness.current_qual_config l)) as [q|];
    [|by injection H as <- <-].
  destruct (increase_least q _ _) as [qual|] eqn:E4;
    [apply increase_least_keys in E4; injection H as <- <-;
     split_and!; cfg_simpl; [done|congruence|done]|].
  by injection H as <- <-.
Qed.

Lemma improve_step_keeps l s l' e :
  improve_step set_order max_mechanics max_quality l s = (l', e) →
  minimum_lateness_ok ot oq l → minimum_lateness_ok ot oq l'.
Proof.
  unfold improve_step. intros H Hl.
  destruct (unscheduled s); [by eapply unblock_keeps|]. cbn zeta in H.
  match type of H with
  | match ?x with _ => _ end = _ =>
      set (p := x) in H; assert (minimum_lateness_ok ot oq (snd p)) as Hp
  end.
  { subst p. clear H. destruct (lt_inf _ _); [done|]. by destruct (_ && _). }
  clearbody p. destruct p as [improved l1]. cbn [snd] in Hp.
  match type of H with
  | context [if ?c then MinimumLateness.set_best ?a ?b ?d l1 else ?l0] =>
      set (l2 := if c then MinimumLateness.set_best a b d l1 else l0) in H;
      assert (minimum_lateness_ok ot oq l2) as Hl2
  end.
  { subst l2. clear H. destruct Hp as (Hm & Hq & Hb). case_match; [|by split_and!].
    split_and!; [done..|]. cfg_simpl. by intros b [= <-]. }
  clearbody l2.
  destruct (20 <=? _)%nat; [by injection H as <- <-|].
  destruct improved; [by injection H as <- <-|]. by eapply widen_keeps.
Qed.

Lemma find_minimum_lateness_keeps fuel l s l' s' :
  find_minimum_lateness set_order now max_mechanics max_quality fuel l s = (Ok l', s') →
  minimum_lateness_ok ot oq l → keeps_teams ot oq s →
  minimum_lateness_ok ot oq l' ∧ keeps_teams ot oq s'.
Proof.
  revert l s. induction fuel as [|fuel IH]; intros l s;
    cbn [optimize find_minimum_lateness].
  - by intros [= <- <-].
  - destruct (MinimumLateness.phase1_complete l); [by intros [= <- <-]|].
    intros H Hl Hs.
    set (s0 := write_capacities _ _ s) in H.
    assert (keeps_teams ot oq s0) as Hs0.
    { destruct Hl as (Hm & Hq & _). by apply write_capacities_keeps. }
    destruct (run_schedule set_order now s0 true) as [r s1] eqn:Er.
    eapply run_schedule_keeps in Er; [|done].
    assert (∃ l2 raised,
      (match r with
       | Ok _ => let '(l, raised) :=
                   improve_step set_order max_mechanics max_quality l s1 in
                 (l, s1, raised)
       | Raise e => (l, s1, Some e)
       end) = (l2, s1, raised)
      ∧ minimum_lateness_ok ot oq l2) as (l2 & raised & E & Hl2).
    { destruct r.
      - destruct (improve_step _ _ _ _ _) as [l2 raised] eqn:E.
        exists l2, raised. split; [done|]. by eapply improve_step_keeps.
      - by eexists _, _. }
    rewrite E in H. destruct raised; [|by eapply IH].
    destruct (increase_minimum _ _) as [mech|] eqn:Em; [|done].
    eapply IH in H; [done| |done].
    apply increase_minimum_keys in Em. destruct Hl2 as (Hm & Hq & Hb).
    split_and!; cfg_simpl; [congruence|done..].
Qed.

Lemma reduce_mechanic_keeps entries best tm tt s r s' :
  reduce_mechanic set_order now min_mechanics entries best tm tt s = (r, s') →
  config_for ot oq best → keeps_teams ot oq s →
  keeps_teams ot oq s' ∧ ∀ c, r = Ok (Some c) → config_for ot oq c.
Proof.
  intros H Hc. revert s H. induction entries as [|[team u] entries IH]; intros s;
    cbn [reduce_by_utilization reduce_mechanic reduce_quality].
  - by intros [= <- <-] Hs.
  - destruct (Ratio.ltb _ _); [|by apply IH].
    destruct (dict_get team (mechanic best)) as [capacity|] eqn:Eg;
      [|by intros [= <- <-] Hs].
    destruct (min_mechanics <? capacity); [|by apply IH].
    set (test_config := mk_config _ _).
    assert (config_for ot oq test_config) as Ht.
    { subst test_config. destruct Hc as [Hm Hq]. split; [|done]. cfg_simpl.
      rewrite dict_set_keys_present; [done|by rewrite Eg]. }
    destruct (_test_configuration_with_lateness_target _ _ _ _ _ _) as [ok s1] eqn:E.
    intros H Hs. eapply test_with_lateness_target_keeps in E; [|done..].
    destruct ok; [|by eapply IH]. injection H as <- <-.
    split; [done|]. by intros c [= <-].
Qed.

Lemma reduce_quality_keeps entries best tm tt s r s' :
  reduce_quality set_order now min_quality entries best tm tt s = (r, s') →
  config_for ot oq best → keeps_teams ot oq s →
  keeps_teams ot oq s' ∧ ∀ c, r = Ok (Some c) → config_for ot oq c.
Proof.
  intros H Hc. revert s H. induction entries as [|[team u] entries IH]; intros s;
    cbn [reduce_by_utilization reduce_mechanic reduce_quality].
  - by intros [= <- <-] Hs.
  - destruct (Ratio.ltb _ _); [|by apply IH].
    destruct (dict_get team (quality best)) as [capacity|] eqn:Eg;
      [|by intros [= <- <-] Hs].
    destruct (_ && _); [|by apply IH].
    set (test_config := mk_config _ _).
    assert (config_for ot oq test_config) as Ht.
    { subst test_config. destruct Hc as [Hm Hq]. split; [done|]. cfg_simpl.
      rewrite dict_set_keys_present; [done|by rewrite Eg]. }
    destruct (_test_configuration_with_lateness_target _ _ _ _ _ _) as [ok s1] eqn:E.
    intros H Hs. eapply test_with_lateness_target_keeps in E; [|done..].
    destruct ok; [|by eapply IH]. injection H as <- <-.
    split; [done|]. by intros c [= <-].
Qed.

Lemma reduce_underutilized_keeps fuel best tm tt s best' s' :
  reduce_underutilized set_order now min_mechanics min_quality fuel best tm tt s
  = (Ok best', s') →
  config_for ot oq best → keeps_teams ot oq s →
  config_for ot oq best' ∧ keeps_teams ot oq s'.
Proof.
  revert best s. induction fuel as [|fuel IH]; intros best s;
    cbn [reduce_underutilized].
  - by intros [= <- <-].
  - intros H Hc Hs.
    destruct (run_schedule _ _ _ _) as [[] s1] eqn:Er; [|done].
    eapply run_schedule_keeps in Er;
      [|destruct Hc; by apply write_capacities_keeps].
    destruct (reduce_mechanic _ _ _ _ _ _ _ _) as [r s2] eqn:E1.
    eapply reduce_mechanic_keeps in E1 as [Hs2 Hr]; [|done..].
    destruct r as [[c|]|]; [eapply IH; eauto| |done].
    destruct (reduce_quality _ _ _ _ _ _ _ _) as [r s3] eqn:E2.
    eapply reduce_quality_keeps in E2 as [Hs3 Hr3]; [|done..].
    destruct r as [[c|]|]; [eapply IH; eauto| |done].
    by injection H as <- <-.
Qed.

End MinimumLatenessFacts.

(** The minimum-lateness optimizer returns with the original tables. *)
Lemma scenario_3_restores set_order now min_mechanics max_mechanics min_quality
    max_quality max_iterations s r s' :
  as_loaded s →
  scenario_3_multidimensional_optimization set_order now min_mechanics max_mechanics
    min_quality max_quality max_iterations s = (Ok r, s') →
  team_capacity s' = _original_team_capacity s
  ∧ quality_team_capacity s' = _original_quality_capacity s.
Proof.
  intros (Ht & Hq & Hnt & Hnq). unfold scenario_3_multidimensional_optimization.
  cbn zeta.
  assert (keeps_teams (_original_team_capacity s) (_original_quality_capacity s) s)
    as Hs by (unfold keeps_teams; by rewrite Ht, Hq).
  destruct (find_minimum_lateness _ _ _ _ _ _ _) as [[l|] s1] eqn:E1; [|done].
  eapply find_minimum_lateness_keeps in E1 as [(_ & _ & Hb) Hs1]; [| |done].
  2: { split_and!; cfg_simpl; [by rewrite uniform_keys..|done]. }
  destruct (MinimumLateness.best_config l) as [b|].
  - specialize (Hb b eq_refl).
    destruct (reduce_underutilized _ _ _ _ _ _ _ _ _) as [[best|] s2] eqn:E2; [|done].
    eapply reduce_underutilized_keeps in E2 as [[Hm Hq'] Hs2]; [|done..].
    destruct (run_schedule _ _ _ _) as [[]] eqn:Er; [|done].
    eapply run_schedule_keeps in Er; [|by apply write_capacities_keeps].
    destruct (workforce_summary _ _ _); [|done].
    intros [= _ <-]. by apply write_capacities_restores.
  - intros [= _ <-]. by apply write_capacities_restores.
Qed.

(** The exits that do restore.  From the object as loaded, the CSV-fixed
    optimizer leaves the capacity tables as they are on every exit, and
    the just-in-time and minimum-lateness optimizers hold the original
    capacities in both tables whenever they return, with a result or with
    [None]. *)
Theorem optimizers_restore_on_return (set_order : gset string → list string)
    (now : Z) (s : scheduler) :
  as_loaded s →
  (∀ r s', scenario_1_csv_headcount set_order now s = (r, s') →
     team_capacity s' = _original_team_capacity s
     ∧ quality_team_capacity s' = _original_quality_capacity s)
  ∧ (∀ min_mechanics max_mechanics min_quality max_quality target_lateness tolerance
       max_iterations r s',
       scenario_2_just_in_time_optimization set_order now min_mechanics max_mechanics
         min_quality max_quality target_lateness tolerance max_iterations s
       = (Ok r, s') →
       team_capacity s' = _original_team_capacity s
       ∧ quality_team_capacity s' = _original_quality_capacity s)
  ∧ (∀ min_mechanics max_mechanics min_quality max_quality max_iterations r s',
       scenario_3_multidimensional_optimization set_order now min_mechanics
         max_mechanics min_quality max_quality max_iterations s = (Ok r, s') →
       team_capacity s' = _original_team_capacity s
       ∧ quality_team_capacity s' = _original_quality_capacity s).
Proof.
  intros Hs. split_and!.
  - intros r s'. unfold scenario_1_csv_headcount.
    destruct (run_schedule set_order now s false) as [r1 s1] eqn:E.
    apply run_schedule_tables in E as (Ht & Hq & _).
    destruct Hs as (Ht0 & Hq0 & _).
    destruct r1; intros [= _ <-]; by rewrite Ht, Hq.
  - intros. by eapply scenario_2_restores.
  - intros. by eapply scenario_3_restores.
Qed.

(** The staffed chain: the minimum-lateness optimizer settles on one
    mechanic and one inspector, and returns with three and two in the
    tables. *)
Lemma optimizers_restore_on_return_witness :
  ∃ r s',
    scenario_3_multidimensional_optimization in_order 0 1 20 1 10 300 ex_staffed
    = (Ok (Some r), s')
    ∧ mechanic (MinimumLateness.config_of r) = [("M", 1)]
    ∧ quality (MinimumLateness.config_of r) = [("Q", 1)]
    ∧ team_capacity s' = [("M", 3)]
    ∧ quality_team_capacity s' = [("Q", 2)].
Proof.
  eexists _, _. split; [run|]. split; [run|]. split; [run|].
  destruct (optimizers_restore_on_return in_order 0 ex_staffed) as (_ & _ & H).
  - split_and!; [reflexivity|reflexivity|apply NoDup_singleton..].
  - eapply (H 1 20 1 10 300). run.
Defined.

(** C7, at the failing inputs: an exception that leaves the
    minimum-lateness optimizer skips the loops that restore the tables.
    The first input has no mechanic team in its tables and three
    inspectors on its quality team: the first trial writes one inspector,
    the team of the task is missing from the configuration, the handler
    takes [min()] of an empty configuration, and the optimizer is left
    with one inspector in the table.  The second input has nobody on its
    only team: a configuration is found, and the summary divides by the
    original total of zero before the tables are restored, with one
    mechanic in the table. *)
Theorem exception_exit_skips_restore :
  (as_loaded ex_no_mechanics
   ∧ ∃ s',
       scenario_3_multidimensional_optimization in_order 0 1 20 1 10 300 ex_no_mechanics
       = (Raise EmptySequence, s')
       ∧ quality_team_capacity s' = [("Q1", 1)]
       ∧ _original_quality_capacity ex_no_mechanics = [("Q1", 3)])
  ∧ (as_loaded ex_unstaffed
     ∧ ∃ s',
         scenario_3_multidimensional_optimization in_order 0 1 20 1 10 300 ex_unstaffed
         = (Raise ZeroDivisionError, s')
         ∧ team_capacity s' = [("M", 1)]
         ∧ _original_team_capacity ex_unstaffed = [("M", 0)]).
Proof.
  split.
  - split.
    + split_and!; [done|done|apply NoDup_nil_2|apply NoDup_singleton].
    + eexists. split; [run|]. split; run.
  - split.
    + split_and!; [done|done|apply NoDup_singleton|apply NoDup_nil_2].
    + eexists. split; [run|]. split; run.
Qed.

(** ** Further properties: the search for a slot *)


Lemma check_minutes_complete sch team cap need n start :
  (∀ m, start ≤ m < start + Z.of_nat n → usage_at sch team m + need ≤ cap) →
  check_minutes sch team cap need n start = true.
Proof.
  revert start. induction n as [|n IH]; intros start H; [done|].
  cbn [check_minutes].
  destruct (usage_at sch team start + need >? cap) eqn:E.
  - specialize (H start). lia.
  - apply IH. intros m Hm. apply H. lia.
Qed.

(** X1.  [check_team_capacity_at_time] answers [True] exactly when, at
    every minute from [start_time] up to and not including [end_time],
    the crews already scheduled on the team plus the crew asked for fit
    in the capacity of the team; an empty interval is always accepted. *)
Theorem capacity_check_is_pointwise s team start_time end_time mechanics_needed :
  check_team_capacity_at_time s team start_time end_time mechanics_needed = true
  ↔ ∀ m, start_time ≤ m < end_time →
      usage_at (task_schedule s) team m + mechanics_needed ≤ capacity_of s team.
Proof.
  split; [apply check_team_capacity_spec|].
  intros H. unfold check_team_capacity_at_time. apply check_minutes_complete.
  intros m Hm. apply H. lia.
Qed.

(** The team of the chain is free for an hour, and is not free for two
    mechanics. *)
Lemma capacity_check_is_pointwise_witness :
  check_team_capacity_at_time ex_chain "M" start_date (start_date + 60) 1 = true
  ∧ ¬ (∀ m, start_date ≤ m < start_date + 60 →
         usage_at (task_schedule ex_chain) "M" m + 2 ≤ capacity_of ex_chain "M").
Proof.
  split.
  - apply (proj2 (capacity_check_is_pointwise ex_chain "M" start_date
                    (start_date + 60) 1)).
    intros m Hm. vm_compute. discriminate.
  - intros H.
    apply (proj2 (capacity_check_is_pointwise ex_chain "M" start_date
                    (start_date + 60) 2)) in H.
    vm_compute in H. discriminate.
Defined.

(** X2.  A slot returned by [get_next_working_time_with_capacity] is not
    before the time asked for, is on a working day of the product, lies in
    the window of the shift returned with it -- a shift of the team, or
    for an inspection a shift that some quality team works -- and the team
    has room for the crew at every minute of the task. *)
Theorem next_slot_is_feasible s current_time product_line team mechanics_needed
    duration is_quality start shift :
  get_next_working_time_with_capacity s current_time product_line team
    mechanics_needed duration is_quality = Some (start, shift) →
  current_time ≤ start
  ∧ is_working_day s start product_line = true
  ∧ in_shift shift (minute_of_day start) = true
  ∧ (if is_quality then any_quality_team s shift = true
     else shift ∈ default [] (team_shifts s !! team))
  ∧ ∀ m, start ≤ m < start + duration →
      usage_at (task_schedule s) team m + mechanics_needed ≤ capacity_of s team.
Proof.
  intros H. pose proof (get_next_working_time_spec _ _ _ _ _ _ _ _ _ H) as (Hle & Hw & Hc).
  apply get_next_working_time_shift in H. unfold available_shift in H.
  pose proof (check_team_capacity_spec _ _ _ _ _ Hc) as Hcap. clear Hc.
  split; [exact Hle|]. split; [exact Hw|].
  destruct is_quality.
  - apply find_quality_shift_spec in H as [? ?]. split; [assumption|].
    split; assumption.
  - apply find_team_shift_spec in H as [? ?]. split; [assumption|].
    split; assumption.
Qed.

(** The first task of the chain can start at the epoch, on the first
    shift. *)
Lemma next_slot_is_feasible_witness :
  get_next_working_time_with_capacity ex_chain start_date "Product P" "M" 1 60 false
  = Some (start_date, "1st"%string)
  ∧ is_working_day ex_chain start_date "Product P" = true
  ∧ in_shift "1st" (minute_of_day start_date) = true.
Proof.
  assert (get_next_working_time_with_capacity ex_chain start_date "Product P" "M" 1 60
            false = Some (start_date, "1st"%string)) as H by (vm_compute; reflexivity).
  split; [exact H|].
  destruct (next_slot_is_feasible _ _ _ _ _ _ _ _ _ H) as (_ & Hw & Hs & _).
  split; [exact Hw|exact Hs].
Defined.

Lemma min_load_spec best rest :
  let r := min_load best rest in
  r ∈ best :: rest ∧ ∀ x, x ∈ best :: rest → snd r ≤ snd x.
Proof.
  revert best. induction rest as [|y rest IH]; intros best; cbn [min_load].
  - split; [left|]. intros x ->%list_elem_of_singleton. done.
  - destruct (IH (if snd y <? snd best then y else best)) as [Hin Hmin]. split.
    + apply elem_of_cons in Hin as [->|Hin].
      * destruct (snd y <? snd best); [right; left|left].
      * right. by right.
    + intros x Hx.
      assert (snd (min_load (if snd y <? snd best then y else best) rest)
              ≤ snd (if snd y <? snd best then y else best)) as H0
        by (apply Hmin; left).
      apply elem_of_cons in Hx as [->|[->|Hx]%elem_of_cons].
      * destruct (snd y <? snd best) eqn:E; lia.
      * destruct (snd y <? snd best) eqn:E; lia.
      * apply Hmin. by right.
Qed.

(** A team that [assign_quality_team_balanced] picks works the shift and
    has the inspectors asked for. *)
Lemma assign_quality_team_eligible s shift mechanics_needed team :
  assign_quality_team_balanced s shift mechanics_needed = Some team →
  (∃ shifts, (team, shifts) ∈ quality_team_shifts s ∧ shift ∈ shifts)
  ∧ mechanics_needed ≤ default 0 (dict_get team (quality_team_capacity s)).
Proof.
  unfold assign_quality_team_balanced. cbn zeta.
  set (teams := List.filter _ (map fst _)).
  destruct teams as [|t0 teams'] eqn:Et; [done|]. cbn [map].
  pose proof (min_load_spec (t0, scheduled_minutes (task_schedule s) t0)
                (map (λ team, (team, scheduled_minutes (task_schedule s) team)) teams'))
    as [Hin _]. cbn zeta in Hin.
  intros [= <-].
  assert (fst (min_load (t0, scheduled_minutes (task_schedule s) t0)
                 (map (λ team, (team, scheduled_minutes (task_schedule s) team))
                      teams')) ∈ t0 :: teams') as Ht.
  { apply elem_of_cons in Hin as [->|Hin]; [left|right].
    apply list_elem_of_In, in_map_iff in Hin as (t & <- & Ht%list_elem_of_In).
    done. }
  rewrite <- Et in Ht. subst teams.
  apply filter_elem in Ht as [Ht Hc].
  apply negb_true_iff, Z.ltb_ge in Hc. split; [|done].
  apply list_elem_of_In, in_map_iff in Ht as ([t shifts] & Heq & Hts).
  apply list_elem_of_In, filter_elem in Hts as [Hts Hs]. cbn in Heq, Hs.
  exists shifts. rewrite <- Heq. split; [done|].
  apply existsb_exists in Hs as (x & Hx & ->%String.eqb_eq).
  by apply list_elem_of_In.
Qed.

(** X3.  [assign_quality_team_balanced] answers with a quality team that
    works the shift and has at least the inspectors asked for, and no such
    team carries less scheduled work than the one it picks; it answers
    [None] exactly when there is no such team. *)
Theorem quality_team_is_least_loaded s shift mechanics_needed :
  let eligible team :=
    (∃ shifts, (team, shifts) ∈ quality_team_shifts s ∧ shift ∈ shifts)
    ∧ mechanics_needed ≤ default 0 (dict_get team (quality_team_capacity s)) in
  match assign_quality_team_balanced s shift mechanics_needed with
  | Some team =>
      eligible team
      ∧ ∀ other, eligible other →
          scheduled_minutes (task_schedule s) team
          ≤ scheduled_minutes (task_schedule s) other
  | None => ∀ team, ¬ eligible team
  end.
Proof.
  intros eligible. unfold assign_quality_team_balanced. cbn zeta.
  set (teams := List.filter _ (map fst _)).
  assert (∀ team, team ∈ teams ↔ eligible team) as Hel.
  { intros team. subst teams eligible. rewrite filter_elem, list_elem_of_fmap.
    rewrite negb_true_iff, Z.ltb_ge. split.
    - intros [([t shifts] & -> & [Hin Hs]%filter_elem) Hc]. split; [|done].
      exists shifts. split; [done|]. cbn in Hs.
      apply existsb_exists in Hs as (x & Hx & ->%String.eqb_eq).
      by apply list_elem_of_In.
    - intros [(shifts & Hin & Hs) Hc]. split; [|done].
      exists (team, shifts). split; [done|]. apply filter_elem. split; [done|].
      cbn. apply existsb_exists. exists shift.
      split; [by apply list_elem_of_In|apply String.eqb_refl]. }
  destruct teams as [|t0 teams'] eqn:Et; cbn [map].
  - intros team He. apply Hel in He. by apply elem_of_nil in He.
  - set (loads := map _ teams').
    pose proof (min_load_spec (t0, scheduled_minutes (task_schedule s) t0) loads)
      as [Hin Hmin]. cbn zeta in *.
    set (r := min_load _ _) in *.
    assert (∀ x, x ∈ (t0, scheduled_minutes (task_schedule s) t0) :: loads ↔
                 ∃ t, t ∈ t0 :: teams' ∧ x = (t, scheduled_minutes (task_schedule s) t))
      as Hl.
    { intros x. subst loads. split.
      - intros [->|Hx]%elem_of_cons; [exists t0; split; [left|done]|].
        apply list_elem_of_In, in_map_iff in Hx as (t & <- & Ht%list_elem_of_In).
        exists t. split; [by right|done].
      - intros (t & [->|Ht]%elem_of_cons & ->); [left|right].
        apply list_elem_of_In, in_map_iff. exists t.
        split; [done|by apply list_elem_of_In]. }
    apply Hl in Hin as (t & Ht & Hr). rewrite Hr. cbn [fst]. split.
    + by apply Hel.
    + intros other Ho. apply Hel in Ho.
      specialize (Hmin (other, scheduled_minutes (task_schedule s) other)).
      rewrite Hr in Hmin. cbn [snd] in Hmin. apply Hmin. apply Hl. by exists other.
Qed.

(** The inspection example has one quality team, on the second shift. *)
Lemma quality_team_is_least_loaded_witness :
  assign_quality_team_balanced ex_inspection "2nd" 1 = Some "Q"%string
  ∧ assign_quality_team_balanced ex_inspection "1st" 1 = None
  ∧ ∀ team, ¬ ((∃ shifts, (team, shifts) ∈ quality_team_shifts ex_inspection
                          ∧ "1st"%string ∈ shifts)
               ∧ 1 ≤ default 0 (dict_get team (quality_team_capacity ex_inspection))).
Proof.
  split; [reflexivity|]. split; [reflexivity|].
  exact (quality_team_is_least_loaded ex_inspection "1st" 1).
Defined.

(** ** Further properties: the dynamic constraints *)


Lemma has_edge_elem a b l :
  has_edge a b l = true ↔ ∃ c, c ∈ l ∧ First c = a ∧ Second c = b.
Proof.
  unfold has_edge. rewrite existsb_exists. split.
  - intros (c & Hc & [?%String.eqb_eq ?%String.eqb_eq]%andb_true_iff).
    exists c. split; [by apply list_elem_of_In|done].
  - intros (c & Hc & <- & <-). exists c. split; [by apply list_elem_of_In|].
    by rewrite !String.eqb_refl.
Qed.








Lemma fold_Forall {A B} (f : list A → B → list A) (l : list B) dc (R : A → Prop) :
  (∀ dc x, x ∈ l → Forall R dc → Forall R (f dc x)) →
  Forall R dc → Forall R (fold_left f l dc).
Proof.
  revert dc. induction l as [|y l IH]; intros dc Hf Hdc; [done|]. cbn.
  apply IH.
  - intros dc' x Hx. apply Hf. by right.
  - apply Hf; [left|done].
Qed.



(** X5.  Every constraint of a list built by [build_dynamic_dependencies]
    ends in a task that exists, in a rework task, or in the inspection of
    some task: a constraint whose second task is unknown is dropped. *)
Theorem constraints_end_in_known_tasks s c :
  _dynamic_constraints_cache s = None →
  c ∈ build_dynamic_dependencies s →
  is_Some (tasks s !! Second c)
  ∨ Second c ∈ rework_tasks s
  ∨ ∃ primary, (primary, Second c) ∈ quality_requirements s.
Proof.
  intros Hcache. unfold build_dynamic_dependencies. rewrite Hcache. cbn zeta.
  set (R := λ c : constraint,
         is_Some (tasks s !! Second c) ∨ Second c ∈ rework_tasks s
         ∨ ∃ primary, (primary, Second c) ∈ quality_requirements s).
  intros Hc. change (R c). revert c Hc. apply Forall_forall.
  assert (∀ dc c, (is_Some (tasks s !! Second c) ∨ Second c ∈ rework_tasks s) →
            Forall R dc → Forall R (add_redirected s dc c)) as Hred.
  { intros dc c Hc Hdc. unfold add_redirected.
    destruct (dict_get _ _) as [qi|] eqn:E.
    - apply dict_get_Some_elem in E. apply Forall_app. split.
      + destruct (has_edge _ _ _); [done|]. apply Forall_app. split; [done|].
        apply Forall_singleton. right. right. by exists (First c).
      + apply Forall_singleton. unfold R. cbn. tauto.
    - apply Forall_app. split; [done|]. apply Forall_singleton. unfold R. cbn. tauto. }
  apply fold_Forall.
  { intros dc [p q] Hin Hdc. unfold add_quality. cbn [fst snd].
    destruct (has_edge _ _ _); [done|]. apply Forall_app. split; [done|].
    apply Forall_singleton. right. right. by exists p. }
  apply fold_Forall.
  { intros dc c _ Hdc. unfold add_rework.
    destruct (negb (in_tasks s (Second c))) eqn:E1; cbn [andb].
    - destruct (negb (bool_decide _)) eqn:E2; [done|]. apply Hred; [|done].
      right. apply negb_false_iff in E2. by apply bool_decide_eq_true in E2.
    - apply Hred; [|done]. left. apply negb_false_iff in E1.
      by apply in_tasks_true in E1. }
  apply fold_Forall.
  { intros dc c _ Hdc. unfold add_late_part.
    destruct (negb (in_tasks s (Second c))) eqn:E1; [done|].
    apply Forall_app. split; [done|]. apply Forall_singleton. left.
    apply negb_false_iff in E1. by apply in_tasks_true in E1. }
  apply fold_Forall; [|constructor].
  intros dc c _ Hdc. unfold add_baseline.
  destruct (negb (in_tasks s (First c)) || negb (in_tasks s (Second c))) eqn:E;
    [done|].
  apply orb_false_iff in E as [_ E]. apply Hred; [|done]. left.
  apply negb_false_iff in E. by apply in_tasks_true in E.
Qed.

(** The constraint routed to task 2 ends in a task. *)
Lemma constraints_end_in_known_tasks_witness :
  is_Some (tasks ex_routed !! "P_2")
  ∨ "P_2"%string ∈ rework_tasks ex_routed
  ∨ ∃ primary, (primary, "P_2"%string) ∈ quality_requirements ex_routed.
Proof.
  apply (constraints_end_in_known_tasks ex_routed
           (mk_constraint "P_10001" "P_2" FinishLeStart) eq_refl).
  right. left.
Defined.

(** ** Further properties: what the scheduling loop places *)


(** A property of the schedule that holds of the empty schedule and is
    kept whenever the loop places a task holds of the schedule the loop
    ends with. *)
Section Placement.

Variable set_order : gset string → list string.
Hypothesis set_order_elem : ∀ X x, x ∈ set_order X ↔ x ∈ X.
Hypothesis set_order_nodup : ∀ X, NoDup (set_order X).
Variable priority_of : string → result float.
Variable s : scheduler.
Variable P : list (string * Sched.t) → Prop.

Hypothesis P_nil : P [].

Hypothesis P_place :
  ∀ st t info product_line scheduled_start team shift,
    engine_inv s st → P (schedule st) → is_done st t = false →
    (∀ d, edge_of (build_dynamic_dependencies s) d t → is_done st d = true) →
    tasks s !! t = Some info →
    match truthy (Task.product_line info) with
    | Some p0 => Some p0
    | None => parsed_product t
    end = Some product_line →
    find_slot (set_task_schedule (schedule st) s) info
      (earliest_start_of set_order s st t) product_line
    = Some (scheduled_start, team, shift) →
    P (schedule st
       ++ [(t, Sched.mk scheduled_start (scheduled_start + Task.duration info) team
                 product_line (Task.duration info) (Task.mechanics_required info)
                 (Task.is_quality info) (Task.task_type info) shift)]).

Lemma refilled_schedule st st1 :
  (if bool_decide (ready_tasks st = [])
      && (scheduled_count st + size (failed_tasks st) <? size (tasks s))%nat
   then refill set_order priority_of s st else Ok st) = Ok st1 →
  schedule st1 = schedule st.
Proof.
  destruct (_ && _); [|by intros [= <-]]. unfold refill.
  destruct (push_ready _ _ _ _) as [h|e]; [|done]. rewrite bind_ok.
  by intros [= <-].
Qed.

Lemma placement_step st st' :
  engine_inv s st → P (schedule st) →
  step set_order priority_of s st = Continue st'
  ∨ step set_order priority_of s st = Break st' →
  P (schedule st').
Proof.
  intros Hinv HP. unfold step. cbn zeta.
  destruct (if bool_decide (ready_tasks st = []) && _ then _ else _)
    as [st1|e] eqn:Hre; [|by intros [?|?]].
  pose proof (refilled_schedule _ _ Hre) as Hsch.
  apply (inv_refilled set_order set_order_elem set_order_nodup) in Hre; [|done].
  rewrite <- Hsch in HP. clear Hinv Hsch st.
  destruct (heappop (ready_tasks st1)) as [[[p t] rest]|] eqn:Hpop;
    [|by intros [?|[= <-]]].
  destruct (3 <=? default O (task_retry_counts st1 !! t))%nat eqn:E3.
  { by intros [[= <-]|?]. }
  destruct (tasks s !! t) as [info|] eqn:Hinfo; [|by intros [?|?]].
  destruct (match truthy (Task.product_line info) with
            | Some p0 => Some p0
            | None => parsed_product t
            end) as [product_line|] eqn:Hpl.
  2:{ by intros [[= <-]|?]. }
  destruct (find_slot _ _ _ _) as [[[scheduled_start team] shift]|] eqn:Hslot.
  2:{ intros [[= <-]|?]; [|done]. unfold retry_or_fail. cbn zeta.
      by destruct (_ <? 3)%nat. }
  destruct (push_ready _ _ _ _) as [h|e] eqn:Hpush; [|by intros [?|?]].
  intros [[= <-]|?]; [|done]. cbn [schedule].
  edestruct heappop_keys as (Ht & _); [exact Hre|exact Hpop|].
  pose proof (inv_ready_fresh _ _ Hre t Ht) as Hfresh.
  rewrite dict_set_fresh.
  - eapply P_place; try done. intros d Hd. by apply (inv_ready_deps _ _ Hre t d).
  - apply is_done_false in Hfresh as [Hk _]. by apply dict_get_None_keys.
Qed.

Lemma placement_run fuel st st' :
  engine_inv s st → P (schedule st) →
  run_loop set_order priority_of s fuel st = Ok st' → P (schedule st').
Proof.
  revert st. induction fuel as [|fuel IH]; intros st Hinv HP; cbn [run_loop].
  - by intros [= <-].
  - destruct (negb _ || _); [|by intros [= <-]].
    destruct (step set_order priority_of s st) as [st1|st1|e] eqn:Hstep; [| |done].
    + apply IH.
      * apply (inv_step set_order set_order_elem set_order_nodup priority_of s st).
        -- done.
        -- by left.
      * apply (placement_step st); [done..|by left].
    + intros [= <-]. apply (placement_step st); [done..|by right].
Qed.

Lemma placement_ind st :
  place_tasks set_order priority_of s = Ok st → P (schedule st).
Proof.
  unfold place_tasks.
  destruct (initial_state set_order priority_of s) as [st0|e] eqn:H0; [|done].
  rewrite bind_ok. apply placement_run.
  - by apply (inv_initial set_order set_order_elem set_order_nodup priority_of s).
  - unfold initial_state in H0. cbn zeta in H0.
    destruct (push_ready _ _ _ _) as [h|e]; [|done]. rewrite bind_ok in H0.
    by injection H0 as <-.
Qed.

End Placement.

(** A successful call stores the schedule the loop ended with. *)
Lemma schedule_tasks_places (set_order : gset string → list string) s now silent_mode s' :
  schedule_tasks set_order s now silent_mode = Ok s' →
  ∃ st, place_tasks set_order
          (calculate_task_priority (set_task_schedule [] s) now)
          (set_task_schedule [] s) = Ok st
        ∧ s' = set_task_schedule (schedule st) s.
Proof.
  unfold schedule_tasks. destruct (negb silent_mode && _); [done|].
  destruct (place_tasks _ _ _) as [st|e] eqn:Hplace; [|done].
  rewrite bind_ok. intros H. exists st. split; [done|].
  destruct (if silent_mode then Ok () else _); [|done].
  rewrite bind_ok in H. by injection H as <-.
Qed.

(** X6.  Every assignment of the schedule belongs to a task instance and
    carries that task's data: its duration, crew, quality flag and type,
    an end that is its start plus the duration, and, for a task that is
    not an inspection, the task's own team. *)
Theorem assignments_carry_task_data (set_order : gset string → list string)
    s now silent_mode s' :
  (∀ X x, x ∈ set_order X ↔ x ∈ X) → (∀ X, NoDup (set_order X)) →
  schedule_tasks set_order s now silent_mode = Ok s' →
  ∀ task_id sched, (task_id, sched) ∈ task_schedule s' →
    ∃ info, tasks s !! task_id = Some info
      ∧ Sched.duration sched = Task.duration info
      ∧ Sched.end_time sched = Sched.start_time sched + Task.duration info
      ∧ Sched.mechanics_required sched = Task.mechanics_required info
      ∧ Sched.is_quality sched = Task.is_quality info
      ∧ Sched.task_type sched = Task.task_type info
      ∧ (Task.is_quality info = false → Sched.team sched = Task.team info).
Proof.
  intros H1 H2 Hrun. apply schedule_tasks_places in Hrun as (st & Hplace & ->).
  cbn [task_schedule set_task_schedule].
  revert Hplace.
  apply (placement_ind set_order H1 H2 _ (set_task_schedule [] s)
           (λ sch, ∀ task_id sched, (task_id, sched) ∈ sch →
              ∃ info, tasks s !! task_id = Some info
                ∧ Sched.duration sched = Task.duration info
                ∧ Sched.end_time sched = Sched.start_time sched + Task.duration info
                ∧ Sched.mechanics_required sched = Task.mechanics_required info
                ∧ Sched.is_quality sched = Task.is_quality info
                ∧ Sched.task_type sched = Task.task_type info
                ∧ (Task.is_quality info = false → Sched.team sched = Task.team info))).
  - intros k e Hin. by apply elem_of_nil in Hin.
  - intros st0 t info product_line start team shift _ IH _ _ Hinfo _ Hslot k e.
    intros [Hin|Hin%list_elem_of_singleton]%elem_of_app; [by apply IH|].
    injection Hin as -> ->. exists info. cbn. split_and!; try done.
    intros Hq. unfold find_slot in Hslot. rewrite Hq in Hslot.
    destruct (get_next_working_time_with_capacity _ _ _ _ _ _ _) as [[? ?]|];
      [|done].
    by injection Hslot as _ <- _.
Qed.

Lemma ex_chain_runs :
  ∃ s', schedule_tasks in_order ex_chain 0 true = Ok s'
        ∧ task_schedule s'
          = [("P_1"%string,
              Sched.mk start_date (start_date + 60) "M" "Product P" 60 1 false
                Production "1st");
             ("P_2"%string,
              Sched.mk (start_date + 60) (start_date + 120) "M" "Product P" 60 1 false
                Production "1st")].
Proof. eexists. split; run. Qed.

(** Task 2 of the chain lasts its hour on its team. *)
Lemma assignments_carry_task_data_witness :
  ∃ s' sched,
    schedule_tasks in_order ex_chain 0 true = Ok s'
    ∧ dict_get "P_2" (task_schedule s') = Some sched
    ∧ Sched.end_time sched = Sched.start_time sched + 60
    ∧ Sched.team sched = "M"%string.
Proof.
  destruct ex_chain_runs as (s' & Hrun & Hs). exists s'.
  eexists. split; [exact Hrun|]. split; [by rewrite Hs|].
  assert (("P_2"%string,
           Sched.mk (start_date + 60) (start_date + 120) "M" "Product P" 60 1 false
             Production "1st") ∈ task_schedule s') as Hin
    by (rewrite Hs; right; left).
  destruct (assignments_carry_task_data in_order ex_chain 0 true s'
              in_order_elem in_order_nodup Hrun _ _ Hin)
    as (info & Hinfo & _ & Hend & _ & _ & _ & Hteam).
  assert (tasks ex_chain !! "P_2"%string = Some (production 60 "M" 1)) as Hl
    by (vm_compute; reflexivity).
  rewrite Hl in Hinfo. injection Hinfo as <-.
  split; [exact Hend|]. by apply Hteam.
Defined.

Lemma dependency_scan_lower lo sch cs task_id deps e0 :
  (∀ d ed, dict_get d sch = Some ed → lo ≤ Sched.end_time ed) →
  lo ≤ e0 → lo ≤ dependency_scan sch cs task_id deps e0.
Proof.
  intros Hsch. unfold dependency_scan. revert e0.
  induction deps as [|d deps IH]; intros e0 He0; [done|]. cbn [fold_left].
  apply IH. destruct (dict_get d sch) as [ed|] eqn:E; [|done].
  specialize (Hsch d ed E). destruct (is_finish_equals_start cs d task_id); lia.
Qed.

Lemma dependency_scan_ge sch cs task_id deps e0 :
  (∀ d, d ∈ deps → is_finish_equals_start cs d task_id = false) →
  e0 ≤ dependency_scan sch cs task_id deps e0.
Proof.
  unfold dependency_scan. revert e0.
  induction deps as [|d deps IH]; intros e0 Hf; [done|]. cbn [fold_left].
  etransitivity; [|apply IH; intros d' Hd'; apply Hf; by right].
  destruct (dict_get d sch) as [ed|]; [|done].
  rewrite Hf by left. lia.
Qed.

(** X7.  When no task has a negative duration, no assignment starts
    before the epoch of the schedule, 2025-08-22 at 06:00. *)
Theorem no_start_before_epoch (set_order : gset string → list string)
    s now silent_mode s' :
  (∀ X x, x ∈ set_order X ↔ x ∈ X) → (∀ X, NoDup (set_order X)) →
  (∀ t info, tasks s !! t = Some info → 0 ≤ Task.duration info) →
  schedule_tasks set_order s now silent_mode = Ok s' →
  ∀ task_id sched, (task_id, sched) ∈ task_schedule s' →
    start_date ≤ Sched.start_time sched.
Proof.
  intros H1 H2 Hdur Hrun. apply schedule_tasks_places in Hrun as (st & Hplace & ->).
  cbn [task_schedule set_task_schedule].
  intros k e Hin.
  cut (start_date ≤ Sched.start_time e ∧ start_date ≤ Sched.end_time e); [tauto|].
  revert k e Hin. revert Hplace.
  apply (placement_ind set_order H1 H2 _ (set_task_schedule [] s)
           (λ sch, ∀ k e, (k, e) ∈ sch →
              start_date ≤ Sched.start_time e ∧ start_date ≤ Sched.end_time e)).
  - intros k e Hin. by apply elem_of_nil in Hin.
  - intros st0 t info product_line start team shift _ IH _ _ Hinfo _ Hslot k e.
    intros [Hin|Hin%list_elem_of_singleton]%elem_of_app; [by apply (IH k e)|].
    injection Hin as -> ->. cbn.
    apply find_slot_spec in Hslot as (Hle & _).
    assert (start_date ≤ earliest_start_of set_order (set_task_schedule [] s) st0 t)
      as He.
    { unfold earliest_start_of. apply dependency_scan_lower.
      - intros d ed Hd. apply dict_get_Some_elem in Hd.
        by destruct (IH d ed Hd).
      - destruct (bool_decide _); lia. }
    specialize (Hdur t info Hinfo). lia.
Qed.

(** The tasks of the chain start at the epoch and an hour later. *)
Lemma no_start_before_epoch_witness :
  ∃ s' sched,
    schedule_tasks in_order ex_chain 0 true = Ok s'
    ∧ dict_get "P_2" (task_schedule s') = Some sched
    ∧ start_date ≤ Sched.start_time sched.
Proof.
  destruct ex_chain_runs as (s' & Hrun & Hs). exists s'.
  eexists. split; [exact Hrun|]. split; [by rewrite Hs|].
  apply (no_start_before_epoch in_order ex_chain 0 true s' in_order_elem
           in_order_nodup) with (task_id := "P_2"%string); [|exact Hrun|].
  - intros t info Ht.
    assert (Hdom : t ∈ dom (tasks ex_chain)) by (apply elem_of_dom; by eexists).
    assert (Hd : dom (tasks ex_chain) = {["P_1"%string; "P_2"%string]})
      by (by vm_compute).
    rewrite Hd in Hdom.
    apply elem_of_union in Hdom as [->%elem_of_singleton| ->%elem_of_singleton];
      vm_compute in Ht; injection Ht as <-; done.
  - rewrite Hs. right. left.
Defined.

(** X8.  A late part task that is not the second task of a
    'Finish = Start' constraint never starts before 06:00 of the day that
    lies the late part delay after its on-dock date. *)
Theorem late_part_waits_for_dock (set_order : gset string → list string)
    s now silent_mode s' task_id sched :
  (∀ X x, x ∈ set_order X ↔ x ∈ X) → (∀ X, NoDup (set_order X)) →
  task_id ∈ late_part_tasks s →
  (∀ d, is_finish_equals_start (build_dynamic_dependencies s) d task_id = false) →
  schedule_tasks set_order s now silent_mode = Ok s' →
  (task_id, sched) ∈ task_schedule s' →
  get_earliest_start_for_late_part s task_id ≤ Sched.start_time sched.
Proof.
  intros H1 H2 Hlate Hfs Hrun. apply schedule_tasks_places in Hrun as (st & Hplace & ->).
  cbn [task_schedule set_task_schedule]. revert sched. revert Hplace.
  apply (placement_ind set_order H1 H2 _ (set_task_schedule [] s)
           (λ sch, ∀ e, (task_id, e) ∈ sch →
              get_earliest_start_for_late_part s task_id ≤ Sched.start_time e)).
  - intros e Hin. by apply elem_of_nil in Hin.
  - intros st0 t info product_line start team shift _ IH _ _ Hinfo _ Hslot e.
    intros [Hin|Hin%list_elem_of_singleton]%elem_of_app; [by apply IH|].
    injection Hin as -> ->. cbn.
    apply find_slot_spec in Hslot as (Hle & _).
    etransitivity; [|exact Hle]. unfold earliest_start_of.
    etransitivity; [|apply dependency_scan_ge; intros d _; apply Hfs].
    cbn [late_part_tasks set_task_schedule].
    rewrite bool_decide_eq_true_2 by done.
    change (get_earliest_start_for_late_part (set_task_schedule [] s) t)
      with (get_earliest_start_for_late_part s t). lia.
Qed.

(** The late part is on dock on Monday at 10:00 and starts on Tuesday at
    06:00. *)
Lemma late_part_waits_for_dock_witness :
  ∃ s' sched,
    schedule_tasks in_order ex_late_part 0 true = Ok s'
    ∧ dict_get "LP_1" (task_schedule s') = Some sched
    ∧ get_earliest_start_for_late_part ex_late_part "LP_1" = 8 * 1440 + 360
    ∧ 8 * 1440 + 360 ≤ Sched.start_time sched.
Proof.
  assert (∃ s', schedule_tasks in_order ex_late_part 0 true = Ok s'
                ∧ dict_get "LP_1" (task_schedule s')
                  = Some (Sched.mk (8 * 1440 + 360) (8 * 1440 + 390) "M" "Product P"
                            30 1 false LatePart "1st"))
    as (s' & Hrun & Hget) by (eexists; split; run).
  exists s'. eexists. split; [exact Hrun|]. split; [exact Hget|].
  split; [reflexivity|].
  assert (build_dynamic_dependencies ex_late_part
          = [mk_constraint "LP_1" "P_1" FinishLeStart]) as Hcs by (vm_compute; reflexivity).
  apply (late_part_waits_for_dock in_order ex_late_part 0 true s' "LP_1"%string _
           in_order_elem in_order_nodup).
  - by vm_compute.
  - intros d. rewrite Hcs. unfold is_finish_equals_start.
    cbn [existsb First Second Relationship].
    destruct (String.eqb "LP_1" d); reflexivity.
  - exact Hrun.
  - by apply dict_get_Some_elem.
Defined.

(** X9.  The schedule lists the tasks in the order they were placed, and
    a task is placed after its predecessors: in the schedule, every
    scheduled predecessor of a task stands before the task. *)
Theorem predecessors_are_placed_first (set_order : gset string → list string)
    s now silent_mode s' :
  (∀ X x, x ∈ set_order X ↔ x ∈ X) → (∀ X, NoDup (set_order X)) →
  schedule_tasks set_order s now silent_mode = Ok s' →
  ∀ before b eb after a,
    task_schedule s' = before ++ (b, eb) :: after →
    edge_of (build_dynamic_dependencies s) a b →
    a ∈ dict_keys (task_schedule s') →
    a ∈ dict_keys before.
Proof.
  intros H1 H2 Hrun. apply schedule_tasks_places in Hrun as (st & Hplace & ->).
  cbn [task_schedule set_task_schedule]. revert Hplace.
  apply (placement_ind set_order H1 H2 _ (set_task_schedule [] s)
           (λ sch, ∀ before b eb after a,
              sch = before ++ (b, eb) :: after →
              edge_of (build_dynamic_dependencies s) a b →
              a ∈ dict_keys sch → a ∈ dict_keys before)).
  - intros before b eb after a H. by destruct before.
  - intros st0 t info product_line start team shift Hinv IH Hfresh Hdeps _ _ _.
    intros before b eb after a Heq Hedge Ha.
    unfold dict_keys in Ha. rewrite map_app in Ha. cbn in Ha.
    destruct after as [|x after _] using rev_ind.
    + apply app_inj_tail in Heq as [Heq1 Heq2]. injection Heq2 as Hb _.
      subst before b.
      apply elem_of_app in Ha as [Ha|Ha%list_elem_of_singleton]; [done|].
      subst a. specialize (Hdeps t Hedge). congruence.
    + rewrite app_comm_cons, app_assoc in Heq.
      apply app_inj_tail in Heq as [Heq Hx]. clear Hx.
      apply elem_of_app in Ha as [Ha|Ha%list_elem_of_singleton].
      * by apply (IH before b eb after a).
      * exfalso. subst a.
        assert (b ∈ dict_keys (schedule st0)) as Hb.
        { rewrite Heq. unfold dict_keys. rewrite map_app. apply elem_of_app.
          right. left. }
        pose proof (inv_sched_deps _ _ Hinv b t Hb Hedge). congruence.
Qed.

(** In the chain task 1 stands before task 2. *)
Lemma predecessors_are_placed_first_witness :
  ∃ s' e1 e2,
    schedule_tasks in_order ex_chain 0 true = Ok s'
    ∧ task_schedule s' = [("P_1"%string, e1); ("P_2"%string, e2)]
    ∧ "P_1"%string ∈ dict_keys [("P_1"%string, e1)].
Proof.
  destruct ex_chain_runs as (s' & Hrun & Hs). exists s'.
  eexists _, _. split; [exact Hrun|]. split; [exact Hs|].
  eapply (predecessors_are_placed_first in_order ex_chain 0 true s' in_order_elem
            in_order_nodup Hrun _ "P_2"%string _ [] "P_1"%string).
  - exact Hs.
  - exists (mk_constraint "P_1" "P_2" FinishLeStart).
    split; [|repeat split; reflexivity].
    rewrite ex_chain_constraints. left.
  - rewrite Hs. left.
Defined.

Lemma try_quality_shifts_team sch earliest p need dur start team shift :
  try_quality_shifts sch earliest p need dur = Some (start, team, shift) →
  assign_quality_team_balanced sch shift need = Some team.
Proof.
  unfold try_quality_shifts.
  set (Q := λ acc : option (Z * string * string),
         match acc with
         | Some (_, team, shift) =>
             assign_quality_team_balanced sch shift need = Some team
         | None => True
         end).
  assert (H : ∀ l acc, Q acc → Q (fold_left
    (λ acc try_shift,
       match assign_quality_team_balanced sch try_shift need with
       | Some temp_team =>
           if String.eqb temp_team "" then acc
           else
             match get_next_working_time_with_capacity sch earliest p
                     temp_team need dur true with
             | Some (temp_start, _) =>
                 match acc with
                 | Some (scheduled_start, _, _) =>
                     if temp_start <? scheduled_start
                     then Some (temp_start, temp_team, try_shift) else acc
                 | None => Some (temp_start, temp_team, try_shift)
                 end
             | None => acc
             end
       | None => acc
       end) l acc)).
  { induction l as [|x l IH]; intros acc Hacc; [done|]. cbn [fold_left]. apply IH.
    destruct (assign_quality_team_balanced sch x need) as [tt|] eqn:Ea; [|done].
    destruct (String.eqb tt ""); [done|].
    destruct (get_next_working_time_with_capacity sch earliest p tt need dur true)
      as [[ts ?]|]; [|done].
    destruct acc as [[[? ?] ?]|]; [|done].
    destruct (ts <? z); done. }
  intros E. specialize (H ["1st"; "2nd"; "3rd"]%string None I).
  rewrite E in H. exact H.
Qed.

(** X10.  The shift recorded with an assignment: for a task that is not
    an inspection the start lies in the window of that shift and the
    shift is one of the team's; an inspection is given to a quality team
    that works the recorded shift and has at least the inspectors the
    task needs. *)
Theorem recorded_shift_is_worked (set_order : gset string → list string)
    s now silent_mode s' :
  (∀ X x, x ∈ set_order X ↔ x ∈ X) → (∀ X, NoDup (set_order X)) →
  schedule_tasks set_order s now silent_mode = Ok s' →
  ∀ task_id sched, (task_id, sched) ∈ task_schedule s' →
    if Sched.is_quality sched
    then (∃ shifts, (Sched.team sched, shifts) ∈ quality_team_shifts s
                    ∧ Sched.shift sched ∈ shifts)
         ∧ Sched.mechanics_required sched
           ≤ default 0 (dict_get (Sched.team sched) (quality_team_capacity s))
    else in_shift (Sched.shift sched) (minute_of_day (Sched.start_time sched)) = true
         ∧ Sched.shift sched ∈ default [] (team_shifts s !! Sched.team sched).
Proof.
  intros H1 H2 Hrun. apply schedule_tasks_places in Hrun as (st & Hplace & ->).
  cbn [task_schedule set_task_schedule]. revert Hplace.
  apply (placement_ind set_order H1 H2 _ (set_task_schedule [] s)
           (λ sch, ∀ task_id sched, (task_id, sched) ∈ sch →
              if Sched.is_quality sched
              then (∃ shifts, (Sched.team sched, shifts) ∈ quality_team_shifts s
                              ∧ Sched.shift sched ∈ shifts)
                   ∧ Sched.mechanics_required sched
                     ≤ default 0 (dict_get (Sched.team sched)
                                    (quality_team_capacity s))
              else in_shift (Sched.shift sched)
                     (minute_of_day (Sched.start_time sched)) = true
                   ∧ Sched.shift sched
                     ∈ default [] (team_shifts s !! Sched.team sched))).
  - intros k e Hin. by apply elem_of_nil in Hin.
  - intros st0 t info product_line start team shift _ IH _ _ _ _ Hslot k e.
    intros [Hin|Hin%list_elem_of_singleton]%elem_of_app; [by apply (IH k e)|].
    injection Hin as -> ->. cbn [Sched.is_quality Sched.team Sched.shift
      Sched.mechanics_required Sched.start_time].
    unfold find_slot in Hslot. destruct (Task.is_quality info).
    + apply try_quality_shifts_team in Hslot.
      by apply assign_quality_team_eligible in Hslot.
    + destruct (get_next_working_time_with_capacity _ _ _ _ _ _ _) as [[ts sh]|] eqn:E;
        [|done].
      injection Hslot as <- <- <-.
      apply get_next_working_time_shift in E. unfold available_shift in E.
      apply find_team_shift_spec in E as [? ?]. done.
Qed.

(** Task 2 of the chain starts at 07:00, on the first shift of its
    team. *)
Lemma recorded_shift_is_worked_witness :
  ∃ s' sched,
    schedule_tasks in_order ex_chain 0 true = Ok s'
    ∧ dict_get "P_2" (task_schedule s') = Some sched
    ∧ Sched.shift sched = "1st"%string
    ∧ in_shift "1st" (minute_of_day (Sched.start_time sched)) = true.
Proof.
  destruct ex_chain_runs as (s' & Hrun & Hs). exists s'.
  eexists. split; [exact Hrun|]. split; [by rewrite Hs|]. split; [reflexivity|].
  assert (("P_2"%string,
           Sched.mk (start_date + 60) (start_date + 120) "M" "Product P" 60 1 false
             Production "1st") ∈ task_schedule s') as Hin
    by (rewrite Hs; right; left).
  exact (proj1 (recorded_shift_is_worked in_order ex_chain 0 true s' in_order_elem
                  in_order_nodup Hrun _ _ Hin)).
Defined.
